(** * termtypr: metrics, typing session, results, history store and router

    A shallow embedding of the core of the termtypr typing trainer
    (core/stats_calculator.py, games/base_game.py,
    domain/models/game_result.py, infrastructure/persistence/*.py and
    application/application_router.py), with the properties of its
    specification proved, amended or refuted on it.

    Conventions of the embedding:
    - Python [int] is [Z]; list indices and lengths are [nat];
    - Python [float] has two models.  In [binary64] a float is the
      rational it stands for, a signed zero, an infinity or a NaN, every
      operation returns the float nearest to the exact result, ties to
      even, and a zero divisor raises; the values of the two metrics are
      settled there ([stats_calculator_binary64]).  The session, the
      results and the router carry floats idealised as exact rationals
      ([Q], with [round(x, 2)] the nearest hundredth, ties to even): the
      rounding error of an operation is left out, so what is proved
      there is about order, sign and structure, not about last digits;
    - [str] is [string]; a word list is [list string];
    - the wall clock ([time.time()], [datetime.now()]) is an explicit
      argument of every function that reads it;
    - a function that mutates [self] returns the new object next to its
      result. *)

From Stdlib Require Import ZArith QArith Qround Qminmax Qabs Qpower.
From Stdlib Require Import String Ascii List Bool Lia Lqa.
From stdpp Require Import base list strings gmap.

Set Warnings "-register-all".

(** ** Python numbers *)

Module PyNum.

(** Truthiness of a float: [not x] holds exactly for zero. *)
Definition float_falsy (x : Q) : bool := Qeq_bool x 0.

Definition Qltb (x y : Q) : bool := negb (Qle_bool y x).

(** [max(a, b)] keeps its first argument unless the second is strictly
    greater. *)
Definition py_max (a b : Q) : Q := if Qltb a b then b else a.

(** [min(a, b)] on integers keeps its first argument unless the second is
    strictly smaller. *)
Definition py_min (a b : Z) : Z := if (b <? a)%Z then b else a.

(** Nearest integer, ties to even. *)
Definition round_half_even (x : Q) : Z :=
  let f := Qfloor x in
  match (x - inject_Z f ?= 1 # 2)%Q with
  | Lt => f
  | Gt => (f + 1)%Z
  | Eq => if Z.even f then f else (f + 1)%Z
  end.

(** [round(x, 2)]. *)
Definition round2 (x : Q) : Q := (round_half_even (x * 100) # 100)%Q.

(** True division of two integers, [a / b]. *)
Definition int_div (a b : Z) : Q := (inject_Z a / inject_Z b)%Q.

End PyNum.

(** ** core/stats_calculator.py *)

Module stats_calculator.
Import PyNum.

(** [w[i] if i < len(w) else <empty>]: a one-character string, or the
    empty string past the end of the word. *)
Definition char_or_empty (w : string) (i : nat) : string :=
  if (i <? String.length w)%nat
  then match String.get i w with
       | Some c => String c EmptyString
       | None => EmptyString
       end
  else EmptyString.

(** Body of the inner [for i in range(max_len)] loop, threading the
    running counter. *)
Definition compare_position (typed target : string) (errors : Z) (i : nat) : Z :=
  if String.eqb (char_or_empty typed i) (char_or_empty target i)
  then errors
  else (errors + 1)%Z.

(** Body of the outer [for typed, target in zip(...)] loop. *)
Definition compare_words (errors : Z) (pair : string * string) : Z :=
  let '(typed, target) := pair in
  let max_len := Nat.max (String.length typed) (String.length target) in
  fold_left (compare_position typed target) (seq 0 max_len) errors.

(** [sum(len(word) for word in words)]. *)
Definition sum_len (words : list string) : Z :=
  fold_left (fun acc word => (acc + Z.of_nat (String.length word))%Z) words 0%Z.

Definition calculate_wpm
    (typed_words target_words : list string) (elapsed_time_seconds : Q) : Q :=
  if float_falsy elapsed_time_seconds then 0%Q
  else
    let uncorrected_errors :=
      fold_left compare_words (zip typed_words target_words) 0%Z in
    let total_chars := sum_len typed_words in
    let total_chars :=
      if (1 <? length typed_words)%nat
      then (total_chars + (Z.of_nat (length typed_words) - 1))%Z
      else total_chars in
    let minutes := (elapsed_time_seconds / 60)%Q in
    let net_wpm := (int_div (total_chars - uncorrected_errors) 5 / minutes)%Q in
    round2 (py_max net_wpm 0).

Definition calculate_accuracy
    (typed_words target_words : list string) (typo_count : Z) : Q :=
  match typed_words, target_words with
  | [], _ | _, [] => 0%Q
  | _, _ =>
      let total_chars_typed := sum_len typed_words in
      if (total_chars_typed =? 0)%Z then 0%Q
      else
        let effective_typos := py_min typo_count total_chars_typed in
        let accuracy :=
          (int_div (total_chars_typed - effective_typos) total_chars_typed * 100)%Q in
        round2 accuracy
  end.

(** *** The specification's reading of the two metrics *)

(** A token padded to [n] positions: present characters, then the empty
    character. *)
Definition padded (n : nat) (w : string) : list (option ascii) :=
  map (fun i => String.get i w) (seq 0 n).

(** Number of positions of a (typed, target) pair at which the padded
    tokens differ. *)
Definition spec_pair_errors (typed target : string) : nat :=
  let n := Nat.max (String.length typed) (String.length target) in
  length (filter (fun p : option ascii * option ascii => p.1 ≠ p.2)
                 (zip (padded n typed) (padded n target))).

(** Pairs are taken up to the length of the shorter list. *)
Definition spec_uncorrected_errors (typed target : list string) : nat :=
  let k := Nat.min (length typed) (length target) in
  sum_list (zip_with spec_pair_errors (take k typed) (take k target)).

(** Typed-token lengths, plus [len(typed) - 1] separators when there is
    more than one token. *)
Definition spec_total_chars (typed : list string) : nat :=
  sum_list (map String.length typed)
  + (if decide (1 < length typed)%nat then length typed - 1 else 0).

Definition spec_wpm (typed target : list string) (elapsed_seconds : Q) : Q :=
  if float_falsy elapsed_seconds then 0%Q
  else
    let net := (Z.of_nat (spec_total_chars typed)
                - Z.of_nat (spec_uncorrected_errors typed target))%Z in
    round2 (Qmax 0 ((inject_Z net / 5) / (elapsed_seconds / 60))%Q).

Definition spec_accuracy (typed target : list string) (typo_count : Z) : Q :=
  let total := Z.of_nat (sum_list (map String.length typed)) in
  if bool_decide (typed = []) || bool_decide (target = []) || (total =? 0)%Z
  then 0%Q
  else round2 (100 * inject_Z (total - Z.min typo_count total) / inject_Z total)%Q.

End stats_calculator.


(** ** Exceptions *)

(** What a call raises.  [OutOfModel] is not a Python exception: it marks a
    stored value whose type is not the one the dataclass field declares,
    which the typed record of this embedding cannot hold. *)
Inductive exn :=
| AttributeError | TypeError | ValueError
| UnicodeDecodeError | PermissionError
| ZeroDivisionError | OverflowError
| OutOfModel.

Inductive outcome (A : Type) : Type :=
| Ok (a : A)
| Raise (e : exn).
Arguments Ok {A} a.
Arguments Raise {A} e.

Definition bind {A B : Type} (m : outcome A) (k : A → outcome B) : outcome B :=
  match m with
  | Ok a => k a
  | Raise e => Raise e
  end.

Notation "x ←! m ; k" := (bind m (fun x => k))
  (at level 100, m at next level, right associativity).

(** ** Python floats, exactly *)

Module binary64.
Import PyNum.

(** An IEEE 754 binary64 value: a zero with its sign, a finite non-zero
    value given by the rational it stands for, in lowest terms, an
    infinity with its sign, or a NaN. *)
Inductive float :=
| Zero (negative : bool)
| Finite (value : Q)
| Infinity (negative : bool)
| NaN.

(** Floor of the base-2 logarithm of a positive rational. *)
Definition ilog2 (q : Q) : Z :=
  let l := (Z.log2 (Qnum q) - Z.log2 (Zpos (Qden q)))%Z in
  if Qle_bool (2 ^ l) q then l else (l - 1)%Z.

(** Exponent of the last place of the 53-bit significand that holds [q];
    the smallest exponent of the format is -1074. *)
Definition ulp_exponent (q : Q) : Z := Z.max (ilog2 q - 52) (-1074).

(** A positive rational rounded to a multiple of its unit in the last
    place, ties to even. *)
Definition round_positive (q : Q) : Q :=
  let e := ulp_exponent q in
  (inject_Z (round_half_even (q / 2 ^ e)) * 2 ^ e)%Q.

Definition nearest_positive (negative : bool) (q : Q) : float :=
  let v := round_positive q in
  if Qeq_bool v 0 then Zero negative
  else if Qle_bool (2 ^ 1024) v then Infinity negative
  else Finite (Qred (if negative then - v else v)).

(** The float nearest to a rational, ties to even: what a correctly
    rounded operation returns for the exact result [q]. *)
Definition nearest (q : Q) : float :=
  match (q ?= 0)%Q with
  | Eq => Zero false
  | Gt => nearest_positive false q
  | Lt => nearest_positive true (- q)
  end.

Definition is_negative (x : float) : bool :=
  match x with
  | Zero s | Infinity s => s
  | Finite q => Qltb q 0
  | NaN => false
  end.

(** [not x]. *)
Definition falsy (x : float) : bool :=
  match x with
  | Zero _ => true
  | _ => false
  end.

(** [x < 0]. *)
Definition lt_zero (x : float) : bool :=
  match x with
  | Finite q => Qltb q 0
  | Infinity s => s
  | _ => false
  end.

(** [x <= y]. *)
Definition le (x y : float) : bool :=
  match x, y with
  | NaN, _ | _, NaN => false
  | Infinity true, _ | _, Infinity false => true
  | Infinity false, _ | _, Infinity true => false
  | Zero _, Zero _ => true
  | Zero _, Finite q => Qle_bool 0 q
  | Finite p, Zero _ => Qle_bool p 0
  | Finite p, Finite q => Qle_bool p q
  end.

(** [a / b] on two integers: the quotient, correctly rounded. *)
Definition int_truediv (a b : Z) : outcome float :=
  if (b =? 0)%Z then Raise ZeroDivisionError
  else if (a =? 0)%Z then Ok (Zero (b <? 0)%Z)
  else match nearest (inject_Z a / inject_Z b) with
       | Infinity _ => Raise OverflowError
       | x => Ok x
       end.

(** [x / y] on two floats: a zero divisor raises, whatever [x] is. *)
Definition truediv (x y : float) : outcome float :=
  match x, y with
  | _, Zero _ => Raise ZeroDivisionError
  | NaN, _ | _, NaN => Ok NaN
  | Infinity _, Infinity _ => Ok NaN
  | Infinity s, Finite _ => Ok (Infinity (xorb s (is_negative y)))
  | Zero s, _ => Ok (Zero (xorb s (is_negative y)))
  | Finite _, Infinity s => Ok (Zero (xorb (is_negative x) s))
  | Finite p, Finite q => Ok (nearest (p / q))
  end.

(** [x * y] on two floats. *)
Definition mul (x y : float) : float :=
  match x, y with
  | NaN, _ | _, NaN => NaN
  | Infinity _, Zero _ | Zero _, Infinity _ => NaN
  | Infinity s, _ => Infinity (xorb s (is_negative y))
  | _, Infinity s => Infinity (xorb (is_negative x) s)
  | Zero s, _ => Zero (xorb s (is_negative y))
  | _, Zero s => Zero (xorb (is_negative x) s)
  | Finite p, Finite q => nearest (p * q)
  end.

(** [round(x, 2)] on a float: the exact value is rounded to the nearest
    hundredth, ties to even, and the float nearest to that decimal is
    returned; zeros, infinities and NaN round to themselves. *)
Definition round2 (x : float) : float :=
  match x with
  | Finite q =>
      let n := round_half_even (Qabs q * 100) in
      if (n =? 0)%Z then Zero (Qltb q 0)
      else nearest ((if Qltb q 0 then - n else n)%Z # 100)
  | _ => x
  end.

(** A value that is an [int] or a [float]. *)
Inductive number :=
| Int (z : Z)
| Float (x : float).

(** [max(x, 0)]: the float is kept unless [0 > x]. *)
Definition max_with_0 (x : float) : number :=
  if lt_zero x then Int 0 else Float x.

(** [round(v, 2)]: an [int] rounds to itself. *)
Definition round_number2 (v : number) : number :=
  match v with
  | Int z => Int z
  | Float x => Float (round2 x)
  end.

End binary64.

(** ** core/stats_calculator.py on floats as they are *)

Module stats_calculator_binary64.
Import PyNum stats_calculator binary64.

Definition calculate_wpm
    (typed_words target_words : list string) (elapsed_time_seconds : float)
  : outcome number :=
  if falsy elapsed_time_seconds then Ok (Float (Zero false))
  else
    let uncorrected_errors :=
      fold_left compare_words (zip typed_words target_words) 0%Z in
    let total_chars := sum_len typed_words in
    let total_chars :=
      if (1 <? length typed_words)%nat
      then (total_chars + (Z.of_nat (length typed_words) - 1))%Z
      else total_chars in
    minutes ←! truediv elapsed_time_seconds (nearest 60);
    fifth ←! int_truediv (total_chars - uncorrected_errors) 5;
    net_wpm ←! truediv fifth minutes;
    Ok (round_number2 (max_with_0 net_wpm)).

Definition calculate_accuracy
    (typed_words target_words : list string) (typo_count : Z) : outcome float :=
  match typed_words, target_words with
  | [], _ | _, [] => Ok (Zero false)
  | _, _ =>
      let total_chars_typed := sum_len typed_words in
      if (total_chars_typed =? 0)%Z then Ok (Zero false)
      else
        let effective_typos := py_min typo_count total_chars_typed in
        ratio ←! int_truediv (total_chars_typed - effective_typos) total_chars_typed;
        let accuracy := mul ratio (nearest 100) in
        Ok (round2 accuracy)
  end.

(** A float from 0.0 to 100.0, no negative zero. *)
Definition percentage (x : float) : Prop :=
  x = Zero false ∨ ∃ v, x = Finite v ∧ (0 < v)%Q ∧ (v <= 100)%Q.

(** *** The specification's reading of the two metrics, on floats *)

Definition spec_wpm (typed target : list string) (elapsed_seconds : float)
  : outcome number :=
  if falsy elapsed_seconds then Ok (Float (Zero false))
  else
    let net := (Z.of_nat (spec_total_chars typed)
                - Z.of_nat (spec_uncorrected_errors typed target))%Z in
    minutes ←! truediv elapsed_seconds (nearest 60);
    fifth ←! int_truediv net 5;
    quotient ←! truediv fifth minutes;
    Ok (round_number2 (max_with_0 quotient)).

(** [100 * (total - min(typo_count, total)) / total], rounded. *)
Definition spec_accuracy (typed target : list string) (typo_count : Z)
  : outcome float :=
  let total := Z.of_nat (sum_list (map String.length typed)) in
  if bool_decide (typed = []) || bool_decide (target = []) || (total =? 0)%Z
  then Ok (Zero false)
  else
    quotient ←! int_truediv (100 * (total - Z.min typo_count total)) total;
    Ok (round2 quotient).

End stats_calculator_binary64.

(** ** JSON values and Python dictionaries with string keys *)

Inductive json :=
| JNull
| JBool (b : bool)
| JInt (z : Z)
| JFloat (q : Q)
| JStr (s : string)
| JList (l : list json)
| JDict (d : gmap string json).

Module pydict.

(** [bool(v)]. *)
Definition truthy (v : json) : bool :=
  match v with
  | JNull => false
  | JBool b => b
  | JInt z => negb (z =? 0)%Z
  | JFloat q => negb (Qeq_bool q 0)
  | JStr s => negb (String.eqb s EmptyString)
  | JList l => negb (bool_decide (l = []))
  | JDict d => negb (bool_decide (d = ∅))
  end.

(** [a or b]. *)
Definition py_or (a b : json) : json := if truthy a then a else b.

(** [data.get(key)]. *)
Definition get (data : gmap string json) (key : string) : json :=
  default JNull (data !! key).

(** [data.get(key, dflt)]. *)
Definition get_default (data : gmap string json) (key : string) (dflt : json) : json :=
  default dflt (data !! key).

End pydict.

(** ** datetime *)

(** A [datetime]: its calendar and clock fields, and [tzinfo] as the offset
    from UTC in minutes ([None] for a naive value, [Some 0] for
    [timezone.utc]). *)
Record datetime := mk_datetime {
  year : Z; month : Z; day : Z;
  hour : Z; minute : Z; second : Z; microsecond : Z;
  tzinfo : option Z
}.

(** [ts.replace(tzinfo=timezone.utc)]. *)
Definition replace_tzinfo_utc (ts : datetime) : datetime :=
  mk_datetime (year ts) (month ts) (day ts) (hour ts) (minute ts) (second ts)
              (microsecond ts) (Some 0%Z).

(** The two library functions the result model calls.  [fromisoformat]
    answers [None] where the library raises [ValueError]. *)
Class Iso8601 := {
  isoformat : datetime → string;
  fromisoformat : string → option datetime
}.

(** ** domain/models/game_result.py *)

Module game_result.

Record GameResult := mk_GameResult {
  wpm : Q;
  accuracy : Q;
  duration : Q;
  game_type : string;
  timestamp : datetime;
  total_characters : Z;
  correct_characters : Z;
  error_count : Z;
  is_new_record : bool;
  previous_best : option Q
}.

(** [dataclasses.replace(result, is_new_record=.., previous_best=..)]. *)
Definition replace (r : GameResult) (new_record : bool) (best : option Q) : GameResult :=
  mk_GameResult (wpm r) (accuracy r) (duration r) (game_type r) (timestamp r)
                (total_characters r) (correct_characters r) (error_count r)
                new_record best.

Definition to_dict `{Iso8601} (r : GameResult) : gmap string json :=
  list_to_map
    [ ("wpm"%string, JFloat (wpm r));
      ("accuracy"%string, JFloat (accuracy r));
      ("duration"%string, JFloat (duration r));
      ("game_type"%string, JStr (game_type r));
      ("timestamp"%string, JStr (isoformat (timestamp r)));
      ("total_characters"%string, JInt (total_characters r));
      ("correct_characters"%string, JInt (correct_characters r));
      ("error_count"%string, JInt (error_count r)) ].

Definition as_float (v : json) : outcome Q :=
  match v with
  | JFloat q => Ok q
  | JInt z => Ok (inject_Z z)
  | _ => Raise OutOfModel
  end.

Definition as_int (v : json) : outcome Z :=
  match v with
  | JInt z => Ok z
  | _ => Raise OutOfModel
  end.

Definition as_str (v : json) : outcome string :=
  match v with
  | JStr s => Ok s
  | _ => Raise OutOfModel
  end.

(** [now] is the reading of [datetime.now(tz=timezone.utc)], used when the
    record carries no timestamp. *)
Definition from_dict `{Iso8601} (now : datetime) (data : gmap string json)
  : outcome GameResult :=
  let raw_ts := pydict.py_or (pydict.get data "timestamp") (pydict.get data "date") in
  ts ←! (if pydict.truthy raw_ts
         then match raw_ts with
              | JStr s =>
                  match fromisoformat s with
                  | Some ts =>
                      Ok (match tzinfo ts with
                          | None => replace_tzinfo_utc ts
                          | Some _ => ts
                          end)
                  | None => Raise ValueError
                  end
              | _ => Raise TypeError
              end
         else Ok now);
  wpm ←! as_float (pydict.get_default data "wpm" (JFloat 0));
  accuracy ←! as_float (pydict.get_default data "accuracy" (JFloat 0));
  duration ←! as_float (pydict.get_default data "duration" (JFloat 0));
  game_type ←! as_str (pydict.py_or (pydict.get data "game_type")
                                    (pydict.get_default data "game" (JStr "Unknown")));
  total_characters ←! as_int (pydict.get_default data "total_characters" (JInt 0));
  correct_characters ←! as_int (pydict.get_default data "correct_characters" (JInt 0));
  error_count ←! as_int (pydict.get_default data "error_count" (JInt 0));
  Ok (mk_GameResult wpm accuracy duration game_type ts
                    total_characters correct_characters error_count
                    false None).

(** The timestamp [from_dict] builds from the text [to_dict] stored for
    [ts]. *)
Definition reloaded_timestamp `{Iso8601} (now : datetime) (ts : datetime)
  : outcome datetime :=
  if String.eqb (isoformat ts) EmptyString then Ok now
  else match fromisoformat (isoformat ts) with
       | Some ts' =>
           Ok (match tzinfo ts' with None => replace_tzinfo_utc ts' | Some _ => ts' end)
       | None => Raise ValueError
       end.

End game_result.

(** ** games/base_game.py *)

Module base_game.
Import PyNum stats_calculator.

Inductive GameStatus := NOT_STARTED | READY | ACTIVE | COMPLETED | CANCELLED.

#[export] Instance GameStatus_eq_dec : EqDecision GameStatus.
Proof. solve_decision. Defined.

Record BaseGame := mk_BaseGame {
  name : string;
  description : string;
  status : GameStatus;
  result : option game_result.GameResult;
  target_words : list string;
  typed_words : list string;
  current_word_index : nat;
  start_time : Q;
  end_time : Q;
  error_count : Z;
  current_input : string;
  previous_input : string
}.

(** The dictionaries [process_input] answers with, one constructor per
    shape. *)
Inductive Response :=
| Inactive
| Complete
| WordCompleted (current_index total_words : nat)
| Partial (input : string) (current_index : nat).

(** The ["status"] entry of the answer. *)
Definition response_status (r : Response) : string :=
  match r with
  | Inactive => "inactive"
  | Complete => "complete"
  | WordCompleted _ _ | Partial _ _ => "active"
  end.

(** [__init__]. *)
Definition new_game (name description : string) : BaseGame :=
  mk_BaseGame name description NOT_STARTED None [] [] 0 0 0 0 EmptyString EmptyString.

Definition with_status (g : BaseGame) (s : GameStatus) : BaseGame :=
  mk_BaseGame (name g) (description g) s (result g) (target_words g)
              (typed_words g) (current_word_index g) (start_time g) (end_time g)
              (error_count g) (current_input g) (previous_input g).

Definition with_target_words (g : BaseGame) (words : list string) : BaseGame :=
  mk_BaseGame (name g) (description g) (status g) (result g) words
              (typed_words g) (current_word_index g) (start_time g) (end_time g)
              (error_count g) (current_input g) (previous_input g).

Definition cancel (g : BaseGame) : BaseGame :=
  mk_BaseGame (name g) (description g) CANCELLED None (target_words g)
              (typed_words g) (current_word_index g) (start_time g) (end_time g)
              (error_count g) (current_input g) (previous_input g).

Definition is_finished (g : BaseGame) : bool :=
  bool_decide (status g = COMPLETED) || bool_decide (status g = CANCELLED).

(** [while len(words) < n: words.append(<empty>)]. *)
Definition extend_to (n : nat) (words : list string) : list string :=
  words ++ replicate (n - length words) EmptyString.

Definition _process_complete_word (word : string) (g : BaseGame)
  : Response * BaseGame :=
  if (length (target_words g) <=? current_word_index g)%nat
  then (Complete, with_status g COMPLETED)
  else
    let typed := extend_to (S (current_word_index g)) (typed_words g) in
    let typed := <[current_word_index g := word]> typed in
    let index := S (current_word_index g) in
    if (length (target_words g) <=? index)%nat
    then
      (Complete,
       mk_BaseGame (name g) (description g) COMPLETED (result g) (target_words g)
                   (extend_to (length (target_words g)) typed) index
                   (start_time g) (end_time g) (error_count g)
                   EmptyString EmptyString)
    else
      (WordCompleted index (length (target_words g)),
       mk_BaseGame (name g) (description g) (status g) (result g) (target_words g)
                   typed index (start_time g) (end_time g) (error_count g)
                   EmptyString EmptyString).

(** The test guarding [self.error_count += 1]. *)
Definition counts_as_error (g : BaseGame) (input_text : string) : bool :=
  match target_words g !! current_word_index g with
  | Some target_word =>
      negb (String.eqb input_text EmptyString)
      && (String.length (previous_input g) <? String.length input_text)%nat
      && negb (String.prefix input_text target_word)
  | None => false
  end.

Definition _process_partial_input (input_text : string) (g : BaseGame)
  : Response * BaseGame :=
  let errors :=
    if counts_as_error g input_text then (error_count g + 1)%Z else error_count g in
  let typed := extend_to (S (current_word_index g)) (typed_words g) in
  let typed := <[current_word_index g := input_text]> typed in
  (Partial input_text (current_word_index g),
   mk_BaseGame (name g) (description g) (status g) (result g) (target_words g)
               typed (current_word_index g) (start_time g) (end_time g)
               errors input_text input_text).

(** The first statement of [process_input]: the timer starts, and the
    game becomes ACTIVE, on the first non-empty input.  [now] is the
    reading of [time.time()]. *)
Definition start_timer (now : Q) (input_text : string) (g : BaseGame) : BaseGame :=
  if float_falsy (start_time g) && negb (String.eqb input_text EmptyString)
  then mk_BaseGame (name g) (description g) ACTIVE (result g) (target_words g)
                   (typed_words g) (current_word_index g) now (end_time g)
                   (error_count g) (current_input g) (previous_input g)
  else g.

Definition process_input (now : Q) (input_text : string) (is_complete_input : bool)
    (g : BaseGame) : Response * BaseGame :=
  let g := start_timer now input_text g in
  if negb (bool_decide (status g = ACTIVE)) then (Inactive, g)
  else if is_complete_input then _process_complete_word input_text g
  else _process_partial_input input_text g.

(** [sum(len(typed) for typed, target in zip(..) if typed == target)]. *)
Definition correct_chars (typed target : list string) : Z :=
  fold_left
    (fun acc (p : string * string) =>
       if String.eqb p.1 p.2 then (acc + Z.of_nat (String.length p.1))%Z else acc)
    (zip typed target) 0%Z.

(** [now] is the reading of [time.time()], [stamp] the one of
    [datetime.now(tz=timezone.utc)]. *)
Definition finish (now : Q) (stamp : datetime) (g : BaseGame)
  : game_result.GameResult * BaseGame :=
  let elapsed_time := if Qltb 0 (start_time g) then (now - start_time g)%Q else 0%Q in
  let completed_typed := take (current_word_index g) (typed_words g) in
  let completed_target := take (current_word_index g) (target_words g) in
  let wpm := calculate_wpm completed_typed completed_target elapsed_time in
  let accuracy := calculate_accuracy completed_typed completed_target (error_count g) in
  let r :=
    game_result.mk_GameResult wpm accuracy elapsed_time (name g) stamp
      (sum_len completed_target)
      (correct_chars completed_typed completed_target)
      (error_count g) false None in
  (r,
   mk_BaseGame (name g) (description g) COMPLETED (Some r) (target_words g)
               (typed_words g) (current_word_index g) (start_time g) now
               (error_count g) (current_input g) (previous_input g)).

(** [_reset_state]. *)
Definition _reset_state (g : BaseGame) : BaseGame :=
  mk_BaseGame (name g) (description g) (status g) None (target_words g)
              [] 0 0 0 0 EmptyString EmptyString.

(** [start] of both variants: the generated content [words] becomes the
    target, the mutable state is reset, the game stays READY; refused
    unless the game is READY. *)
Definition start (words : list string) (g : BaseGame) : bool * BaseGame :=
  if negb (bool_decide (status g = READY)) then (false, g)
  else (true, with_status (_reset_state (with_target_words g words)) READY).

(** A run of [process_input] calls, each with its clock reading. *)
Definition feed (calls : list (Q * string * bool)) (g : BaseGame) : BaseGame :=
  fold_left (fun g '(now, text, is_complete) => (process_input now text is_complete g).2)
            calls g.

End base_game.

(** ** games/random_words_game.py, games/phrase_typing_game.py *)

Module variants.
Import base_game.

Inductive GameClass := RandomWordsGame | PhraseTypingGame.

Definition MIN_WORD_COUNT : Z := 5.
Definition MAX_WORD_COUNT : Z := 200.

Definition DISPLAY_NAME (cls : GameClass) : string :=
  match cls with
  | RandomWordsGame => "Random Words"
  | PhraseTypingGame => "Phrase Typing"
  end.

Definition GAME_DESCRIPTION (cls : GameClass) : string :=
  match cls with
  | RandomWordsGame =>
      "Type randomly selected words as fast and accurately as possible"
  | PhraseTypingGame =>
      "Type complete phrases and quotes to improve your typing flow"
  end.

(** [cls()]. *)
Definition construct (cls : GameClass) : BaseGame :=
  new_game (DISPLAY_NAME cls) (GAME_DESCRIPTION cls).

(** [initialize(word_count=..)]: only the random-words variant validates
    its word count. *)
Definition initialize (cls : GameClass) (word_count : Z) (g : BaseGame)
  : bool * BaseGame :=
  match cls with
  | RandomWordsGame =>
      if (MIN_WORD_COUNT <=? word_count)%Z && (word_count <=? MAX_WORD_COUNT)%Z
      then (true, with_status g READY)
      else (false, g)
  | PhraseTypingGame => (true, with_status g READY)
  end.

End variants.

(** ** domain/history_repository.py *)

(** The abstract repository: each method acts on the store [R] and may
    raise. *)
Class HistoryRepository (R : Type) := {
  save : game_result.GameResult → R → outcome R;
  get_best : R → outcome (option game_result.GameResult * R);
  clear : R → outcome R
}.

(** [max(results, key=lambda r: r.wpm)]: the first result whose wpm no later
    one exceeds; [None] stands for the empty list the callers exclude. *)
Module py_max_by_wpm.
Import PyNum game_result.

Fixpoint scan (best : GameResult) (rest : list GameResult) : GameResult :=
  match rest with
  | [] => best
  | r :: rest => scan (if Qltb (wpm best) (wpm r) then r else best) rest
  end.

Definition max_by_wpm (results : list GameResult) : option GameResult :=
  match results with
  | [] => None
  | r :: rest => Some (scan r rest)
  end.

End py_max_by_wpm.

(** ** infrastructure/persistence/memory_history_repository.py *)

Module memory_history_repository.
Import game_result py_max_by_wpm.

Record InMemoryHistoryRepository := mk_repo { _results : list GameResult }.

Definition init : InMemoryHistoryRepository := mk_repo [].

Definition mem_save (r : GameResult) (repo : InMemoryHistoryRepository)
  : outcome InMemoryHistoryRepository :=
  Ok (mk_repo (_results repo ++ [r])).

Definition mem_get_best (repo : InMemoryHistoryRepository)
  : outcome (option GameResult * InMemoryHistoryRepository) :=
  Ok (max_by_wpm (_results repo), repo).

Definition mem_clear (repo : InMemoryHistoryRepository)
  : outcome InMemoryHistoryRepository :=
  Ok (mk_repo []).

#[export] Instance memory_repository : HistoryRepository InMemoryHistoryRepository :=
  {| save := mem_save; get_best := mem_get_best; clear := mem_clear |}.

End memory_history_repository.

(** ** infrastructure/persistence/json_history_repository.py *)

Module json_history_repository.
Import game_result py_max_by_wpm.

(** The backing file, up to what [open] and [json.load] make of it:
    absent ([FileNotFoundError]), present but closed to reading
    ([PermissionError]), bytes that are not UTF-8 ([UnicodeDecodeError]),
    text that is not JSON ([JSONDecodeError]), or a JSON document.
    Writing to the path always succeeds. *)
Inductive file_content :=
| FileMissing
| Unreadable
| NotUtf8
| NotJson
| JsonDoc (v : json).

Record JsonHistoryRepository := mk_repo {
  file : file_content;
  _results_cache : option (list GameResult)
}.

Definition empty_history : json := JDict {[ "history"%string := JList [] ]}.

(** [__init__]: a missing file is created empty. *)
Definition init (f : file_content) : JsonHistoryRepository :=
  mk_repo (match f with FileMissing => JsonDoc empty_history | _ => f end) None.

(** Only [JSONDecodeError] and [FileNotFoundError] are caught. *)
Definition _load_data (repo : JsonHistoryRepository) : outcome json :=
  match file repo with
  | FileMissing | NotJson => Ok empty_history
  | Unreadable => Raise PermissionError
  | NotUtf8 => Raise UnicodeDecodeError
  | JsonDoc v => Ok v
  end.

(** [data.get(key, dflt)] on whatever [json.load] returned. *)
Definition get_attr (data : json) (key : string) (dflt : json) : outcome json :=
  match data with
  | JDict d => Ok (pydict.get_default d key dflt)
  | _ => Raise AttributeError
  end.

(** The elements a [for] loop draws from a JSON value. *)
Definition iterate (v : json) : outcome (list json) :=
  match v with
  | JList l => Ok l
  | JDict d => Ok (map (fun kv : string * json => JStr kv.1) (map_to_list d))
  | JStr s => Ok (map (fun c => JStr (String c EmptyString)) (list_ascii_of_string s))
  | _ => Raise TypeError
  end.

(** [GameResult.from_dict(record)] on an element of the history. *)
Definition from_record `{Iso8601} (now : datetime) (record : json) : outcome GameResult :=
  match record with
  | JDict d => from_dict now d
  | _ => Raise AttributeError
  end.

(** The list comprehension; [clock i] is the clock reading at the
    [i]-th record. *)
Fixpoint parse_records `{Iso8601} (clock : nat → datetime) (i : nat)
    (records : list json) : outcome (list GameResult) :=
  match records with
  | [] => Ok []
  | record :: rest =>
      r ←! from_record (clock i) record;
      rs ←! parse_records clock (S i) rest;
      Ok (r :: rs)
  end.

Definition _load_results `{Iso8601} (clock : nat → datetime)
    (repo : JsonHistoryRepository) : outcome (list GameResult * JsonHistoryRepository) :=
  match _results_cache repo with
  | Some cache => Ok (cache, repo)
  | None =>
      data ←! _load_data repo;
      history ←! get_attr data "history" (JList []);
      records ←! iterate history;
      results ←! parse_records clock 0 records;
      Ok (results, mk_repo (file repo) (Some results))
  end.

Definition json_save `{Iso8601} (r : GameResult) (repo : JsonHistoryRepository)
  : outcome JsonHistoryRepository :=
  data ←! _load_data repo;
  history ←! get_attr data "history" (JList []);
  match history, data with
  | JList l, JDict d =>
      let d := <["history"%string := JList (l ++ [JDict (to_dict r)])]> d in
      Ok (mk_repo (JsonDoc (JDict d))
                  (match _results_cache repo with
                   | Some cache => Some (cache ++ [r])
                   | None => None
                   end))
  | _, _ => Raise AttributeError
  end.

Definition json_get_best `{Iso8601} (clock : nat → datetime)
    (repo : JsonHistoryRepository) : outcome (option GameResult * JsonHistoryRepository) :=
  loaded ←! _load_results clock repo;
  let '(results, repo) := loaded in
  Ok (max_by_wpm results, repo).

Definition json_clear (repo : JsonHistoryRepository) : outcome JsonHistoryRepository :=
  Ok (mk_repo (JsonDoc empty_history) None).

Definition json_repository `{Iso8601} (clock : nat → datetime)
  : HistoryRepository JsonHistoryRepository :=
  {| save := json_save; get_best := json_get_best clock; clear := json_clear |}.

End json_history_repository.

(** ** application/application_router.py *)

Module application_router.
Import PyNum base_game variants.

Definition _GAME_CLASSES : list GameClass := [RandomWordsGame; PhraseTypingGame].

(** The catalogue; only the class of each entry matters here. *)
Definition AVAILABLE_GAMES : list GameClass := _GAME_CLASSES.

Record ApplicationRouter (R : Type) := mk_router {
  history_repository : R;
  current_game : option BaseGame;
  selected_game_index : Z
}.
Arguments mk_router {R} _ _ _.
Arguments history_repository {R} _.
Arguments current_game {R} _.
Arguments selected_game_index {R} _.

Section Router.
Context {R : Type} `{HistoryRepository R}.

(** [__init__]. *)
Definition new_router (repo : R) : ApplicationRouter R := mk_router repo None 0.

Definition in_range (index : Z) : bool :=
  (0 <=? index)%Z && (index <? Z.of_nat (length AVAILABLE_GAMES))%Z.

(** The invariant of the selection: an index into the catalogue. *)
Definition index_in_range (router : ApplicationRouter R) : Prop :=
  (0 ≤ selected_game_index router < Z.of_nat (length AVAILABLE_GAMES))%Z.

Definition select_game (index : Z) (router : ApplicationRouter R)
  : bool * ApplicationRouter R :=
  if in_range index
  then (true, mk_router (history_repository router) (current_game router) index)
  else (false, router).

Definition navigate_game_selection (direction : Z) (router : ApplicationRouter R)
  : ApplicationRouter R :=
  let n := Z.of_nat (length AVAILABLE_GAMES) in
  mk_router (history_repository router) (current_game router)
            ((selected_game_index router + direction) mod n)%Z.

(** [word_count] is the caller's configuration entry, if any,
    [preferred] the stored preference, [words] the content the variant
    generates. *)
Definition start_game (word_count : option Z) (preferred : Z) (words : list string)
    (router : ApplicationRouter R) : bool * ApplicationRouter R :=
  if negb (in_range (selected_game_index router)) then (false, router)
  else
    match AVAILABLE_GAMES !! Z.to_nat (selected_game_index router) with
    | None => (false, router)
    | Some cls =>
        let game := construct cls in
        let '(ok, game) := initialize cls (default preferred word_count) game in
        if negb ok then (false, router)
        else
          let '(ok, game) := start words game in
          if negb ok then (false, router)
          else (true, mk_router (history_repository router) (Some game)
                                (selected_game_index router))
    end.

Definition process_game_input (now : Q) (input_text : string) (is_complete : bool)
    (router : ApplicationRouter R) : bool * ApplicationRouter R :=
  match current_game router with
  | None => (false, router)
  | Some game =>
      let '(answer, game) := process_input now input_text is_complete game in
      (negb (String.eqb (response_status answer) "error"),
       mk_router (history_repository router) (Some game) (selected_game_index router))
  end.

Definition finish_game (now : Q) (stamp : datetime) (router : ApplicationRouter R)
  : outcome (option game_result.GameResult * ApplicationRouter R) :=
  match current_game router with
  | None => Ok (None, router)
  | Some game =>
      let '(result, game) := finish now stamp game in
      answer ←! get_best (history_repository router);
      let '(best, repo) := answer in
      let result :=
        game_result.replace result
          (Qltb 0 (game_result.wpm result)
           && match best with
              | None => true
              | Some b => Qltb (game_result.wpm b) (game_result.wpm result)
              end)
          (game_result.wpm <$> best) in
      repo ←! save result repo;
      Ok (Some result, mk_router repo (Some game) (selected_game_index router))
  end.

Definition cancel_game (router : ApplicationRouter R) : bool * ApplicationRouter R :=
  match current_game router with
  | None => (false, router)
  | Some _ =>
      (true, mk_router (history_repository router) None (selected_game_index router))
  end.

Definition return_to_main_menu (router : ApplicationRouter R) : ApplicationRouter R :=
  mk_router (history_repository router) None 0.

(** The three operations that write [selected_game_index]. *)
Inductive selection_op :=
| SelectGame (index : Z)
| Navigate (direction : Z)
| ReturnToMainMenu.

Definition apply_op (router : ApplicationRouter R) (op : selection_op)
  : ApplicationRouter R :=
  match op with
  | SelectGame index => (select_game index router).2
  | Navigate direction => navigate_game_selection direction router
  | ReturnToMainMenu => return_to_main_menu router
  end.

Definition run_ops (ops : list selection_op) (router : ApplicationRouter R)
  : ApplicationRouter R :=
  fold_left apply_op ops router.

End Router.

End application_router.

(** ** The life of a session object *)

Module session.
Import base_game variants.

(** The states a game object can be in: built by a variant's constructor,
    then driven by [initialize], [start], [process_input], [finish] and
    [cancel]; the router's restart with the same text overwrites
    [target_words] of a game it has just started. *)
Inductive reachable : BaseGame → Prop :=
| reach_construct cls :
    reachable (construct cls)
| reach_initialize cls word_count g :
    reachable g → reachable (initialize cls word_count g).2
| reach_start words g :
    reachable g → reachable (start words g).2
| reach_same_text words saved g :
    reachable g → (start words g).1 = true → saved ≠ [] →
    reachable (with_target_words (start words g).2 saved)
| reach_process_input now text is_complete g :
    reachable g → reachable (process_input now text is_complete g).2
| reach_finish now stamp g :
    reachable g → reachable (finish now stamp g).2
| reach_cancel g :
    reachable g → reachable (cancel g).

(** No slot of [typed_words] lies beyond the one being typed. *)
Definition typed_within_cursor (g : BaseGame) : Prop :=
  (length (typed_words g) ≤ S (current_word_index g))%nat.

End session.

(** ** An ISO-8601 text codec for concrete runs *)

(** Modelled from the library documentation of [datetime.isoformat] and
    [datetime.fromisoformat], which are not part of the repository:
    [YYYY-MM-DDTHH:MM:SS], then [.ffffff] when the microsecond is not zero,
    then the offset [+HH:MM] of an aware value.  The parser reads back what
    the printer writes.  The properties below hold for every codec; this
    one runs them on data. *)
Module iso_text.

Fixpoint digits (k : nat) (n : Z) : list ascii :=
  match k with
  | O => []
  | S k => digits k (n / 10)%Z ++ [ascii_of_nat (Z.to_nat (48 + n mod 10))]
  end.

Definition offset_text (tz : option Z) : list ascii :=
  match tz with
  | None => []
  | Some off =>
      let m := Z.abs off in
      (if (off <? 0)%Z then "-"%char else "+"%char)
        :: digits 2 (m / 60)%Z ++ ":"%char :: digits 2 (m mod 60)%Z
  end.

Definition render (d : datetime) : string :=
  string_of_list_ascii
    (digits 4 (year d) ++ "-"%char :: digits 2 (month d) ++ "-"%char
     :: digits 2 (day d) ++ "T"%char :: digits 2 (hour d) ++ ":"%char
     :: digits 2 (minute d) ++ ":"%char :: digits 2 (second d)
     ++ (if (microsecond d =? 0)%Z then [] else "."%char :: digits 6 (microsecond d))
     ++ offset_text (tzinfo d)).

Definition digit (c : ascii) : option Z :=
  let n := Z.of_nat (nat_of_ascii c) in
  if (48 <=? n)%Z && (n <=? 57)%Z then Some (n - 48)%Z else None.

Fixpoint number (k : nat) (acc : Z) (s : list ascii) : option (Z * list ascii) :=
  match k with
  | O => Some (acc, s)
  | S k =>
      match s with
      | c :: s => d ← digit c; number k (10 * acc + d)%Z s
      | [] => None
      end
  end.

Definition literal (c : ascii) (s : list ascii) : option (list ascii) :=
  match s with
  | c' :: s => if Ascii.eqb c c' then Some s else None
  | [] => None
  end.

Definition fraction (s : list ascii) : option (Z * list ascii) :=
  match s with
  | c :: s' => if Ascii.eqb c "."%char then number 6 0 s' else Some (0%Z, s)
  | [] => Some (0%Z, s)
  end.

Definition offset (s : list ascii) : option (option Z) :=
  match s with
  | [] => Some None
  | sign :: s =>
      negative ← (if Ascii.eqb sign "-"%char then Some true
                  else if Ascii.eqb sign "+"%char then Some false else None);
      hh ← number 2 0 s;
      s ← literal ":"%char hh.2;
      mm ← number 2 0 s;
      match mm.2 with
      | [] =>
          let m := (60 * hh.1 + mm.1)%Z in
          Some (Some (if negative : bool then (- m)%Z else m))
      | _ => None
      end
  end.

Definition parse (text : string) : option datetime :=
  y ← number 4 0 (list_ascii_of_string text);
  s ← literal "-"%char y.2;
  mo ← number 2 0 s;
  s ← literal "-"%char mo.2;
  d ← number 2 0 s;
  s ← literal "T"%char d.2;
  h ← number 2 0 s;
  s ← literal ":"%char h.2;
  mi ← number 2 0 s;
  s ← literal ":"%char mi.2;
  sec ← number 2 0 s;
  us ← fraction sec.2;
  tz ← offset us.2;
  Some (mk_datetime y.1 mo.1 d.1 h.1 mi.1 sec.1 us.1 tz).

Definition codec : Iso8601 := {| isoformat := render; fromisoformat := parse |}.

End iso_text.

(** ** Sample data *)

Module samples.
Import base_game variants.

(** A random-words game started on two words. *)
Definition ready : BaseGame :=
  (start ["ab"; "cd"]%string
         (initialize RandomWordsGame 5 (construct RandomWordsGame)).2).2.

(** After the first keystroke, read at clock 1000. *)
Definition typing : BaseGame := (process_input 1000 "a" false ready).2.

(** After the first word was submitted. *)
Definition second_word : BaseGame := (process_input 1004 "ab" true typing).2.

(** After the last word was submitted. *)
Definition completed : BaseGame := (process_input 1006 "cd" true second_word).2.

(** A game started on an empty corpus, after a keystroke. *)
Definition no_words : BaseGame :=
  (process_input 1000 "a" false
     (start [] (initialize RandomWordsGame 5 (construct RandomWordsGame)).2).2).2.

(** A game cancelled before anything was typed. *)
Definition cancelled_early : BaseGame := cancel ready.

Definition stored (speed : Q) (variant : string) (ts : datetime)
  : game_result.GameResult :=
  game_result.mk_GameResult speed 95 30 variant ts 150 140 5 false None.

(** 2026-01-15 12:00:00 UTC, and the same wall clock without a zone. *)
Definition noon_utc : datetime := mk_datetime 2026 1 15 12 0 0 0 (Some 0%Z).
Definition noon_naive : datetime := mk_datetime 2026 1 15 12 0 0 0 None.

(** A stored result carrying the router's annotations. *)
Definition annotated_result : game_result.GameResult :=
  game_result.replace (stored 82.5 "Phrase Typing" noon_utc) true (Some 90%Q).


(** A router holding the completed sample over an empty in-memory store,
    and a new one. *)
Definition finishing_router
  : application_router.ApplicationRouter
      memory_history_repository.InMemoryHistoryRepository :=
  application_router.mk_router memory_history_repository.init (Some completed) 0.

Definition fresh_router
  : application_router.ApplicationRouter
      memory_history_repository.InMemoryHistoryRepository :=
  application_router.new_router memory_history_repository.init.

End samples.

(** ** games/base_game.py: the live statistics *)

Module live_stats.
Import PyNum stats_calculator base_game.

(** [get_current_stats]; [now] is the reading of [time.time()].  The answer
    is the dictionary the source builds, [stats.update] included. *)
Definition get_current_stats (now : Q) (g : BaseGame) : gmap string json :=
  if float_falsy (start_time g)
  then
    list_to_map
      [ ("wpm"%string, JFloat 0);
        ("accuracy"%string, JFloat 100);
        ("elapsed_time"%string, JFloat 0);
        ("characters_typed"%string, JInt 0) ]
  else
    let elapsed_time := (now - start_time g)%Q in
    let completed_typed_words := take (current_word_index g) (typed_words g) in
    let completed_target_words := take (current_word_index g) (target_words g) in
    let stats : gmap string json :=
      match completed_typed_words with
      | [] =>
          list_to_map
            [ ("wpm"%string, JFloat 0);
              ("accuracy"%string, JFloat 100);
              ("duration"%string, JFloat elapsed_time) ]
      | _ =>
          list_to_map
            [ ("wpm"%string,
               JFloat (calculate_wpm completed_typed_words completed_target_words
                                     elapsed_time));
              ("accuracy"%string,
               JFloat (calculate_accuracy completed_typed_words completed_target_words
                                          (error_count g)));
              ("duration"%string, JFloat (round2 elapsed_time)) ]
      end in
    <["elapsed_time"%string := JFloat elapsed_time]>
      (<["total_words"%string := JInt (Z.of_nat (length (target_words g)))]>
         (<["characters_typed"%string := JInt (sum_len completed_typed_words)]> stats)).

(** A run of complete submissions, one word per clock reading. *)
Definition submit_all (clocks : list Q) (words : list string) : list (Q * string * bool) :=
  zip_with (fun now word => (now, word, true)) clocks words.

(** What every session object satisfies: the cursor is inside the target,
    the typed words reach the cursor and at most the slot under it, and the
    error counter is not negative. *)
Definition session_invariant (g : BaseGame) : Prop :=
  (current_word_index g ≤ length (target_words g))%nat
  ∧ (current_word_index g ≤ length (typed_words g))%nat
  ∧ (length (typed_words g) ≤ S (current_word_index g))%nat
  ∧ (0 ≤ error_count g)%Z.

End live_stats.

(** ** The best result after a save *)

Module best_result.
Import PyNum game_result.

(** The best result once [r] is stored after results whose best was [old]:
    the old best unless [r] is strictly faster. *)
Definition best_after (old : option GameResult) (r : GameResult) : GameResult :=
  match old with
  | None => r
  | Some b => if Qltb (wpm b) (wpm r) then r else b
  end.

End best_result.

(** ** application/application_router.py: restart and the state queries *)

Module router_lifecycle.
Import base_game variants application_router.

(** The game [start_game] installs: built by the variant, READY, on the
    generated words, with nothing typed and the timer off. *)
Definition fresh_game (cls : GameClass) (words : list string) : BaseGame :=
  mk_BaseGame (DISPLAY_NAME cls) (GAME_DESCRIPTION cls) READY None words [] 0 0 0 0
              EmptyString EmptyString.

Section Lifecycle.
Context {R : Type}.

(** [restart_game]; [preferred] is the stored word count and [words] the
    content the variant generates for the new game. *)
Definition restart_game (keep_same_text : bool) (preferred : Z) (words : list string)
    (router : ApplicationRouter R) : bool * ApplicationRouter R :=
  let saved_words :=
    match current_game router with
    | Some game => if keep_same_text then Some (target_words game) else None
    | None => None
    end in
  let router := mk_router (history_repository router) None (selected_game_index router) in
  let '(ok, router) := start_game None preferred words router in
  if negb ok then (false, router)
  else
    match saved_words, current_game router with
    | Some (word :: rest), Some game =>
        (true,
         mk_router (history_repository router)
                   (Some (with_target_words game (word :: rest)))
                   (selected_game_index router))
    | _, _ => (true, router)
    end.

Definition is_game_active (router : ApplicationRouter R) : bool :=
  match current_game router with
  | Some game => negb (is_finished game)
  | None => false
  end.

Definition is_game_finished (router : ApplicationRouter R) : bool :=
  match current_game router with
  | Some game => is_finished game
  | None => false
  end.

End Lifecycle.

End router_lifecycle.

(** ** More sample data *)

Module more_samples.
Import base_game variants samples.

Definition two_words : list string := ["ab"; "cd"]%string.

(** A READY random-words game, before [start]. *)
Definition initialized : BaseGame :=
  (initialize RandomWordsGame 5 (construct RandomWordsGame)).2.

(** Two submissions, at clocks 1000 and 1004. *)
Definition two_clocks : list Q := [1000; 1004]%Q.

(** Keystrokes of the second word: a slip, its correction, the rest. *)
Definition second_word_keys : list (Q * string * bool) :=
  [(1005 : Q, "x", false); (1005 : Q, EmptyString, false); (1006 : Q, "c", false);
   (1007 : Q, "cd", true)]%string.

(** A record written by an earlier version: legacy keys, a naive time, and
    two keys that are not persisted fields. *)
Definition legacy_record : gmap string json :=
  list_to_map
    [ ("wpm"%string, JFloat 75);
      ("game"%string, JStr "Phrase Typing");
      ("date"%string, JStr "2026-01-15T12:00:00");
      ("is_new_record"%string, JBool true);
      ("previous_best"%string, JFloat 99) ].

(** A record with both the modern and the legacy keys. *)
Definition mixed_record : gmap string json :=
  list_to_map
    [ ("game_type"%string, JStr "Random Words");
      ("game"%string, JStr "Phrase Typing");
      ("timestamp"%string, JStr "2026-01-15T12:00:00+00:00");
      ("date"%string, JStr "2025-11-20T17:00:16") ].

(** A record with no known key. *)
Definition foreign_record : gmap string json :=
  list_to_map [ ("speed"%string, JInt 3) ].

Definition slow : game_result.GameResult := stored 50 "Random Words" noon_utc.
Definition fast : game_result.GameResult := stored 70 "Random Words" noon_utc.
Definition fast_again : game_result.GameResult := stored 70 "Phrase Typing" noon_utc.

Definition three_results : memory_history_repository.InMemoryHistoryRepository :=
  memory_history_repository.mk_repo [slow; fast; fast_again].

(** A constant clock for the loads. *)
Definition noon_clock (i : nat) : datetime := noon_utc.

(** A store opened on a missing file, with one result saved. *)
Definition one_saved : json_history_repository.JsonHistoryRepository :=
  json_history_repository.mk_repo
    (json_history_repository.JsonDoc
       (JDict {[ "history"%string
                 := JList [JDict (game_result.to_dict (H := iso_text.codec) slow)] ]}))
    None.

(** Routers over the in-memory store: on random words, on phrases, and one
    holding a game that was never typed into. *)
Definition phrase_router
  : application_router.ApplicationRouter
      memory_history_repository.InMemoryHistoryRepository :=
  application_router.mk_router memory_history_repository.init None 1.

Definition untouched_router
  : application_router.ApplicationRouter
      memory_history_repository.InMemoryHistoryRepository :=
  application_router.mk_router three_results (Some ready) 0.

Definition record_router
  : application_router.ApplicationRouter
      memory_history_repository.InMemoryHistoryRepository :=
  application_router.mk_router (memory_history_repository.mk_repo [])
                               (Some completed) 0.

End more_samples.

(** * Properties *)

(** ** Rounding *)

Section Rounding.
Import PyNum.

Lemma round_half_even_proper (x y : Q) :
  (x == y)%Q → round_half_even x = round_half_even y.
Proof.
  intros E. unfold round_half_even.
  rewrite (Qfloor_comp _ _ E).
  assert (C : (x - inject_Z (Qfloor y) ?= 1 # 2)%Q
              = (y - inject_Z (Qfloor y) ?= 1 # 2)%Q).
  { apply Qcompare_comp; [rewrite E|]; reflexivity. }
  rewrite C. reflexivity.
Qed.

Lemma round2_proper (x y : Q) : (x == y)%Q → round2 x = round2 y.
Proof.
  intros E. unfold round2. f_equal.
  apply round_half_even_proper. rewrite E. reflexivity.
Qed.

(** Rounding to the nearest integer stays between integer bounds. *)
Lemma round_half_even_between (a b : Z) (x : Q) :
  (inject_Z a <= x)%Q → (x <= inject_Z b)%Q →
  (a ≤ round_half_even x ≤ b)%Z.
Proof.
  intros Ha Hb.
  assert (Fa : (a ≤ Qfloor x)%Z).
  { rewrite <- (Qfloor_Z a). apply Qfloor_resp_le. exact Ha. }
  assert (Fb : (Qfloor x ≤ b)%Z).
  { rewrite <- (Qfloor_Z b). apply Qfloor_resp_le. exact Hb. }
  unfold round_half_even.
  destruct (Z.eq_dec (Qfloor x) b) as [E | NE].
  - assert (L : (x - inject_Z (Qfloor x) ?= 1 # 2)%Q = Lt).
    { rewrite <- Qlt_alt. rewrite E.
      apply Qle_lt_trans with (y := 0%Q); [|reflexivity].
      apply (Qplus_le_l _ _ (inject_Z b)). ring_simplify. exact Hb. }
    rewrite L. lia.
  - destruct (x - inject_Z (Qfloor x) ?= 1 # 2)%Q; [destruct (Z.even _)| |]; lia.
Qed.

Lemma round2_between_0_100 (x : Q) :
  (0 <= x)%Q → (x <= 100)%Q → (0 <= round2 x)%Q ∧ (round2 x <= 100)%Q.
Proof.
  intros H0 H1.
  destruct (round_half_even_between 0 10000 (x * 100)) as [L U].
  - change (inject_Z 0) with (0 * 100)%Q. apply Qmult_le_compat_r; [exact H0|discriminate].
  - change (inject_Z 10000) with (100 * 100)%Q.
    apply Qmult_le_compat_r; [exact H1|discriminate].
  - unfold round2, Qle; simpl. lia.
Qed.

Lemma round2_100 (x : Q) : (x == 100)%Q → (round2 x == 100)%Q.
Proof. intros E. rewrite (round2_proper _ _ E). reflexivity. Qed.

Lemma py_max_0 (x : Q) : (py_max x 0 == Qmax 0 x)%Q.
Proof.
  unfold py_max, Qltb.
  destruct (Qle_bool 0 x) eqn:E; simpl.
  - apply Qle_bool_iff in E. symmetry. apply Q.max_r. exact E.
  - assert (L : (x <= 0)%Q).
    { apply Qnot_lt_le. intros L. apply Qlt_le_weak in L.
      apply Qle_bool_iff in L. congruence. }
    symmetry. apply Q.max_l. exact L.
Qed.

Lemma py_min_min (a b : Z) : py_min a b = Z.min a b.
Proof. unfold py_min. destruct (Z.ltb_spec b a); lia. Qed.

End Rounding.

(** ** Metrics *)

Section Metrics.
Import PyNum stats_calculator.

Lemma sum_len_from (words : list string) (acc : Z) :
  fold_left (fun acc word => (acc + Z.of_nat (String.length word))%Z) words acc
  = (acc + Z.of_nat (sum_list (map String.length words)))%Z.
Proof.
  revert acc. induction words as [|w words IH]; intros acc; simpl.
  - lia.
  - rewrite IH. lia.
Qed.

Lemma sum_len_sum_list (words : list string) :
  sum_len words = Z.of_nat (sum_list (map String.length words)).
Proof. unfold sum_len. rewrite sum_len_from. lia. Qed.

Lemma get_in_range (w : string) (i : nat) :
  (i < String.length w)%nat → ∃ c, String.get i w = Some c.
Proof.
  revert i. induction w as [|a w IH]; intros i Hi; simpl in *; [lia|].
  destruct i as [|i]; [eauto|]. apply IH. lia.
Qed.

Lemma get_out_of_range (w : string) (i : nat) :
  (String.length w ≤ i)%nat → String.get i w = None.
Proof.
  revert i. induction w as [|a w IH]; intros i Hi; simpl in *; [reflexivity|].
  destruct i as [|i]; [lia|]. apply IH. lia.
Qed.

(** The padded character the source builds is the optional character at
    that position. *)
Lemma char_or_empty_get (w : string) (i : nat) :
  char_or_empty w i
  = match String.get i w with Some c => String c EmptyString | None => EmptyString end.
Proof.
  unfold char_or_empty. destruct (Nat.ltb_spec i (String.length w)) as [L | L].
  - reflexivity.
  - rewrite (get_out_of_range _ _ L). reflexivity.
Qed.

Lemma char_or_empty_eqb (typed target : string) (i : nat) :
  String.eqb (char_or_empty typed i) (char_or_empty target i)
  = bool_decide (String.get i typed = String.get i target).
Proof.
  rewrite !char_or_empty_get.
  destruct (String.get i typed) as [c|], (String.get i target) as [d|];
    case_bool_decide as E; try reflexivity; try congruence.
  - apply String.eqb_eq. congruence.
  - apply String.eqb_neq. congruence.
Qed.

Lemma compare_positions_count (typed target : string) (positions : list nat) (errors : Z) :
  fold_left (compare_position typed target) positions errors
  = (errors
     + Z.of_nat (length (filter (fun i => String.get i typed ≠ String.get i target)
                                positions)))%Z.
Proof.
  revert errors. induction positions as [|i positions IH]; intros errors; simpl.
  - lia.
  - rewrite IH. unfold compare_position. rewrite char_or_empty_eqb.
    rewrite filter_cons. case_bool_decide as E; case_decide as D; simpl; try lia.
    + congruence.
    + congruence.
Qed.

Lemma padded_pairs_filter (typed target : string) (positions : list nat) :
  length (filter (fun p : option ascii * option ascii => p.1 ≠ p.2)
                 (zip (map (fun i => String.get i typed) positions)
                      (map (fun i => String.get i target) positions)))
  = length (filter (fun i => String.get i typed ≠ String.get i target) positions).
Proof.
  induction positions as [|i positions IH]; simpl; [reflexivity|].
  rewrite !filter_cons. simpl.
  destruct (decide (String.get i typed ≠ String.get i target)); simpl; lia.
Qed.

Lemma compare_words_spec (typed target : string) (errors : Z) :
  compare_words errors (typed, target)
  = (errors + Z.of_nat (spec_pair_errors typed target))%Z.
Proof.
  unfold compare_words, spec_pair_errors, padded.
  rewrite compare_positions_count, padded_pairs_filter. reflexivity.
Qed.

Lemma zip_with_take_min {A B C} (f : A → B → C) (l : list A) (k : list B) :
  zip_with f (take (Nat.min (length l) (length k)) l)
             (take (Nat.min (length l) (length k)) k)
  = zip_with f l k.
Proof.
  revert k. induction l as [|a l IH]; intros [|b k]; simpl; try reflexivity.
  f_equal. apply IH.
Qed.

Lemma compare_all_words_from (typed target : list string) (errors : Z) :
  fold_left compare_words (zip typed target) errors
  = (errors + Z.of_nat (sum_list (zip_with spec_pair_errors typed target)))%Z.
Proof.
  revert target errors.
  induction typed as [|t typed IH]; intros [|g target] errors;
    cbn [zip_with fold_left sum_list sum_list_with]; try lia.
  rewrite IH, compare_words_spec. unfold id. lia.
Qed.

Lemma uncorrected_errors_spec (typed target : list string) :
  fold_left compare_words (zip typed target) 0%Z
  = Z.of_nat (spec_uncorrected_errors typed target).
Proof.
  rewrite compare_all_words_from. unfold spec_uncorrected_errors.
  rewrite zip_with_take_min. lia.
Qed.

Lemma total_chars_spec (typed : list string) :
  (if (1 <? length typed)%nat
   then (sum_len typed + (Z.of_nat (length typed) - 1))%Z
   else sum_len typed)
  = Z.of_nat (spec_total_chars typed).
Proof.
  unfold spec_total_chars. rewrite sum_len_sum_list.
  destruct (Nat.ltb_spec 1 (length typed)); case_decide; lia.
Qed.

(** In exact arithmetic [calculate_wpm] is the specification's net WPM:
    0 when the elapsed time is falsy, otherwise
    max(0, ((total_chars - uncorrected_errors) / 5) / (elapsed / 60))
    rounded to two decimals, where total_chars adds one separator per
    adjacent pair of typed tokens to their lengths and uncorrected_errors
    counts the differing positions of the padded token pairs up to the
    shorter list. *)
Lemma calculate_wpm_is_spec_wpm (typed target : list string) (elapsed_seconds : Q) :
  calculate_wpm typed target elapsed_seconds = spec_wpm typed target elapsed_seconds.
Proof.
  unfold calculate_wpm, spec_wpm.
  destruct (float_falsy elapsed_seconds); [reflexivity|].
  rewrite uncorrected_errors_spec, total_chars_spec.
  apply round2_proper. rewrite py_max_0. reflexivity.
Qed.

Lemma accuracy_ratio_bounds (total typos : Z) :
  (0 < total)%Z → (0 ≤ typos)%Z →
  (0 <= int_div (total - Z.min typos total) total * 100)%Q
  ∧ (int_div (total - Z.min typos total) total * 100 <= 100)%Q.
Proof.
  intros Ht Hk. unfold int_div.
  assert (P : (0 < inject_Z total)%Q).
  { change (inject_Z 0 < inject_Z total)%Q. rewrite <- Zlt_Qlt. exact Ht. }
  split.
  - apply Qmult_le_0_compat; [|discriminate].
    apply Qle_shift_div_l; [exact P|]. rewrite Qmult_0_l.
    change (inject_Z 0 <= inject_Z (total - Z.min typos total))%Q.
    rewrite <- Zle_Qle. lia.
  - change (100 : Q) with (1 * 100)%Q at 2.
    apply Qmult_le_compat_r; [|discriminate].
    apply Qle_shift_div_r; [exact P|]. rewrite Qmult_1_l.
    rewrite <- Zle_Qle. lia.
Qed.

(** In exact arithmetic [calculate_accuracy] is the specification's
    formula 100 * (total - min(typo_count, total)) / total rounded to two
    decimals, and 0 when either list is empty or nothing was typed; for a
    non-negative typo count it lies in [0, 100], and with no typo it is
    100 as soon as the formula applies. *)
Lemma calculate_accuracy_is_spec_accuracy
    (typed target : list string) (typo_count : Z) :
  calculate_accuracy typed target typo_count = spec_accuracy typed target typo_count
  ∧ calculate_accuracy [] target typo_count = 0%Q
  ∧ calculate_accuracy typed [] typo_count = 0%Q
  ∧ ((0 ≤ typo_count)%Z →
     (0 <= calculate_accuracy typed target typo_count)%Q
     ∧ (calculate_accuracy typed target typo_count <= 100)%Q)
  ∧ (typo_count = 0%Z → typed ≠ [] → target ≠ [] →
     sum_list (map String.length typed) ≠ 0%nat →
     (calculate_accuracy typed target typo_count == 100)%Q).
Proof.
  assert (E : calculate_accuracy typed target typo_count
              = if bool_decide (typed = []) || bool_decide (target = [])
                   || (sum_len typed =? 0)%Z
                then 0%Q
                else round2 (int_div (sum_len typed - Z.min typo_count (sum_len typed))
                                     (sum_len typed) * 100)).
  { unfold calculate_accuracy.
    destruct typed as [|t typed], target as [|g target]; try reflexivity.
    rewrite py_min_min. reflexivity. }
  assert (Nonneg : (0 ≤ sum_len typed)%Z) by (rewrite sum_len_sum_list; lia).
  split; [|split; [|split; [|split]]].
  - rewrite E. unfold spec_accuracy. rewrite <- sum_len_sum_list.
    destruct (bool_decide (typed = []) || bool_decide (target = [])
              || (sum_len typed =? 0)%Z) eqn:B; [reflexivity|].
    apply round2_proper. unfold int_div.
    apply orb_false_iff in B as [_ B]. apply Z.eqb_neq in B.
    field. intros Z0. apply B.
    apply (inject_Z_injective (sum_len typed) 0). exact Z0.
  - reflexivity.
  - destruct typed; reflexivity.
  - intros Hk. rewrite E.
    destruct (bool_decide (typed = []) || bool_decide (target = [])
              || (sum_len typed =? 0)%Z) eqn:B.
    + split; discriminate.
    + apply orb_false_iff in B as [_ B]. apply Z.eqb_neq in B.
      destruct (accuracy_ratio_bounds (sum_len typed) typo_count) as [L U];
        [lia | exact Hk |].
      apply round2_between_0_100; assumption.
  - intros -> Ht Hg Hs. rewrite E.
    rewrite !bool_decide_eq_false_2 by assumption. simpl.
    assert (Pos : (0 < sum_len typed)%Z) by (rewrite sum_len_sum_list; lia).
    destruct (Z.eqb_spec (sum_len typed) 0) as [Z0 | _]; [lia|].
    apply round2_100. rewrite Z.min_l by lia. unfold int_div.
    rewrite Z.sub_0_r. field. intros Z0.
    apply (inject_Z_injective (sum_len typed) 0) in Z0. lia.
Qed.

End Metrics.

(** ** The typing session *)

Section Session.
Import PyNum stats_calculator base_game variants session.

Lemma length_extend_to (n : nat) (words : list string) :
  length (extend_to n words) = Nat.max n (length words).
Proof. unfold extend_to. rewrite length_app, length_replicate. lia. Qed.

(** What the timer trigger touches: the status and the start time only. *)
Lemma start_timer_frame (now : Q) (text : string) (g : BaseGame) :
  let g1 := start_timer now text g in
  name g1 = name g ∧ description g1 = description g ∧ result g1 = result g
  ∧ target_words g1 = target_words g ∧ typed_words g1 = typed_words g
  ∧ current_word_index g1 = current_word_index g ∧ end_time g1 = end_time g
  ∧ error_count g1 = error_count g ∧ current_input g1 = current_input g
  ∧ previous_input g1 = previous_input g.
Proof.
  unfold start_timer.
  destruct (float_falsy (start_time g) && negb (String.eqb text EmptyString));
    simpl; repeat split; reflexivity.
Qed.

Lemma start_timer_keeps_active (now : Q) (text : string) (g : BaseGame) :
  status g = ACTIVE → status (start_timer now text g) = ACTIVE.
Proof.
  intros A. unfold start_timer.
  destruct (float_falsy (start_time g) && negb (String.eqb text EmptyString));
    [reflexivity | exact A].
Qed.

(** Unless it fires, the trigger is the identity. *)
Lemma start_timer_idle (now : Q) (text : string) (g : BaseGame) :
  float_falsy (start_time g) = false ∨ text = EmptyString →
  start_timer now text g = g.
Proof.
  intros [F | ->]; unfold start_timer.
  - rewrite F. reflexivity.
  - rewrite andb_false_r. reflexivity.
Qed.

Lemma process_input_active (now : Q) (text : string) (is_complete : bool) (g : BaseGame) :
  status (start_timer now text g) = ACTIVE →
  process_input now text is_complete g
  = if is_complete
    then _process_complete_word text (start_timer now text g)
    else _process_partial_input text (start_timer now text g).
Proof.
  intros A. unfold process_input. rewrite A.
  rewrite bool_decide_eq_true_2 by reflexivity. reflexivity.
Qed.

Lemma process_input_inactive (now : Q) (text : string) (is_complete : bool) (g : BaseGame) :
  status (start_timer now text g) ≠ ACTIVE →
  process_input now text is_complete g = (Inactive, start_timer now text g).
Proof.
  intros A. unfold process_input.
  rewrite bool_decide_eq_false_2 by exact A. reflexivity.
Qed.

(** *** The cursor invariant *)

Lemma complete_word_within_cursor (word : string) (g : BaseGame) :
  typed_within_cursor g → typed_within_cursor (_process_complete_word word g).2.
Proof.
  unfold typed_within_cursor, _process_complete_word. intros I.
  destruct (length (target_words g) <=? current_word_index g)%nat eqn:E1; [exact I|].
  apply Nat.leb_gt in E1.
  destruct (length (target_words g) <=? S (current_word_index g))%nat eqn:E2; simpl.
  - rewrite length_extend_to, length_insert, length_extend_to.
    apply Nat.leb_le in E2. lia.
  - rewrite length_insert, length_extend_to. lia.
Qed.

Lemma partial_input_within_cursor (text : string) (g : BaseGame) :
  typed_within_cursor g → typed_within_cursor (_process_partial_input text g).2.
Proof.
  unfold typed_within_cursor, _process_partial_input. intros I. simpl.
  rewrite length_insert, length_extend_to. lia.
Qed.

Lemma process_input_within_cursor (now : Q) (text : string) (is_complete : bool)
    (g : BaseGame) :
  typed_within_cursor g → typed_within_cursor (process_input now text is_complete g).2.
Proof.
  intros I.
  assert (I1 : typed_within_cursor (start_timer now text g)).
  { destruct (start_timer_frame now text g) as (_ & _ & _ & _ & T & C & _).
    unfold typed_within_cursor. rewrite T, C. exact I. }
  destruct (decide (status (start_timer now text g) = ACTIVE)) as [A | A].
  - rewrite (process_input_active _ _ _ _ A). destruct is_complete.
    + apply complete_word_within_cursor, I1.
    + apply partial_input_within_cursor, I1.
  - rewrite (process_input_inactive _ _ _ _ A). exact I1.
Qed.

Lemma reachable_within_cursor (g : BaseGame) : reachable g → typed_within_cursor g.
Proof.
  induction 1 as [cls | cls wc g _ IH | words g _ IH | words saved g _ IH ok _
                  | now text c g _ IH | now stamp g _ IH | g _ IH].
  - unfold typed_within_cursor. simpl. lia.
  - unfold typed_within_cursor in *. unfold initialize.
    destruct cls; [destruct (_ && _)|]; simpl; exact IH.
  - unfold typed_within_cursor in *. unfold start.
    destruct (negb _); simpl; [exact IH | lia].
  - unfold typed_within_cursor in *. unfold start in *.
    destruct (negb _); simpl in *; [discriminate | lia].
  - apply process_input_within_cursor, IH.
  - exact IH.
  - exact IH.
Qed.

(** C2.  On an ACTIVE session, a complete submission before the end of the
    target is written verbatim at the cursor, the cursor advances by one
    and the partial-input trackers are reset; if the cursor thereby
    reaches the end the session is COMPLETED and, the session being one
    the program can build, [typed_words] is as long as [target_words];
    a complete submission with the cursor already at the end writes no
    slot and marks the session COMPLETED. *)
Theorem complete_word_commits (now : Q) (word : string) (g : BaseGame) :
  status g = ACTIVE →
  let g' := (process_input now word true g).2 in
  ((current_word_index g < length (target_words g))%nat →
     typed_words g' !! current_word_index g = Some word
     ∧ current_word_index g' = S (current_word_index g)
     ∧ current_input g' = EmptyString
     ∧ previous_input g' = EmptyString
     ∧ target_words g' = target_words g
     ∧ ((S (current_word_index g) < length (target_words g))%nat →
        status g' = ACTIVE)
     ∧ (S (current_word_index g) = length (target_words g) →
        status g' = COMPLETED
        ∧ (reachable g → length (typed_words g') = length (target_words g'))))
  ∧ ((length (target_words g) ≤ current_word_index g)%nat →
     typed_words g' = typed_words g
     ∧ current_word_index g' = current_word_index g
     ∧ status g' = COMPLETED).
Proof.
  intros A g'. subst g'.
  pose proof (start_timer_keeps_active now word g A) as A1.
  destruct (start_timer_frame now word g) as (_ & _ & _ & Tg & Ty & Cu & _).
  rewrite (process_input_active _ _ _ _ A1).
  unfold _process_complete_word. rewrite Tg, Ty, Cu.
  split.
  - intros Lt.
    destruct (Nat.leb_spec (length (target_words g)) (current_word_index g)) as [L|_];
      [lia|].
    assert (In : (current_word_index g
                  < length (extend_to (S (current_word_index g)) (typed_words g)))%nat).
    { rewrite length_extend_to. lia. }
    destruct (Nat.leb_spec (length (target_words g)) (S (current_word_index g)))
      as [L2|L2]; simpl.
    + repeat split.
      * unfold extend_to at 1. rewrite lookup_app_l by (rewrite length_insert; exact In).
        apply list_lookup_insert_eq, In.
      * intros Lt2. lia.
      * intros R. apply reachable_within_cursor in R. unfold typed_within_cursor in R.
        rewrite length_extend_to, length_insert, length_extend_to. lia.
    + repeat split.
      * apply list_lookup_insert_eq, In.
      * intros _. exact A1.
      * lia.
      * lia.
  - intros Ge.
    destruct (Nat.leb_spec (length (target_words g)) (current_word_index g)) as [_|L];
      [|lia].
    simpl. rewrite Ty, Cu. repeat split.
Qed.

(** *** The error counter *)

Lemma counts_as_error_with_target (g : BaseGame) (text target_word : string) :
  target_words g !! current_word_index g = Some target_word →
  counts_as_error g text
  = negb (String.eqb text EmptyString)
    && (String.length (previous_input g) <? String.length text)%nat
    && negb (String.prefix text target_word).
Proof. intros T. unfold counts_as_error. rewrite T. reflexivity. Qed.

Lemma counts_as_error_longer (g : BaseGame) (text : string) :
  counts_as_error g text = true →
  (String.length (previous_input g) < String.length text)%nat.
Proof.
  unfold counts_as_error. destruct (target_words g !! current_word_index g); [|discriminate].
  intros H. apply andb_true_iff in H as [H _]. apply andb_true_iff in H as [_ H].
  apply Nat.ltb_lt. exact H.
Qed.

Lemma process_input_error_count (now : Q) (text : string) (is_complete : bool)
    (g : BaseGame) :
  error_count (process_input now text is_complete g).2
  = if bool_decide (status (start_timer now text g) = ACTIVE) && negb is_complete
       && counts_as_error (start_timer now text g) text
    then (error_count g + 1)%Z else error_count g.
Proof.
  destruct (start_timer_frame now text g) as (_ & _ & _ & _ & _ & _ & _ & Ec & _).
  unfold process_input.
  case_bool_decide as A; simpl; [|exact Ec].
  destruct is_complete; simpl.
  - unfold _process_complete_word.
    destruct (_ <=? _)%nat; [|destruct (_ <=? _)%nat]; simpl; exact Ec.
  - rewrite Ec. reflexivity.
Qed.

Lemma process_input_error_count_le (now : Q) (text : string) (is_complete : bool)
    (g : BaseGame) :
  (error_count g ≤ error_count (process_input now text is_complete g).2)%Z.
Proof. rewrite process_input_error_count. destruct (_ && _); lia. Qed.

Lemma feed_error_count_le (calls : list (Q * string * bool)) (g : BaseGame) :
  (error_count g ≤ error_count (feed calls g))%Z.
Proof.
  revert g. induction calls as [|[[now text] c] calls IH]; intros g.
  - simpl. lia.
  - unfold feed in *. simpl.
    etransitivity; [apply (process_input_error_count_le now text c)|apply IH].
Qed.

(** C3.  Over any run of [process_input] calls the error counter never
    decreases.  A partial-input call that the session processes, with a
    current target token, adds exactly one when the new input is not
    empty, is strictly longer than the preceding partial input of the
    token and is not a prefix of the token, and adds nothing otherwise;
    an input no longer than the preceding one never changes the counter.
    The preceding input is the text of the last partial call of the
    token, and is empty after a committed word. *)
Theorem error_count_forward_only (now : Q) (text : string) (is_complete : bool)
    (g : BaseGame) :
  let g' := (process_input now text is_complete g).2 in
  (error_count g ≤ error_count g')%Z
  ∧ (∀ calls, (error_count g ≤ error_count (feed calls g))%Z)
  ∧ (∀ target_word,
       is_complete = false →
       (process_input now text is_complete g).1 ≠ Inactive →
       target_words g !! current_word_index g = Some target_word →
       (error_count g' = (error_count g + 1)%Z
        ↔ text ≠ EmptyString
          ∧ (String.length (previous_input g) < String.length text)%nat
          ∧ String.prefix text target_word = false)
       ∧ (error_count g' = error_count g ∨ error_count g' = (error_count g + 1)%Z)
       ∧ previous_input g' = text)
  ∧ ((String.length text ≤ String.length (previous_input g))%nat →
     error_count g' = error_count g)
  ∧ (is_complete = true →
     (process_input now text is_complete g).1 ≠ Inactive →
     (current_word_index g < length (target_words g))%nat →
     previous_input g' = EmptyString).
Proof.
  intros g'. subst g'.
  destruct (start_timer_frame now text g)
    as (_ & _ & _ & Tg & Ty & Cu & _ & Ec & _ & Pi).
  split; [apply process_input_error_count_le|].
  split; [intros calls; apply feed_error_count_le|].
  split; [|split].
  - intros target_word -> Act T.
    assert (A : status (start_timer now text g) = ACTIVE).
    { destruct (decide (status (start_timer now text g) = ACTIVE)) as [A|A]; [exact A|].
      rewrite (process_input_inactive _ _ _ _ A) in Act. contradiction. }
    rewrite process_input_error_count, A.
    rewrite bool_decide_eq_true_2 by reflexivity. simpl.
    rewrite (counts_as_error_with_target _ text target_word) by (rewrite Tg, Cu; exact T).
    rewrite Pi.
    split; [|split].
    + destruct (String.eqb_spec text EmptyString) as [E|E]; simpl.
      * split; [lia | intros [N _]; contradiction].
      * destruct (Nat.ltb_spec (String.length (previous_input g)) (String.length text))
          as [L|L]; simpl.
        -- destruct (String.prefix text target_word); simpl.
           ++ split; [lia | intros (_ & _ & F); discriminate].
           ++ split; [intros _; repeat split; assumption | reflexivity].
        -- split; [lia | intros (_ & L2 & _); lia].
    + destruct (_ && _); [right | left]; reflexivity.
    + rewrite (process_input_active _ _ _ _ A). reflexivity.
  - intros Le. rewrite process_input_error_count.
    destruct (counts_as_error (start_timer now text g) text) eqn:C.
    + apply counts_as_error_longer in C. rewrite Pi in C. lia.
    + rewrite andb_false_r. reflexivity.
  - intros -> Act Lt.
    assert (A : status (start_timer now text g) = ACTIVE).
    { destruct (decide (status (start_timer now text g) = ACTIVE)) as [A|A]; [exact A|].
      rewrite (process_input_inactive _ _ _ _ A) in Act. contradiction. }
    rewrite (process_input_active _ _ _ _ A). unfold _process_complete_word.
    rewrite Tg, Cu.
    destruct (Nat.leb_spec (length (target_words g)) (current_word_index g)); [lia|].
    destruct (_ <=? _)%nat; reflexivity.
Qed.

(** *** Finishing *)

Lemma finish_same_clock (now : Q) (stamp : datetime) (g : BaseGame) :
  finish now stamp (finish now stamp g).2 = finish now stamp g.
Proof. reflexivity. Qed.

(** C5 (amended).  A second [finish] on the same session returns a Result
    with the same accuracy, game type, character counts and error count,
    and leaves the target, the typed words, the cursor, the start time and
    the error counter as they were; duration, wpm and timestamp are
    computed again from the clock readings of the second call, so the two
    Results are equal when both calls read the same clock. *)
Theorem finish_twice (now1 now2 : Q) (stamp1 stamp2 : datetime) (g : BaseGame) :
  let first := finish now1 stamp1 g in
  let second := finish now2 stamp2 first.2 in
  game_result.accuracy second.1 = game_result.accuracy first.1
  ∧ game_result.game_type second.1 = game_result.game_type first.1
  ∧ game_result.total_characters second.1 = game_result.total_characters first.1
  ∧ game_result.correct_characters second.1 = game_result.correct_characters first.1
  ∧ game_result.error_count second.1 = game_result.error_count first.1
  ∧ game_result.duration second.1
    = (if Qltb 0 (start_time g) then (now2 - start_time g)%Q else 0%Q)
  ∧ game_result.wpm second.1
    = calculate_wpm (take (current_word_index g) (typed_words g))
                    (take (current_word_index g) (target_words g))
                    (game_result.duration second.1)
  ∧ game_result.timestamp second.1 = stamp2
  ∧ status second.2 = COMPLETED
  ∧ status first.2 = COMPLETED
  ∧ target_words second.2 = target_words g
  ∧ typed_words second.2 = typed_words g
  ∧ current_word_index second.2 = current_word_index g
  ∧ start_time second.2 = start_time g
  ∧ error_count second.2 = error_count g
  ∧ finish now1 stamp1 first.2 = first.
Proof. simpl. repeat split. Qed.

(** *** Input to a session that is not active *)

Lemma feed_fixed (calls : list (Q * string * bool)) (g : BaseGame) :
  (∀ now text c, process_input now text c g = (Inactive, g)) →
  feed calls g = g.
Proof.
  intros Fix. induction calls as [|[[now text] c] calls IH]; [reflexivity|].
  unfold feed in *. simpl. rewrite Fix. simpl. exact IH.
Qed.

(** Where the guard on the status holds.  A call to [process_input] on a
    session that is not ACTIVE, other than a call with non-empty text
    while the timer has not started, answers "inactive" and changes no
    field; in particular a session whose timer has started and which is
    not ACTIVE, a COMPLETED or CANCELLED one among them, stays as it is
    under any further input. *)
Lemma inactive_input_changes_nothing (now : Q) (text : string) (is_complete : bool)
    (g : BaseGame) :
  status g ≠ ACTIVE →
  float_falsy (start_time g) = false ∨ text = EmptyString →
  process_input now text is_complete g = (Inactive, g)
  ∧ response_status (process_input now text is_complete g).1 = "inactive"%string
  ∧ (float_falsy (start_time g) = false →
     ∀ calls, feed calls g = g ∧ status (feed calls g) ≠ ACTIVE).
Proof.
  intros NA Idle.
  assert (P : ∀ now text c,
             float_falsy (start_time g) = false ∨ text = EmptyString →
             process_input now text c g = (Inactive, g)).
  { intros now' text' c' Idle'.
    rewrite process_input_inactive; rewrite (start_timer_idle _ _ _ Idle');
      [reflexivity | exact NA]. }
  split; [apply P, Idle|].
  split; [rewrite (P _ _ _ Idle); reflexivity|].
  intros Started calls.
  assert (F : feed calls g = g).
  { apply feed_fixed. intros now' text' c'. apply P. left. exact Started. }
  rewrite F. split; [reflexivity | exact NA].
Qed.

End Session.

(** ** Serialised results *)

Section Serialisation.
Context `{Iso8601}.
Import game_result.

Lemma to_dict_lookup (r : GameResult) :
  to_dict r !! "wpm"%string = Some (JFloat (wpm r))
  ∧ to_dict r !! "accuracy"%string = Some (JFloat (accuracy r))
  ∧ to_dict r !! "duration"%string = Some (JFloat (duration r))
  ∧ to_dict r !! "game_type"%string = Some (JStr (game_type r))
  ∧ to_dict r !! "timestamp"%string = Some (JStr (isoformat (timestamp r)))
  ∧ to_dict r !! "total_characters"%string = Some (JInt (total_characters r))
  ∧ to_dict r !! "correct_characters"%string = Some (JInt (correct_characters r))
  ∧ to_dict r !! "error_count"%string = Some (JInt (error_count r))
  ∧ to_dict r !! "date"%string = None
  ∧ to_dict r !! "game"%string = None
  ∧ to_dict r !! "is_new_record"%string = None
  ∧ to_dict r !! "previous_best"%string = None.
Proof. unfold to_dict. cbn [list_to_map foldr]. repeat split; by simplify_map_eq. Qed.

(** What a reload of a serialised result yields, for every result. *)
Lemma from_dict_to_dict (now : datetime) (r : GameResult) :
  from_dict now (to_dict r)
  = (ts ←! reloaded_timestamp now (timestamp r);
     Ok (mk_GameResult (wpm r) (accuracy r) (duration r)
           (if String.eqb (game_type r) EmptyString then "Unknown"%string
            else game_type r)
           ts (total_characters r) (correct_characters r) (error_count r)
           false None)).
Proof.
  destruct (to_dict_lookup r)
    as (W & A & D & G & T & TC & CC & EC & Dt & Gm & _ & _).
  unfold from_dict, reloaded_timestamp, pydict.get, pydict.get_default, pydict.py_or.
  rewrite W, A, D, G, T, TC, CC, EC, Dt, Gm.
  cbn [from_option id pydict.truthy as_float as_int as_str bind].
  destruct (String.eqb (isoformat (timestamp r)) EmptyString) eqn:E1;
    destruct (String.eqb (game_type r) EmptyString) eqn:E2;
    repeat (cbn [negb pydict.truthy bind as_str]; rewrite ?E1, ?E2);
    try reflexivity;
    destruct (fromisoformat (isoformat (timestamp r))) as [ts|]; reflexivity.
Qed.

(** C7 (amended).  For a GameResult whose game type is not empty and whose
    timestamp is timezone-aware, and which the library's ISO text
    represents faithfully, [from_dict] after [to_dict] returns the same
    wpm, accuracy, duration, game type, timestamp and counts, with
    [is_new_record] false and [previous_best] absent; the dictionary has
    exactly the eight persisted keys, the two annotations not among
    them. *)
Theorem to_dict_from_dict_round_trip (now : datetime) (r : GameResult) :
  game_type r ≠ EmptyString →
  tzinfo (timestamp r) ≠ None →
  isoformat (timestamp r) ≠ EmptyString →
  fromisoformat (isoformat (timestamp r)) = Some (timestamp r) →
  from_dict now (to_dict r) = Ok (replace r false None)
  ∧ to_dict r !! "is_new_record"%string = None
  ∧ to_dict r !! "previous_best"%string = None
  ∧ dom (to_dict r)
    = list_to_set ["wpm"; "accuracy"; "duration"; "game_type"; "timestamp";
                   "total_characters"; "correct_characters"; "error_count"]%string.
Proof.
  intros G Tz Ne Rt.
  destruct (to_dict_lookup r) as (_ & _ & _ & _ & _ & _ & _ & _ & _ & _ & NR & PB).
  split; [|split; [exact NR|split; [exact PB|]]].
  - rewrite from_dict_to_dict. unfold reloaded_timestamp.
    apply String.eqb_neq in Ne, G. rewrite Ne, Rt, G. simpl.
    destruct (tzinfo (timestamp r)); [reflexivity | contradiction].
  - unfold to_dict. cbn [list_to_map foldr list_to_set].
    rewrite !dom_insert_L, dom_empty_L. reflexivity.
Qed.

End Serialisation.

(** ** The history store *)

Section BestResult.
Import PyNum game_result py_max_by_wpm.

Lemma Qltb_lt (x y : Q) : Qltb x y = true ↔ (x < y)%Q.
Proof.
  unfold Qltb. rewrite negb_true_iff, <- not_true_iff_false, Qle_bool_iff.
  split; [apply Qnot_le_lt | apply Qlt_not_le].
Qed.

Lemma Qltb_ge (x y : Q) : Qltb x y = false ↔ (y <= x)%Q.
Proof. unfold Qltb. rewrite negb_false_iff. apply Qle_bool_iff. Qed.

Lemma scan_spec (rest : list GameResult) (best : GameResult) :
  scan best rest ∈ best :: rest
  ∧ ∀ r, r ∈ best :: rest → (wpm r <= wpm (scan best rest))%Q.
Proof.
  revert best. induction rest as [|x rest IH]; intros best; simpl.
  - split; [left|]. intros r Hr. apply list_elem_of_singleton in Hr as ->. apply Qle_refl.
  - destruct (IH (if Qltb (wpm best) (wpm x) then x else best)) as [In Max].
    split.
    + destruct (Qltb (wpm best) (wpm x)).
      * right. exact In.
      * apply elem_of_cons in In as [-> | In]; [left | right; right; exact In].
    + intros r Hr.
      assert (Step : (wpm r <= wpm (if Qltb (wpm best) (wpm x) then x else best))%Q
                     ∨ r ∈ rest).
      { apply elem_of_cons in Hr as [-> | Hr].
        - left. destruct (Qltb (wpm best) (wpm x)) eqn:E.
          + apply Qlt_le_weak, Qltb_lt, E.
          + apply Qle_refl.
        - apply elem_of_cons in Hr as [-> | Hr]; [left | right; exact Hr].
          destruct (Qltb (wpm best) (wpm x)) eqn:E.
          + apply Qle_refl.
          + apply Qltb_ge, E. }
      destruct Step as [Le | Hr'].
      * eapply Qle_trans; [exact Le|]. apply Max. left.
      * apply Max. right. exact Hr'.
Qed.

(** [max_by_wpm] answers nothing exactly on the empty list, and otherwise
    a member whose wpm no member exceeds. *)
Lemma max_by_wpm_spec (results : list GameResult) :
  match max_by_wpm results with
  | None => results = []
  | Some best => best ∈ results ∧ ∀ r, r ∈ results → (wpm r <= wpm best)%Q
  end.
Proof. destruct results as [|r rest]; [reflexivity | apply scan_spec]. Qed.

End BestResult.

Section JsonStore.
Context `{Iso8601}.
Import game_result py_max_by_wpm json_history_repository.

Lemma load_empty_history (clock : nat → datetime) (f : file_content) :
  _load_data (mk_repo f None) = Ok empty_history →
  _load_results clock (mk_repo f None) = Ok ([], mk_repo f (Some [])).
Proof.
  intros E. unfold _load_results. simpl. rewrite E.
  unfold empty_history, get_attr, pydict.get_default. simpl.
  rewrite lookup_singleton_eq. reflexivity.
Qed.

Lemma get_best_of_loaded (clock : nat → datetime) (repo repo' : JsonHistoryRepository)
    (results : list GameResult) :
  _load_results clock repo = Ok (results, repo') →
  json_get_best clock repo = Ok (max_by_wpm results, repo').
Proof. intros L. unfold json_get_best. rewrite L. reflexivity. Qed.

(** A JSON document of another shape is not an empty store: the load
    raises. *)
Lemma load_wrong_shape_raises (clock : nat → datetime) :
  _load_results clock (init (JsonDoc (JList []))) = Raise AttributeError
  ∧ _load_results clock (init (JsonDoc (JDict {[ "history"%string := JInt 5 ]})))
    = Raise TypeError.
Proof.
  split; [reflexivity|].
  unfold _load_results, init, _load_data, get_attr, pydict.get_default. simpl.
  rewrite lookup_singleton_eq. reflexivity.
Qed.

(** The corruption the load does absorb.  A store opened on a missing
    file, or reading a missing file or text that is not JSON, loads as the
    empty list of results and raises nothing; [get_best] answers [None]
    when the loaded store holds no result and otherwise one of its results
    whose wpm none of them exceeds. *)
Lemma corrupt_store_is_empty_and_best_is_max (clock : nat → datetime) :
  _load_results clock (init FileMissing)
    = Ok ([], mk_repo (JsonDoc empty_history) (Some []))
  ∧ _load_results clock (init NotJson) = Ok ([], mk_repo NotJson (Some []))
  ∧ _load_results clock (mk_repo FileMissing None)
    = Ok ([], mk_repo FileMissing (Some []))
  ∧ json_get_best clock (init FileMissing)
    = Ok (None, mk_repo (JsonDoc empty_history) (Some []))
  ∧ json_get_best clock (init NotJson) = Ok (None, mk_repo NotJson (Some []))
  ∧ json_get_best clock (mk_repo FileMissing None)
    = Ok (None, mk_repo FileMissing (Some []))
  ∧ ∀ repo : JsonHistoryRepository,
      match _load_results clock repo with
      | Raise e => json_get_best clock repo = Raise e
      | Ok (results, repo') =>
          match max_by_wpm results with
          | None =>
              results = [] ∧ json_get_best clock repo = Ok (None, repo')
          | Some best =>
              json_get_best clock repo = Ok (Some best, repo')
              ∧ best ∈ results
              ∧ ∀ r, r ∈ results → (wpm r <= wpm best)%Q
          end
      end.
Proof.
  assert (L1 := load_empty_history clock (JsonDoc empty_history) eq_refl).
  assert (L2 := load_empty_history clock NotJson eq_refl).
  assert (L3 := load_empty_history clock FileMissing eq_refl).
  split; [exact L1|]. split; [exact L2|]. split; [exact L3|].
  split; [exact (get_best_of_loaded _ _ _ _ L1)|].
  split; [exact (get_best_of_loaded _ _ _ _ L2)|].
  split; [exact (get_best_of_loaded _ _ _ _ L3)|].
  intros repo.
  destruct (_load_results clock repo) as [[results repo']|e] eqn:L.
  - rewrite (get_best_of_loaded _ _ _ _ L).
    pose proof (max_by_wpm_spec results) as M.
    destruct (max_by_wpm results) as [best|].
    + destruct M as [In Max]. repeat split; assumption.
    + split; [exact M | reflexivity].
  - unfold json_get_best. rewrite L. reflexivity.
Qed.

(** C8.  The corruption the load does not absorb: a backing file whose
    bytes are not UTF-8, a file closed to reading, and a JSON document
    that is not an object with a list under [history] make the load, and
    with it [get_best], raise instead of answering with the empty
    store. *)
Theorem corrupt_store_raises (clock : nat → datetime) :
  (_load_results clock (init NotUtf8) = Raise UnicodeDecodeError
   ∧ json_get_best clock (init NotUtf8) = Raise UnicodeDecodeError)
  ∧ (_load_results clock (init (JsonDoc (JList []))) = Raise AttributeError
     ∧ json_get_best clock (init (JsonDoc (JList []))) = Raise AttributeError)
  ∧ (_load_results clock (init (JsonDoc (JDict {[ "history"%string := JInt 5 ]})))
       = Raise TypeError
     ∧ json_get_best clock (init (JsonDoc (JDict {[ "history"%string := JInt 5 ]})))
       = Raise TypeError)
  ∧ (_load_results clock (init Unreadable) = Raise PermissionError
     ∧ json_get_best clock (init Unreadable) = Raise PermissionError).
Proof.
  assert (W : _load_results clock
                (init (JsonDoc (JDict {[ "history"%string := JInt 5 ]})))
              = Raise TypeError).
  { unfold _load_results, init, _load_data, get_attr, pydict.get_default. simpl.
    rewrite lookup_singleton_eq. reflexivity. }
  split; [split; reflexivity|]. split; [split; reflexivity|].
  split; [|split; reflexivity].
  split; [exact W|]. unfold json_get_best. rewrite W. reflexivity.
Qed.

End JsonStore.

Section MemoryStore.
Import game_result py_max_by_wpm memory_history_repository.

(** The in-memory store answers in the same way. *)
Lemma memory_get_best_spec (repo : InMemoryHistoryRepository) :
  match max_by_wpm (_results repo) with
  | None => _results repo = [] ∧ get_best repo = Ok (None, repo)
  | Some best =>
      get_best repo = Ok (Some best, repo)
      ∧ best ∈ _results repo
      ∧ ∀ r, r ∈ _results repo → (wpm r <= wpm best)%Q
  end.
Proof.
  pose proof (max_by_wpm_spec (_results repo)) as M.
  simpl. unfold mem_get_best.
  destruct (max_by_wpm _) as [best|].
  - destruct M. repeat split; assumption.
  - split; [exact M | reflexivity].
Qed.

End MemoryStore.

(** ** The router *)

Section RouterFacts.
Context {R : Type} `{HistoryRepository R}.
Import PyNum base_game application_router.


(** *** The selected game *)

Lemma in_range_spec (index : Z) :
  in_range index = true ↔ (0 ≤ index < Z.of_nat (length AVAILABLE_GAMES))%Z.
Proof. unfold in_range. rewrite andb_true_iff, Z.leb_le, Z.ltb_lt. reflexivity. Qed.

Lemma select_game_in_range (index : Z) (router : ApplicationRouter R) :
  index_in_range router → index_in_range (select_game index router).2.
Proof.
  intros I. unfold select_game. destruct (in_range index) eqn:E; [|exact I].
  apply in_range_spec in E. exact E.
Qed.

Lemma navigate_in_range (direction : Z) (router : ApplicationRouter R) :
  index_in_range (navigate_game_selection direction router).
Proof. unfold index_in_range. simpl. apply Z.mod_pos_bound. reflexivity. Qed.

Lemma apply_op_in_range (op : selection_op) (router : ApplicationRouter R) :
  index_in_range router → index_in_range (apply_op router op).
Proof.
  intros I. destruct op as [index | direction |]; simpl.
  - apply select_game_in_range, I.
  - apply navigate_in_range.
  - unfold index_in_range. simpl. lia.
Qed.

Lemma run_ops_in_range (ops : list selection_op) (router : ApplicationRouter R) :
  index_in_range router → index_in_range (run_ops ops router).
Proof.
  revert router. induction ops as [|op ops IH]; intros router I; [exact I|].
  unfold run_ops in *. simpl. apply IH, apply_op_in_range, I.
Qed.

(** C10.  The selected index of a new router is in range, and from an
    in-range index: [select_game] with an index outside the catalogue
    answers false and changes nothing, and with one inside selects it;
    [navigate_game_selection] with any integer moves to
    (index + delta) mod size, which is in range; [return_to_main_menu]
    selects 0; and every sequence of these operations ends in range. *)
Theorem selected_index_stays_in_range (router : ApplicationRouter R) :
  index_in_range router →
  (∀ repo : R, index_in_range (new_router repo))
  ∧ (∀ index,
       index_in_range (select_game index router).2
       ∧ (¬ (0 ≤ index < Z.of_nat (length AVAILABLE_GAMES))%Z →
          select_game index router = (false, router))
       ∧ ((0 ≤ index < Z.of_nat (length AVAILABLE_GAMES))%Z →
          (select_game index router).1 = true
          ∧ selected_game_index (select_game index router).2 = index))
  ∧ (∀ direction,
       index_in_range (navigate_game_selection direction router)
       ∧ selected_game_index (navigate_game_selection direction router)
         = ((selected_game_index router + direction)
            mod Z.of_nat (length AVAILABLE_GAMES))%Z)
  ∧ selected_game_index (return_to_main_menu router) = 0%Z
  ∧ index_in_range (return_to_main_menu router)
  ∧ (∀ ops, index_in_range (run_ops ops router))
  ∧ (∀ (repo : R) ops, index_in_range (run_ops ops (new_router repo))).
Proof.
  intros I.
  split; [intros repo; unfold index_in_range; simpl; lia|].
  split.
  { intros index. split; [apply select_game_in_range, I|]. split.
    - intros Out. unfold select_game.
      destruct (in_range index) eqn:E; [|reflexivity].
      apply in_range_spec in E. contradiction.
    - intros In. apply in_range_spec in In. unfold select_game. rewrite In.
      split; reflexivity. }
  split; [intros direction; split; [apply navigate_in_range | reflexivity]|].
  split; [reflexivity|].
  split; [unfold index_in_range; simpl; lia|].
  split; [intros ops; apply run_ops_in_range, I|].
  intros repo ops. apply run_ops_in_range. unfold index_in_range. simpl. lia.
Qed.

End RouterFacts.

(** * The properties on data *)

Section Runs.
Import PyNum stats_calculator base_game variants session samples.
Import memory_history_repository.

Example wpm_of_two_words :
  calculate_wpm ["ab"; "cd"]%string ["ab"; "cx"; "zz"]%string 7 = (686 # 100)%Q.
Proof. reflexivity. Qed.

Example wpm_without_time :
  calculate_wpm ["ab"; "cd"]%string ["ab"; "cd"]%string 0 = 0%Q.
Proof. reflexivity. Qed.

Example accuracy_with_one_typo :
  calculate_accuracy ["ab"; "cd"]%string ["ab"; "cd"]%string 1 = (7500 # 100)%Q.
Proof. reflexivity. Qed.

Lemma ready_reachable : reachable ready.
Proof. unfold ready. apply reach_start, reach_initialize, reach_construct. Qed.

Lemma typing_reachable : reachable typing.
Proof. unfold typing. apply reach_process_input, ready_reachable. Qed.

Lemma second_word_reachable : reachable second_word.
Proof. unfold second_word. apply reach_process_input, typing_reachable. Qed.

Lemma completed_reachable : reachable completed.
Proof. unfold completed. apply reach_process_input, second_word_reachable. Qed.

Lemma no_words_reachable : reachable no_words.
Proof.
  unfold no_words.
  apply reach_process_input, reach_start, reach_initialize, reach_construct.
Qed.

Lemma cancelled_early_reachable : reachable cancelled_early.
Proof. unfold cancelled_early. apply reach_cancel, ready_reachable. Qed.

(** The idealised accuracy of the words [ab], [cd] typed without a typo. *)
Lemma calculate_accuracy_witness :
  (0 ≤ 0)%Z
  ∧ (0 <= calculate_accuracy ["ab"; "cd"]%string ["ab"; "cd"]%string 0)%Q
  ∧ (calculate_accuracy ["ab"; "cd"]%string ["ab"; "cd"]%string 0 <= 100)%Q
  ∧ (calculate_accuracy ["ab"; "cd"]%string ["ab"; "cd"]%string 0 == 100)%Q.
Proof.
  destruct (calculate_accuracy_is_spec_accuracy
              ["ab"; "cd"]%string ["ab"; "cd"]%string 0)
    as (_ & _ & _ & Bounds & Full).
  split; [lia|].
  destruct (Bounds ltac:(lia)) as [L U].
  split; [exact L|]. split; [exact U|].
  apply Full; [reflexivity | discriminate | discriminate | simpl; lia].
Defined.

(** C2 on the first word, on the last word, and on a session whose cursor
    is already at the end. *)
Lemma complete_word_witness :
  (status typing = ACTIVE ∧ reachable typing
   ∧ typed_words (process_input 1004 "ab" true typing).2 !! 0%nat = Some "ab"%string
   ∧ current_word_index (process_input 1004 "ab" true typing).2 = 1%nat
   ∧ status (process_input 1004 "ab" true typing).2 = ACTIVE)
  ∧ (status second_word = ACTIVE ∧ reachable second_word
     ∧ typed_words (process_input 1006 "cx" true second_word).2 !! 1%nat
       = Some "cx"%string
     ∧ status (process_input 1006 "cx" true second_word).2 = COMPLETED
     ∧ length (typed_words (process_input 1006 "cx" true second_word).2)
       = length (target_words (process_input 1006 "cx" true second_word).2))
  ∧ (status no_words = ACTIVE
     ∧ typed_words (process_input 1001 "a" true no_words).2 = typed_words no_words
     ∧ status (process_input 1001 "a" true no_words).2 = COMPLETED).
Proof.
  split; [|split].
  - destruct (complete_word_commits 1004 "ab" typing eq_refl) as [Before _].
    destruct (Before ltac:(simpl; lia)) as (W & C & _ & _ & _ & A & _).
    split; [reflexivity|]. split; [apply typing_reachable|].
    split; [exact W|]. split; [exact C|]. apply A. simpl. lia.
  - destruct (complete_word_commits 1006 "cx" second_word eq_refl) as [Before _].
    destruct (Before ltac:(simpl; lia)) as (W & _ & _ & _ & _ & _ & End).
    destruct (End eq_refl) as [Done Len].
    split; [reflexivity|]. split; [apply second_word_reachable|].
    split; [exact W|]. split; [exact Done|]. apply Len, second_word_reachable.
  - destruct (complete_word_commits 1001 "a" no_words eq_refl) as [_ AtEnd].
    destruct (AtEnd ltac:(simpl; lia)) as (T & _ & Done).
    split; [reflexivity|]. split; [exact T | exact Done].
Defined.

(** C3 on a wrong keystroke, on a backspace and on a submitted word. *)
Lemma error_count_witness :
  (error_count (process_input 1001 "ax" false typing).2 = (error_count typing + 1)%Z
   ∧ previous_input (process_input 1001 "ax" false typing).2 = "ax"%string)
  ∧ error_count (process_input 1002 "a" false (process_input 1001 "ax" false typing).2).2
    = error_count (process_input 1001 "ax" false typing).2
  ∧ previous_input (process_input 1004 "ab" true typing).2 = EmptyString
  ∧ (error_count typing
     ≤ error_count (feed [(1001 : Q, "ax", false); (1002 : Q, "a", false)]%string
                         typing))%Z.
Proof.
  split; [|split; [|split]].
  - destruct (error_count_forward_only 1001 "ax" false typing)
      as (_ & _ & Exact & _).
    destruct (Exact "ab"%string eq_refl ltac:(discriminate) eq_refl)
      as (Iff & _ & Prev).
    split; [|exact Prev].
    apply Iff. split; [discriminate|]. split; [simpl; lia | reflexivity].
  - destruct (error_count_forward_only 1002 "a" false
                (process_input 1001 "ax" false typing).2)
      as (_ & _ & _ & Back & _).
    apply Back. simpl. lia.
  - destruct (error_count_forward_only 1004 "ab" true typing)
      as (_ & _ & _ & _ & Reset).
    apply Reset; [reflexivity | discriminate | simpl; lia].
  - destruct (error_count_forward_only 1001 "ax" false typing)
      as (_ & Mono & _).
    apply Mono.
Defined.

(** C5: the second [finish], ten seconds after the first, reports another
    duration. *)
Lemma second_finish_differs :
  status completed = COMPLETED
  ∧ (finish 1017 noon_utc (finish 1007 noon_utc completed).2).1
    ≠ (finish 1007 noon_utc completed).1.
Proof.
  split; [reflexivity|].
  intros E. apply (f_equal game_result.duration) in E.
  vm_compute in E. discriminate E.
Qed.

(** Input to the completed sample, whose timer has started. *)
Lemma inactive_input_witness :
  status completed ≠ ACTIVE
  ∧ float_falsy (start_time completed) = false
  ∧ process_input 1008 "x" false completed = (Inactive, completed)
  ∧ feed [(1008 : Q, "x", false); (1009 : Q, "xy", true)]%string completed = completed.
Proof.
  destruct (inactive_input_changes_nothing 1008 "x" false completed)
    as (Same & _ & Stays).
  - discriminate.
  - left. reflexivity.
  - split; [discriminate|]. split; [reflexivity|]. split; [exact Same|].
    apply (Stays eq_refl).
Defined.

(** C6.  Where the guard on the status is bypassed: a session cancelled
    before the first keystroke is in a terminal state with its timer not
    started, and the next non-empty input starts the timer, which sets
    the status to ACTIVE before the status is looked at; the input is
    then processed and the answer is not "inactive".  A session finished
    before the first keystroke is reopened in the same way. *)
Theorem cancelled_session_reactivated :
  reachable cancelled_early
  ∧ status cancelled_early = CANCELLED
  ∧ is_finished cancelled_early = true
  ∧ status (process_input 1000 "a" false cancelled_early).2 = ACTIVE
  ∧ (process_input 1000 "a" false cancelled_early).1 ≠ Inactive
  ∧ status (finish 1000 noon_utc ready).2 = COMPLETED
  ∧ status (process_input 1001 "a" false (finish 1000 noon_utc ready).2).2 = ACTIVE.
Proof.
  split; [apply cancelled_early_reachable|].
  split; [reflexivity|]. split; [reflexivity|]. split; [reflexivity|].
  split; [discriminate|]. split; reflexivity.
Qed.

(** C7 on a result stamped at noon UTC, with the text codec. *)
Lemma round_trip_witness :
  game_result.game_type annotated_result ≠ EmptyString
  ∧ tzinfo (game_result.timestamp annotated_result) ≠ None
  ∧ iso_text.parse (iso_text.render (game_result.timestamp annotated_result))
    = Some (game_result.timestamp annotated_result)
  ∧ game_result.from_dict (H := iso_text.codec) noon_naive
      (game_result.to_dict (H := iso_text.codec) annotated_result)
    = Ok (stored 82.5 "Phrase Typing" noon_utc).
Proof.
  assert (G : game_result.game_type annotated_result ≠ EmptyString) by discriminate.
  assert (Tz : tzinfo (game_result.timestamp annotated_result) ≠ None) by discriminate.
  assert (Ne : isoformat (Iso8601 := iso_text.codec)
                 (game_result.timestamp annotated_result)
               ≠ EmptyString) by (vm_compute; discriminate).
  assert (Rt : fromisoformat (Iso8601 := iso_text.codec)
                 (isoformat (Iso8601 := iso_text.codec)
                    (game_result.timestamp annotated_result))
               = Some (game_result.timestamp annotated_result))
    by (vm_compute; reflexivity).
  split; [exact G|]. split; [exact Tz|]. split; [exact Rt|].
  destruct (to_dict_from_dict_round_trip (H := iso_text.codec)
              noon_naive annotated_result G Tz Ne Rt) as [Round _].
  exact Round.
Defined.

(** C7: a result whose game type is the empty string reloads as
    "Unknown". *)
Lemma empty_game_type_reloads_as_unknown :
  game_result.from_dict (H := iso_text.codec) noon_naive
    (game_result.to_dict (H := iso_text.codec)
       (stored 82.5 EmptyString noon_utc))
  = Ok (stored 82.5 "Unknown" noon_utc)
  ∧ game_result.game_type (stored 82.5 "Unknown" noon_utc)
    ≠ game_result.game_type (stored 82.5 EmptyString noon_utc).
Proof.
  split; [|discriminate].
  rewrite from_dict_to_dict. vm_compute. reflexivity.
Qed.

(** A result with a naive timestamp reloads with the same wall clock in
    UTC. *)
Lemma naive_timestamp_reloads_as_utc :
  game_result.from_dict (H := iso_text.codec) noon_naive
    (game_result.to_dict (H := iso_text.codec)
       (stored 82.5 "Phrase Typing" noon_naive))
  = Ok (stored 82.5 "Phrase Typing" noon_utc).
Proof. rewrite from_dict_to_dict. vm_compute. reflexivity. Qed.


(** C10 on a new router over an empty in-memory store. *)
Lemma selected_index_witness :
  application_router.index_in_range fresh_router
  ∧ application_router.select_game 10 fresh_router = (false, fresh_router)
  ∧ application_router.selected_game_index
      (application_router.navigate_game_selection (-1) fresh_router) = 1%Z
  ∧ application_router.index_in_range
      (application_router.run_ops
         [application_router.Navigate (-3); application_router.SelectGame 7;
          application_router.SelectGame 1; application_router.Navigate 5;
          application_router.ReturnToMainMenu; application_router.Navigate (-1)]
         fresh_router).
Proof.
  assert (I : application_router.index_in_range fresh_router).
  { unfold application_router.index_in_range. simpl. lia. }
  destruct (selected_index_stays_in_range fresh_router I)
    as (_ & Select & Nav & _ & _ & Ops & _).
  split; [exact I|].
  split; [apply Select; simpl; lia|].
  split; [destruct (Nav (-1)%Z) as [_ E]; rewrite E; reflexivity|].
  apply Ops.
Defined.

End Runs.

(** * Further properties *)

(** ** Metrics *)

Section MoreMetrics.
Import PyNum stats_calculator.

Lemma round_half_even_near_floor (x : Q) :
  (Qfloor x ≤ round_half_even x ≤ Qfloor x + 1)%Z.
Proof.
  unfold round_half_even.
  destruct (x - inject_Z (Qfloor x) ?= 1 # 2)%Q; [destruct (Z.even _)| |]; lia.
Qed.

Lemma round_half_even_mono (x y : Q) :
  (x <= y)%Q → (round_half_even x ≤ round_half_even y)%Z.
Proof.
  intros Le. pose proof (Qfloor_resp_le _ _ Le) as F.
  pose proof (round_half_even_near_floor x) as Nx.
  pose proof (round_half_even_near_floor y) as Ny.
  destruct (Z.eq_dec (Qfloor x) (Qfloor y)) as [E|NE]; [|lia].
  unfold round_half_even. rewrite E.
  assert (Fr : (x - inject_Z (Qfloor y) <= y - inject_Z (Qfloor y))%Q).
  { apply Qplus_le_l. exact Le. }
  destruct (x - inject_Z (Qfloor y) ?= 1 # 2)%Q eqn:Cx;
    destruct (y - inject_Z (Qfloor y) ?= 1 # 2)%Q eqn:Cy;
    try (destruct (Z.even (Qfloor y)); lia); try lia; exfalso.
  - apply Qeq_alt in Cx. rewrite <- Qlt_alt in Cy. rewrite Cx in Fr.
    exact (Qlt_not_le _ _ Cy Fr).
  - rewrite <- Qgt_alt in Cx. apply Qeq_alt in Cy. rewrite Cy in Fr.
    exact (Qlt_not_le _ _ Cx Fr).
  - rewrite <- Qgt_alt in Cx. rewrite <- Qlt_alt in Cy.
    apply (Qlt_not_le _ _ Cy). eapply Qle_trans; [|exact Fr].
    apply Qlt_le_weak. exact Cx.
Qed.

Lemma round2_mono (x y : Q) : (x <= y)%Q → (round2 x <= round2 y)%Q.
Proof.
  intros Le. unfold round2, Qle. simpl.
  apply Z.mul_le_mono_nonneg_r; [lia|].
  apply round_half_even_mono. apply Qmult_le_compat_r; [exact Le | discriminate].
Qed.

Lemma round2_0 : round2 0 = (0 # 100)%Q.
Proof. reflexivity. Qed.

Lemma py_max_0_nonneg (x : Q) : (0 <= py_max x 0)%Q.
Proof. rewrite py_max_0. apply Q.le_max_l. Qed.

(** X1.  Whatever was typed and however long it took, [calculate_wpm] is
    never negative. *)
Theorem calculate_wpm_nonneg (typed target : list string) (elapsed_seconds : Q) :
  (0 <= calculate_wpm typed target elapsed_seconds)%Q.
Proof.
  unfold calculate_wpm. destruct (float_falsy elapsed_seconds); [discriminate|].
  apply Qle_trans with (y := round2 0); [rewrite round2_0; discriminate|].
  apply round2_mono, py_max_0_nonneg.
Qed.

Lemma spec_pair_errors_same (w : string) : spec_pair_errors w w = 0%nat.
Proof.
  unfold spec_pair_errors, padded. rewrite padded_pairs_filter.
  induction (seq 0 _) as [|i l IH]; [reflexivity|].
  rewrite filter_cons. destruct (decide _) as [D|_]; [contradiction | exact IH].
Qed.

Lemma spec_pair_errors_zero (typed target : string) :
  spec_pair_errors typed target = 0%nat → typed = target.
Proof.
  unfold spec_pair_errors, padded. rewrite padded_pairs_filter. intros Z.
  apply String.get_correct. intros i.
  destruct (Nat.lt_ge_cases i (Nat.max (String.length typed) (String.length target)))
    as [In|Out].
  - destruct (decide (String.get i typed = String.get i target)) as [E|NE]; [exact E|].
    exfalso.
    assert (M : i ∈ filter (fun i => String.get i typed ≠ String.get i target)
                      (seq 0 (Nat.max (String.length typed) (String.length target)))).
    { apply list_elem_of_filter. split; [exact NE|]. apply elem_of_seq. lia. }
    apply length_zero_iff_nil in Z. rewrite Z in M. inversion M.
  - rewrite !get_out_of_range by lia. reflexivity.
Qed.

Lemma zip_with_sum_zero (typed target : list string) :
  sum_list (zip_with spec_pair_errors typed target) = 0%nat
  ↔ ∀ i a b, typed !! i = Some a → target !! i = Some b → a = b.
Proof.
  revert target. induction typed as [|t typed IH]; intros [|g target]; simpl.
  - split; [intros _ i a b H; inversion H | reflexivity].
  - split; [intros _ i a b H; inversion H | reflexivity].
  - split; [intros _ i a b _ H; inversion H | reflexivity].
  - unfold id. split.
    + intros Sum i a b Ha Hb. apply Nat.eq_add_0 in Sum as [Z1 Z2].
      destruct i as [|i]; simpl in *.
      * injection Ha as <-. injection Hb as <-. apply spec_pair_errors_zero, Z1.
      * apply (proj1 (IH target)) with (i := i); assumption.
    + intros All.
      rewrite (All 0%nat t g eq_refl eq_refl), spec_pair_errors_same.
      simpl. apply IH. intros i a b. apply (All (S i)).
Qed.

(** X2.  The running counter of uncorrected errors ends at zero exactly
    when every typed token that has a target token equals it; on floats
    [calculate_wpm] is then the gross speed: the typed characters over
    five, over the minutes, floored at 0 and rounded. *)
Theorem no_uncorrected_errors_iff_tokens_match (typed target : list string) :
  (fold_left compare_words (zip typed target) 0%Z = 0%Z
   ↔ ∀ i t g, typed !! i = Some t → target !! i = Some g → t = g)
  ∧ ((∀ i t g, typed !! i = Some t → target !! i = Some g → t = g) →
     ∀ elapsed_seconds : binary64.float,
       stats_calculator_binary64.calculate_wpm typed target elapsed_seconds
       = if binary64.falsy elapsed_seconds
         then Ok (binary64.Float (binary64.Zero false))
         else
           minutes ←! binary64.truediv elapsed_seconds (binary64.nearest 60);
           fifth ←! binary64.int_truediv (Z.of_nat (spec_total_chars typed)) 5;
           gross ←! binary64.truediv fifth minutes;
           Ok (binary64.round_number2 (binary64.max_with_0 gross))).
Proof.
  assert (Iff : fold_left compare_words (zip typed target) 0%Z = 0%Z
                ↔ ∀ i t g, typed !! i = Some t → target !! i = Some g → t = g).
  { rewrite compare_all_words_from, <- zip_with_sum_zero. lia. }
  split; [exact Iff|].
  intros All elapsed_seconds. apply Iff in All.
  unfold stats_calculator_binary64.calculate_wpm.
  rewrite All, total_chars_spec, Z.sub_0_r. reflexivity.
Qed.

Lemma accuracy_formula (typed target : list string) (typo_count : Z) :
  typed ≠ [] → target ≠ [] → sum_len typed ≠ 0%Z →
  calculate_accuracy typed target typo_count
  = round2 (int_div (sum_len typed - Z.min typo_count (sum_len typed)) (sum_len typed)
            * 100).
Proof.
  intros Ht Hg Hs. unfold calculate_accuracy.
  destruct typed as [|t typed]; [contradiction|].
  destruct target as [|g target]; [contradiction|].
  apply Z.eqb_neq in Hs. rewrite Hs, py_min_min. reflexivity.
Qed.

Lemma accuracy_degenerate (typed target : list string) (typo_count : Z) :
  typed = [] ∨ target = [] ∨ sum_len typed = 0%Z →
  calculate_accuracy typed target typo_count = 0%Q.
Proof.
  intros D. unfold calculate_accuracy.
  destruct typed as [|t typed]; [reflexivity|].
  destruct target as [|g target]; [reflexivity|].
  destruct D as [D|[D|D]]; [discriminate | discriminate |].
  rewrite D. reflexivity.
Qed.

Lemma sum_len_nonneg (words : list string) : (0 ≤ sum_len words)%Z.
Proof. rewrite sum_len_sum_list. lia. Qed.

(** X3.  For fixed word lists [calculate_accuracy] does not grow with the
    typo count, and it is 0 as soon as the typo count reaches the number of
    typed characters. *)
Theorem calculate_accuracy_antitone (typed target : list string) (fewer more : Z) :
  (fewer ≤ more)%Z →
  (calculate_accuracy typed target more <= calculate_accuracy typed target fewer)%Q
  ∧ ((sum_len typed ≤ fewer)%Z → (calculate_accuracy typed target fewer == 0)%Q).
Proof.
  intros Le.
  destruct (decide (typed = [] ∨ target = [] ∨ sum_len typed = 0%Z)) as [D|ND].
  - rewrite !(accuracy_degenerate _ _ _ D). split; [apply Qle_refl | reflexivity].
  - assert (Ht : typed ≠ []) by tauto.
    assert (Hg : target ≠ []) by tauto.
    assert (Hs : sum_len typed ≠ 0%Z) by tauto.
    pose proof (sum_len_nonneg typed) as Nn.
    assert (P : (0 < inject_Z (sum_len typed))%Q).
    { change (inject_Z 0 < inject_Z (sum_len typed))%Q. rewrite <- Zlt_Qlt. lia. }
    rewrite !(accuracy_formula _ _ _ Ht Hg Hs). split.
    + apply round2_mono. apply Qmult_le_compat_r; [|discriminate].
      unfold int_div. apply Qmult_le_compat_r.
      * rewrite <- Zle_Qle. lia.
      * apply Qlt_le_weak, Qinv_lt_0_compat, P.
    + intros Sat. rewrite Z.min_r by lia. rewrite Z.sub_diag.
      unfold int_div. apply (Qeq_trans _ (round2 0)); [|reflexivity].
      rewrite (round2_proper (inject_Z 0 / inject_Z (sum_len typed) * 100) 0);
        [reflexivity|].
      field. intros Z0. apply (inject_Z_injective (sum_len typed) 0) in Z0. lia.
Qed.

End MoreMetrics.

(** ** The typing session *)

Section MoreSession.
Import PyNum stats_calculator base_game variants session live_stats.

Lemma complete_word_frame (word : string) (g : BaseGame) :
  let g' := (_process_complete_word word g).2 in
  target_words g' = target_words g ∧ error_count g' = error_count g
  ∧ name g' = name g ∧ start_time g' = start_time g
  ∧ (current_word_index g ≤ current_word_index g' ≤ S (current_word_index g))%nat
  ∧ (current_word_index g' ≤ Nat.max (current_word_index g) (length (target_words g)))%nat.
Proof.
  unfold _process_complete_word.
  destruct (Nat.leb_spec (length (target_words g)) (current_word_index g));
    [simpl; repeat split; lia|].
  destruct (length (target_words g) <=? S (current_word_index g))%nat;
    simpl; repeat split; lia.
Qed.

Lemma extend_to_lookup (n j : nat) (words : list string) (w : string) :
  words !! j = Some w → extend_to n words !! j = Some w.
Proof. intros L. unfold extend_to. apply lookup_app_l_Some, L. Qed.

Lemma complete_word_keeps_slot (word : string) (g : BaseGame) (j : nat) (w : string) :
  typed_words g !! j = Some w → (j < current_word_index g)%nat →
  typed_words (_process_complete_word word g).2 !! j = Some w.
Proof.
  intros L Lt. unfold _process_complete_word.
  destruct (length (target_words g) <=? current_word_index g)%nat; [exact L|].
  assert (K : <[current_word_index g := word]>
                (extend_to (S (current_word_index g)) (typed_words g)) !! j = Some w).
  { rewrite list_lookup_insert_ne by lia. apply extend_to_lookup, L. }
  destruct (length (target_words g) <=? S (current_word_index g))%nat; simpl;
    [apply extend_to_lookup, K | exact K].
Qed.

Lemma partial_input_keeps_slot (text : string) (g : BaseGame) (j : nat) (w : string) :
  typed_words g !! j = Some w → (j < current_word_index g)%nat →
  typed_words (_process_partial_input text g).2 !! j = Some w.
Proof.
  intros L Lt. unfold _process_partial_input. simpl.
  rewrite list_lookup_insert_ne by lia. apply extend_to_lookup, L.
Qed.

Lemma process_input_step (now : Q) (text : string) (is_complete : bool) (g : BaseGame) :
  let g' := (process_input now text is_complete g).2 in
  target_words g' = target_words g
  ∧ name g' = name g
  ∧ (current_word_index g ≤ current_word_index g' ≤ S (current_word_index g))%nat
  ∧ (current_word_index g' ≤ Nat.max (current_word_index g) (length (target_words g)))%nat
  ∧ ∀ j w, typed_words g !! j = Some w → (j < current_word_index g)%nat →
           typed_words g' !! j = Some w.
Proof.
  destruct (start_timer_frame now text g) as (Nm & _ & _ & Tg & Ty & Cu & _).
  destruct (decide (status (start_timer now text g) = ACTIVE)) as [A|A].
  - rewrite (process_input_active _ _ _ _ A). destruct is_complete.
    + destruct (complete_word_frame text (start_timer now text g))
        as (T & _ & N & _ & C & M).
      cbn zeta. rewrite T, N, Tg, Nm. rewrite Cu, Tg in *.
      repeat split; try lia.
      intros j w L Lt. apply complete_word_keeps_slot; [rewrite Ty; exact L | lia].
    + cbn zeta. change (target_words (_process_partial_input text _).2)
        with (target_words (start_timer now text g)).
      change (name (_process_partial_input text _).2) with (name (start_timer now text g)).
      change (current_word_index (_process_partial_input text _).2)
        with (current_word_index (start_timer now text g)).
      rewrite Tg, Nm, Cu. repeat split; try lia.
      intros j w L Lt. apply partial_input_keeps_slot; [rewrite Ty; exact L | lia].
  - rewrite (process_input_inactive _ _ _ _ A). cbn zeta. cbn [snd].
    rewrite Tg, Nm, Cu, Ty. repeat split; try lia. intros j w L _. exact L.
Qed.

Lemma process_input_invariant (now : Q) (text : string) (is_complete : bool)
    (g : BaseGame) :
  session_invariant g → session_invariant (process_input now text is_complete g).2.
Proof.
  intros (C & Lo & Hi & E).
  destruct (process_input_step now text is_complete g) as (T & _ & Cs & M & _).
  pose proof (process_input_within_cursor now text is_complete g Hi) as Hi'.
  pose proof (process_input_error_count_le now text is_complete g) as E'.
  unfold typed_within_cursor in Hi'.
  repeat split; [rewrite T; lia | | exact Hi' | lia].
  destruct (start_timer_frame now text g) as (_ & _ & _ & Tg & Ty & Cu & _).
  destruct (decide (status (start_timer now text g) = ACTIVE)) as [A|A].
  - rewrite (process_input_active _ _ _ _ A). destruct is_complete.
    + unfold _process_complete_word. rewrite Tg, Ty, Cu.
      destruct (length (target_words g) <=? current_word_index g)%nat;
        [simpl; rewrite Ty, Cu; exact Lo|].
      destruct (length (target_words g) <=? S (current_word_index g))%nat; simpl;
        rewrite ?length_extend_to, length_insert, length_extend_to; lia.
    + unfold _process_partial_input. simpl.
      rewrite length_insert, length_extend_to, Cu. lia.
  - rewrite (process_input_inactive _ _ _ _ A). simpl. rewrite Ty, Cu. exact Lo.
Qed.

(** X4.  Every session object the program can build keeps its cursor inside
    the target, has a typed slot for every word before the cursor and at
    most one more, and a non-negative error counter. *)
Theorem reachable_session_invariant (g : BaseGame) :
  reachable g → session_invariant g.
Proof.
  induction 1 as [cls | cls wc g _ IH | words g _ IH | words saved g _ IH ok _
                  | now text c g _ IH | now stamp g _ IH | g _ IH].
  - unfold session_invariant. simpl. lia.
  - unfold initialize. destruct cls; [destruct (_ && _)|]; exact IH.
  - unfold start. destruct (negb _); [exact IH|].
    unfold session_invariant. simpl. lia.
  - unfold start in *. destruct (negb _); [discriminate|].
    unfold session_invariant. simpl. lia.
  - apply process_input_invariant, IH.
  - exact IH.
  - exact IH.
Qed.

Lemma feed_cons (call : Q * string * bool) (calls : list (Q * string * bool))
    (g : BaseGame) :
  feed (call :: calls) g = feed calls (process_input call.1.1 call.1.2 call.2 g).2.
Proof. destruct call as [[now text] c]. reflexivity. Qed.

(** X5.  No run of [process_input] calls changes a word committed before
    the cursor, moves the cursor back, or changes the target. *)
Theorem committed_words_are_kept (calls : list (Q * string * bool)) (g : BaseGame)
    (j : nat) (w : string) :
  typed_words g !! j = Some w → (j < current_word_index g)%nat →
  typed_words (feed calls g) !! j = Some w
  ∧ (current_word_index g ≤ current_word_index (feed calls g))%nat
  ∧ target_words (feed calls g) = target_words g.
Proof.
  revert g. induction calls as [|call calls IH]; intros g L Lt.
  - unfold feed. simpl. split; [exact L|]. split; [lia | reflexivity].
  - rewrite feed_cons.
    destruct (process_input_step call.1.1 call.1.2 call.2 g) as (T & _ & C & _ & K).
    destruct (IH _ (K j w L Lt) ltac:(lia)) as (L' & C' & T').
    split; [exact L'|]. split; [lia | congruence].
Qed.

(** X6.  A partial input the session processes becomes the slot under the
    cursor and the live input, and moves neither the cursor nor the
    status. *)
Theorem partial_input_fills_live_slot (now : Q) (text : string) (g : BaseGame) :
  (process_input now text false g).1 ≠ Inactive →
  let g' := (process_input now text false g).2 in
  typed_words g' !! current_word_index g = Some text
  ∧ current_input g' = text
  ∧ current_word_index g' = current_word_index g
  ∧ status g' = ACTIVE
  ∧ length (typed_words g')
    = Nat.max (S (current_word_index g)) (length (typed_words g))
  ∧ (process_input now text false g).1 = Partial text (current_word_index g).
Proof.
  intros Act.
  assert (A : status (start_timer now text g) = ACTIVE).
  { destruct (decide (status (start_timer now text g) = ACTIVE)) as [A|A]; [exact A|].
    rewrite (process_input_inactive _ _ _ _ A) in Act. contradiction. }
  destruct (start_timer_frame now text g) as (_ & _ & _ & _ & Ty & Cu & _).
  rewrite (process_input_active _ _ _ _ A). unfold _process_partial_input. simpl.
  rewrite Ty, Cu. repeat split.
  - apply list_lookup_insert_eq. rewrite length_extend_to. lia.
  - exact A.
  - rewrite length_insert, length_extend_to. reflexivity.
Qed.

(** *** Typing every word exactly *)

Lemma start_timer_activates (now : Q) (text : string) (g : BaseGame) :
  status g = ACTIVE ∨ float_falsy (start_time g) = true →
  text ≠ EmptyString →
  status (start_timer now text g) = ACTIVE.
Proof.
  intros [A|F] Ne; [apply start_timer_keeps_active, A|].
  unfold start_timer. rewrite F. apply String.eqb_neq in Ne. rewrite Ne. reflexivity.
Qed.

Lemma extend_to_full (n : nat) (words : list string) :
  (n ≤ length words)%nat → extend_to n words = words.
Proof.
  intros Le. unfold extend_to. replace (n - length words)%nat with 0%nat by lia.
  apply app_nil_r.
Qed.

Lemma commit_at_end (pre : list string) (word : string) :
  <[length pre := word]> (extend_to (S (length pre)) pre) = pre ++ [word].
Proof.
  unfold extend_to. replace (S (length pre) - length pre)%nat with 1%nat by lia.
  simpl. rewrite insert_app_r_alt by lia.
  replace (length pre - length pre)%nat with 0%nat by lia. reflexivity.
Qed.

Lemma exact_word_step (now : Q) (word : string) (g : BaseGame)
    (pre rest : list string) :
  status (start_timer now word g) = ACTIVE →
  target_words g = pre ++ word :: rest → typed_words g = pre →
  current_word_index g = length pre →
  let g' := (process_input now word true g).2 in
  typed_words g' = pre ++ [word]
  ∧ current_word_index g' = length (pre ++ [word])
  ∧ target_words g' = target_words g
  ∧ error_count g' = error_count g
  ∧ name g' = name g
  ∧ status g' = match rest with [] => COMPLETED | _ => ACTIVE end.
Proof.
  intros A Tg Ty Cu.
  destruct (start_timer_frame now word g) as (Nm & _ & _ & Tg1 & Ty1 & Cu1 & _ & Ec & _).
  rewrite (process_input_active _ _ _ _ A). unfold _process_complete_word.
  rewrite Tg1, Ty1, Cu1, Tg, Ty, Cu, commit_at_end.
  rewrite length_app. cbn [length].
  destruct (Nat.leb_spec (length pre + S (length rest)) (length pre)) as [L|_]; [lia|].
  destruct rest as [|next rest]; cbn [length].
  - destruct (Nat.leb_spec (length pre + 1) (S (length pre))) as [_|L]; [|lia].
    simpl. rewrite extend_to_full by (rewrite !length_app; simpl; lia).
    repeat split; try assumption; try reflexivity; rewrite length_app; simpl; lia.
  - destruct (Nat.leb_spec (length pre + S (S (length rest))) (S (length pre)))
      as [L|_]; [lia|].
    simpl. repeat split; try assumption; try reflexivity; rewrite length_app; simpl; lia.
Qed.

Lemma exact_run (rest : list string) :
  ∀ (g : BaseGame) (pre : list string) (clocks : list Q),
    rest ≠ [] → length clocks = length rest →
    Forall (fun w => w ≠ EmptyString) rest →
    status g = ACTIVE ∨ float_falsy (start_time g) = true →
    target_words g = pre ++ rest → typed_words g = pre →
    current_word_index g = length pre →
    let g' := feed (submit_all clocks rest) g in
    status g' = COMPLETED ∧ typed_words g' = pre ++ rest
    ∧ current_word_index g' = length (pre ++ rest)
    ∧ target_words g' = pre ++ rest
    ∧ error_count g' = error_count g ∧ name g' = name g.
Proof.
  induction rest as [|word rest IH]; intros g pre clocks Ne Len All St Tg Ty Cu;
    [contradiction|].
  destruct clocks as [|now clocks]; [discriminate|].
  apply Forall_cons in All as [Nw All].
  pose proof (start_timer_activates now word g St Nw) as A.
  destruct (exact_word_step now word g pre rest A Tg Ty Cu)
    as (Ty' & Cu' & Tg' & Ec' & Nm' & St').
  unfold submit_all. cbn [zip_with]. rewrite feed_cons. cbn [fst snd].
  destruct rest as [|next rest].
  - destruct clocks; cbn [zip_with feed fold_left];
      (repeat split; [exact St' | exact Ty' | exact Cu' | congruence | exact Ec'
                      | exact Nm']).
  - destruct (IH (process_input now word true g).2 (pre ++ [word]) clocks)
      as (S1 & T1 & C1 & G1 & E1 & N1).
    + discriminate.
    + simpl in Len |- *. lia.
    + exact All.
    + left. exact St'.
    + rewrite Tg', Tg, <- app_assoc. reflexivity.
    + exact Ty'.
    + exact Cu'.
    + rewrite <- app_assoc in T1, C1, G1. simpl in T1, C1, G1.
      unfold submit_all in *. rewrite E1, N1.
      repeat split; [exact S1 | exact T1 | exact C1 | exact G1 | congruence
                     | congruence].
Qed.

Lemma correct_chars_from (typed target : list string) (acc : Z) :
  let total :=
    fold_left
      (fun acc (p : string * string) =>
         if String.eqb p.1 p.2 then (acc + Z.of_nat (String.length p.1))%Z else acc)
      (zip typed target) acc in
  (acc ≤ total ≤ acc + sum_len target)%Z
  ∧ (typed = target → total = (acc + sum_len target)%Z).
Proof.
  revert target acc. induction typed as [|t typed IH]; intros [|g target] acc; cbn zeta.
  - cbn [zip_with fold_left]. split; [|intros _]; unfold sum_len; simpl; lia.
  - cbn [zip_with fold_left]. pose proof (sum_len_nonneg (g :: target)).
    split; [lia | discriminate].
  - cbn [zip_with fold_left]. split; [unfold sum_len; simpl; lia | discriminate].
  - cbn [zip_with fold_left fst snd].
    assert (Sg : sum_len (g :: target)
                 = (Z.of_nat (String.length g) + sum_len target)%Z).
    { rewrite !sum_len_sum_list. simpl. lia. }
    rewrite Sg.
    destruct (IH target (if String.eqb t g
                         then (acc + Z.of_nat (String.length t))%Z else acc))
      as [B Eq].
    cbn zeta in B, Eq. split.
    + destruct (String.eqb_spec t g) as [->|_]; lia.
    + intros E. injection E as -> ->. rewrite String.eqb_refl in *.
      rewrite (Eq eq_refl). lia.
Qed.

(** X7.  In every Result that [finish] builds, the correct characters are
    between 0 and the total characters, which are at most the characters of
    the whole target; the Result carries the session's name and error
    counter, and is what the session remembers. *)
Theorem finish_counts_are_bounded (now : Q) (stamp : datetime) (g : BaseGame) :
  let r := (finish now stamp g).1 in
  (0 ≤ game_result.correct_characters r ≤ game_result.total_characters r)%Z
  ∧ (game_result.total_characters r ≤ sum_len (target_words g))%Z
  ∧ game_result.error_count r = error_count g
  ∧ game_result.game_type r = name g
  ∧ result (finish now stamp g).2 = Some r
  ∧ game_result.is_new_record r = false
  ∧ game_result.previous_best r = None.
Proof.
  cbn zeta. unfold finish. cbn [fst snd game_result.correct_characters
    game_result.total_characters game_result.error_count game_result.game_type
    game_result.is_new_record game_result.previous_best result].
  destruct (correct_chars_from (take (current_word_index g) (typed_words g))
              (take (current_word_index g) (target_words g)) 0) as [B _].
  cbn zeta in B. fold (correct_chars (take (current_word_index g) (typed_words g))
                         (take (current_word_index g) (target_words g))) in B.
  repeat split; try lia.
  rewrite !sum_len_sum_list. apply Nat2Z.inj_le.
  rewrite <- (take_drop (current_word_index g) (target_words g)) at 2.
  rewrite map_app, sum_list_with_app. lia.
Qed.

Lemma accuracy_without_typos (words : list string) :
  words ≠ [] → sum_len words ≠ 0%Z →
  (calculate_accuracy words words 0 == 100)%Q.
Proof.
  intros Ne Hs. rewrite (accuracy_formula _ _ _ Ne Ne Hs).
  pose proof (sum_len_nonneg words).
  apply round2_100. rewrite Z.min_l by lia. unfold int_div.
  rewrite Z.sub_0_r. field. intros Z0.
  apply (inject_Z_injective (sum_len words) 0) in Z0. lia.
Qed.

Lemma sum_len_positive (words : list string) :
  words ≠ [] → Forall (fun w => w ≠ EmptyString) words → sum_len words ≠ 0%Z.
Proof.
  intros Ne All. destruct words as [|w words]; [contradiction|].
  apply Forall_cons in All as [Nw _].
  rewrite sum_len_sum_list. simpl.
  destruct w as [|c w]; [contradiction|]. simpl. lia.
Qed.

(** X8.  From a READY game started on a non-empty list of non-empty words,
    submitting each word exactly completes the session with the typed words
    equal to the target and no error counted; its Result then has accuracy
    100 and as many correct characters as total characters. *)
Theorem exact_typing_completes (g : BaseGame) (words : list string) (clocks : list Q) :
  status g = READY → words ≠ [] →
  Forall (fun w => w ≠ EmptyString) words →
  length clocks = length words →
  let played := feed (submit_all clocks words) (start words g).2 in
  status played = COMPLETED
  ∧ typed_words played = words
  ∧ current_word_index played = length words
  ∧ error_count played = 0%Z
  ∧ ∀ now stamp,
      (game_result.accuracy (finish now stamp played).1 == 100)%Q
      ∧ game_result.correct_characters (finish now stamp played).1 = sum_len words
      ∧ game_result.total_characters (finish now stamp played).1 = sum_len words
      ∧ game_result.error_count (finish now stamp played).1 = 0%Z.
Proof.
  intros Rd Ne All Len played.
  assert (S0 : (start words g).2
               = with_status (_reset_state (with_target_words g words)) READY).
  { unfold start. rewrite Rd. reflexivity. }
  destruct (exact_run words (start words g).2 [] clocks Ne Len All)
    as (St & Ty & Cu & Tg & Ec & _); try (rewrite S0; reflexivity).
  { right. rewrite S0. reflexivity. }
  fold played in St, Ty, Cu, Tg, Ec. simpl in Ty, Cu, Tg.
  rewrite S0 in Ec. simpl in Ec.
  repeat split; try assumption.
  - unfold finish. cbn [fst game_result.accuracy].
    rewrite Ty, Tg, Cu, Ec, firstn_all.
    apply accuracy_without_typos; [exact Ne | apply sum_len_positive; assumption].
  - unfold finish. cbn [fst game_result.correct_characters].
    rewrite Ty, Tg, Cu, firstn_all.
    destruct (correct_chars_from words words 0) as [_ Eq]. cbn zeta in Eq.
    unfold correct_chars. rewrite (Eq eq_refl). lia.
  - unfold finish. cbn [fst game_result.total_characters].
    rewrite Tg, Cu, firstn_all. reflexivity.
Qed.

End MoreSession.

(** ** Live statistics *)

Section LiveStats.
Import PyNum stats_calculator base_game live_stats.

Lemma started_timer_is_truthy (x : Q) : Qltb 0 x = true → float_falsy x = false.
Proof.
  intros P. apply Qltb_lt in P. unfold float_falsy.
  destruct (Qeq_bool x 0) eqn:E; [|reflexivity].
  apply Qeq_bool_eq in E. rewrite E in P. exfalso. exact (Qlt_irrefl 0 P).
Qed.

Lemma calculate_wpm_nothing_typed (target : list string) (elapsed : Q) :
  (calculate_wpm [] target elapsed == 0)%Q.
Proof.
  unfold calculate_wpm. destruct (float_falsy elapsed); [reflexivity|].
  cbn [zip_with fold_left length Nat.ltb Nat.leb]. unfold sum_len. cbn [fold_left].
  rewrite (round2_proper _ 0); [reflexivity|].
  rewrite py_max_0. unfold int_div.
  assert (Z0 : (inject_Z (0 - 0) / inject_Z 5 / (elapsed / 60) == 0)%Q).
  { unfold Qdiv. rewrite !Qmult_0_l. reflexivity. }
  rewrite Z0. reflexivity.
Qed.

(** X9.  Before the timer starts [get_current_stats] is the neutral
    snapshot: speed 0, accuracy 100, nothing typed.  Once it runs and a
    word has been committed, the snapshot's speed and accuracy are the ones
    [finish] would report at the same clock reading; with no word
    committed yet the snapshot shows accuracy 100 while [finish] reports
    accuracy 0, both with speed 0. *)
Theorem live_stats_and_final_result (now : Q) (stamp : datetime) (g : BaseGame) :
  let stats := get_current_stats now g in
  let final := (finish now stamp g).1 in
  (float_falsy (start_time g) = true →
   stats !! "wpm"%string = Some (JFloat 0)
   ∧ stats !! "accuracy"%string = Some (JFloat 100)
   ∧ stats !! "elapsed_time"%string = Some (JFloat 0)
   ∧ stats !! "characters_typed"%string = Some (JInt 0)
   ∧ stats !! "total_words"%string = None)
  ∧ (Qltb 0 (start_time g) = true →
     stats !! "elapsed_time"%string = Some (JFloat (now - start_time g))
     ∧ stats !! "total_words"%string
       = Some (JInt (Z.of_nat (length (target_words g))))
     ∧ (take (current_word_index g) (typed_words g) ≠ [] →
        stats !! "wpm"%string = Some (JFloat (game_result.wpm final))
        ∧ stats !! "accuracy"%string = Some (JFloat (game_result.accuracy final))
        ∧ stats !! "duration"%string
          = Some (JFloat (round2 (game_result.duration final))))
     ∧ (take (current_word_index g) (typed_words g) = [] →
        stats !! "wpm"%string = Some (JFloat 0)
        ∧ (game_result.wpm final == 0)%Q
        ∧ stats !! "accuracy"%string = Some (JFloat 100)
        ∧ game_result.accuracy final = 0%Q)).
Proof.
  cbn zeta. split.
  - intros F. unfold get_current_stats. rewrite F.
    cbn [list_to_map foldr]. repeat split; by simplify_map_eq.
  - intros P. unfold get_current_stats, finish.
    rewrite (started_timer_is_truthy _ P), P.
    cbn [fst game_result.wpm game_result.accuracy game_result.duration].
    split; [by simplify_map_eq|]. split; [by simplify_map_eq|].
    split.
    + intros Ne.
      destruct (take (current_word_index g) (typed_words g)) as [|w ws] eqn:T;
        [contradiction|].
      cbn [list_to_map foldr]. repeat split; by simplify_map_eq.
    + intros E. rewrite E. cbn [list_to_map foldr].
      split; [by simplify_map_eq|].
      split; [apply calculate_wpm_nothing_typed|].
      split; [by simplify_map_eq | reflexivity].
Qed.

End LiveStats.

(** ** Loading results *)

Section MoreSerialisation.
Context `{Iso8601}.
Import game_result.

Lemma bind_Ok {A B : Type} (m : outcome A) (k : A → outcome B) (b : B) :
  bind m k = Ok b → ∃ a, m = Ok a ∧ k a = Ok b.
Proof. destruct m as [a|e]; [eauto | discriminate]. Qed.

(** [from_dict] cut into its timestamp part and its other fields. *)
Lemma from_dict_Ok (now : datetime) (data : gmap string json) (r : GameResult) :
  from_dict now data = Ok r →
  let raw_ts := pydict.py_or (pydict.get data "timestamp") (pydict.get data "date") in
  (if pydict.truthy raw_ts
   then ∃ s ts, raw_ts = JStr s ∧ fromisoformat s = Some ts
                ∧ timestamp r = match tzinfo ts with
                                | None => replace_tzinfo_utc ts
                                | Some _ => ts
                                end
   else timestamp r = now)
  ∧ as_str (pydict.py_or (pydict.get data "game_type")
                         (pydict.get_default data "game" (JStr "Unknown")))
    = Ok (game_type r)
  ∧ as_float (pydict.get_default data "wpm" (JFloat 0)) = Ok (wpm r)
  ∧ as_int (pydict.get_default data "error_count" (JInt 0)) = Ok (error_count r)
  ∧ is_new_record r = false
  ∧ previous_best r = None.
Proof.
  unfold from_dict. intros E.
  apply bind_Ok in E as (ts & Ets & E).
  apply bind_Ok in E as (w & Ew & E).
  apply bind_Ok in E as (a & Ea & E).
  apply bind_Ok in E as (d & Ed & E).
  apply bind_Ok in E as (gt & Eg & E).
  apply bind_Ok in E as (tc & Etc & E).
  apply bind_Ok in E as (cc & Ecc & E).
  apply bind_Ok in E as (ec & Eec & E).
  injection E as <-. cbn zeta. simpl.
  split; [|repeat split; assumption].
  destruct (pydict.truthy _).
  - destruct (pydict.py_or _ _) as [| | | |s| |]; try discriminate.
    destruct (fromisoformat s) as [ts'|] eqn:P; [|discriminate].
    injection Ets as <-. exists s, ts'. repeat split. exact P.
  - injection Ets as <-. reflexivity.
Qed.

(** X10.  Whatever the stored record holds, a result that [from_dict]
    returns is never marked as a new record and has no previous best, and
    its timestamp is timezone-aware whenever the clock's is. *)
Theorem from_dict_never_restores_annotations (now : datetime)
    (data : gmap string json) (r : GameResult) :
  from_dict now data = Ok r →
  is_new_record r = false
  ∧ previous_best r = None
  ∧ (tzinfo now ≠ None → tzinfo (timestamp r) ≠ None).
Proof.
  intros E. destruct (from_dict_Ok _ _ _ E) as (Ts & _ & _ & _ & NR & PB).
  split; [exact NR|]. split; [exact PB|]. intros Aware.
  cbn zeta in Ts. destruct (pydict.truthy _).
  - destruct Ts as (s & ts & _ & _ & ->). destruct (tzinfo ts) eqn:Tz.
    + rewrite Tz. discriminate.
    + discriminate.
  - rewrite Ts. exact Aware.
Qed.

(** X11.  A result that [from_dict] returns takes its game type from
    [game_type] when that is a non-empty string, otherwise from the legacy
    key [game], and is "Unknown" when both are missing; likewise its
    timestamp is read from [timestamp], otherwise from the legacy key
    [date], a naive value being taken as UTC, and is the clock reading when
    both are missing. *)
Theorem from_dict_reads_legacy_keys (now : datetime) (data : gmap string json)
    (r : GameResult) :
  from_dict now data = Ok r →
  (∀ s, data !! "game_type"%string = Some (JStr s) → s ≠ EmptyString →
        game_type r = s)
  ∧ (∀ s, data !! "game_type"%string = None →
          data !! "game"%string = Some (JStr s) → game_type r = s)
  ∧ (data !! "game_type"%string = None → data !! "game"%string = None →
     game_type r = "Unknown"%string)
  ∧ (∀ s, data !! "timestamp"%string = Some (JStr s) → s ≠ EmptyString →
          ∃ ts, fromisoformat s = Some ts
                ∧ timestamp r = match tzinfo ts with
                                | None => replace_tzinfo_utc ts
                                | Some _ => ts
                                end)
  ∧ (∀ s, data !! "timestamp"%string = None →
          data !! "date"%string = Some (JStr s) → s ≠ EmptyString →
          ∃ ts, fromisoformat s = Some ts
                ∧ timestamp r = match tzinfo ts with
                                | None => replace_tzinfo_utc ts
                                | Some _ => ts
                                end)
  ∧ (data !! "timestamp"%string = None → data !! "date"%string = None →
     timestamp r = now).
Proof.
  intros E. destruct (from_dict_Ok _ _ _ E) as (Ts & Gt & _).
  cbn zeta in Ts.
  unfold pydict.py_or, pydict.get, pydict.get_default in Ts, Gt.
  repeat split.
  - intros s G Ne. rewrite G in Gt. apply String.eqb_neq in Ne.
    cbn [from_option id pydict.truthy] in Gt. rewrite Ne in Gt.
    injection Gt as <-. reflexivity.
  - intros s G L. rewrite G, L in Gt. injection Gt as <-. reflexivity.
  - intros G L. rewrite G, L in Gt. injection Gt as <-. reflexivity.
  - intros s T Ne. rewrite T in Ts. apply String.eqb_neq in Ne.
    cbn [from_option id pydict.truthy] in Ts. rewrite Ne in Ts.
    cbn [negb pydict.truthy] in Ts. rewrite Ne in Ts.
    destruct Ts as (s' & ts & Es & P & Et). injection Es as <-. eauto.
  - intros s T D Ne. rewrite T, D in Ts. apply String.eqb_neq in Ne.
    cbn [from_option id pydict.truthy] in Ts. rewrite Ne in Ts.
    destruct Ts as (s' & ts & Es & P & Et). injection Es as <-. eauto.
  - intros T D. rewrite T, D in Ts. exact Ts.
Qed.

(** X12.  A record with none of the ten keys loads, without raising, as the
    default result: zero numbers, game type "Unknown" and the clock reading
    as timestamp. *)
Theorem from_dict_defaults (now : datetime) (data : gmap string json) :
  (∀ key, key ∈ ["wpm"; "accuracy"; "duration"; "game_type"; "game"; "timestamp";
                 "date"; "total_characters"; "correct_characters";
                 "error_count"]%string →
          data !! key = None) →
  from_dict now data = Ok (mk_GameResult 0 0 0 "Unknown" now 0 0 0 false None).
Proof.
  intros Missing. unfold from_dict, pydict.py_or, pydict.get, pydict.get_default.
  rewrite !Missing by (repeat first [apply list_elem_of_here | apply list_elem_of_further]).
  reflexivity.
Qed.

End MoreSerialisation.

(** ** The history stores *)

Section MoreBestResult.
Import PyNum game_result py_max_by_wpm best_result.

Lemma scan_first_maximal (rest : list GameResult) :
  ∀ best,
    (scan best rest = best ∧ ∀ r, r ∈ rest → (wpm r <= wpm best)%Q)
    ∨ ∃ before after,
        rest = before ++ scan best rest :: after
        ∧ (wpm best < wpm (scan best rest))%Q
        ∧ (∀ r, r ∈ before → (wpm r < wpm (scan best rest))%Q)
        ∧ (∀ r, r ∈ after → (wpm r <= wpm (scan best rest))%Q).
Proof.
  induction rest as [|x rest IH]; intros best; simpl.
  - left. split; [reflexivity|]. intros r Hr. inversion Hr.
  - destruct (Qltb (wpm best) (wpm x)) eqn:C.
    + apply Qltb_lt in C.
      destruct (IH x) as [[E Le] | (before & after & E & Lt & B & A)].
      * right. exists [], rest. rewrite E. repeat split; try assumption.
        intros r Hr. inversion Hr.
      * right. exists (x :: before), after. split; [simpl; congruence|].
        split; [eapply Qlt_trans; eassumption|]. split; [|exact A].
        intros r Hr. apply elem_of_cons in Hr as [->|Hr]; [exact Lt | apply B, Hr].
    + apply Qltb_ge in C.
      destruct (IH best) as [[E Le] | (before & after & E & Lt & B & A)].
      * left. split; [exact E|]. intros r Hr.
        apply elem_of_cons in Hr as [->|Hr]; [exact C | apply Le, Hr].
      * right. exists (x :: before), after. split; [simpl; congruence|].
        split; [exact Lt|]. split; [|exact A].
        intros r Hr. apply elem_of_cons in Hr as [->|Hr]; [|apply B, Hr].
        eapply Qle_lt_trans; eassumption.
Qed.

Lemma max_by_wpm_first_maximal (results : list GameResult) (best : GameResult) :
  max_by_wpm results = Some best →
  ∃ before after,
    results = before ++ best :: after
    ∧ (∀ r, r ∈ before → (wpm r < wpm best)%Q)
    ∧ (∀ r, r ∈ after → (wpm r <= wpm best)%Q).
Proof.
  destruct results as [|first rest]; [discriminate|]. simpl. intros E.
  injection E as <-.
  destruct (scan_first_maximal rest first) as [[E Le] | (before & after & E & Lt & B & A)].
  - exists [], rest. rewrite E. repeat split; [|exact Le]. intros r Hr. inversion Hr.
  - exists (first :: before), after. split; [simpl; congruence|]. split; [|exact A].
    intros r Hr. apply elem_of_cons in Hr as [->|Hr]; [exact Lt | apply B, Hr].
Qed.

Lemma scan_snoc (rest : list GameResult) (r : GameResult) :
  ∀ best,
    scan best (rest ++ [r])
    = if Qltb (wpm (scan best rest)) (wpm r) then r else scan best rest.
Proof. induction rest as [|x rest IH]; intros best; simpl; [reflexivity | apply IH]. Qed.

Lemma max_by_wpm_snoc (results : list GameResult) (r : GameResult) :
  max_by_wpm (results ++ [r]) = Some (best_after (max_by_wpm results) r).
Proof.
  destruct results as [|first rest]; [reflexivity|]. simpl. rewrite scan_snoc. reflexivity.
Qed.

End MoreBestResult.

Section MoreMemoryStore.
Import PyNum game_result py_max_by_wpm best_result memory_history_repository.

(** X13.  When several stored results share the best wpm, [get_best] of
    the in-memory store answers the one saved first: every result before
    the answer is strictly slower and none after it is faster. *)
Theorem memory_get_best_is_first_maximal (repo : InMemoryHistoryRepository)
    (best : GameResult) :
  get_best repo = Ok (Some best, repo) →
  ∃ before after,
    _results repo = before ++ best :: after
    ∧ (∀ r, r ∈ before → (wpm r < wpm best)%Q)
    ∧ (∀ r, r ∈ after → (wpm r <= wpm best)%Q).
Proof.
  simpl. unfold mem_get_best. intros E. injection E as E.
  apply max_by_wpm_first_maximal, E.
Qed.

(** X14.  Saving to the in-memory store always succeeds and keeps every
    earlier result in place; the best result afterwards is the saved one
    if the store was empty or its best was strictly slower, and the old
    best otherwise; clearing leaves no best. *)
Theorem memory_save_then_get_best (repo : InMemoryHistoryRepository) (r : GameResult) :
  let repo' := mk_repo (_results repo ++ [r]) in
  save r repo = Ok repo'
  ∧ get_best repo'
    = Ok (Some (best_after (max_by_wpm (_results repo)) r), repo')
  ∧ (∀ i old, _results repo !! i = Some old → _results repo' !! i = Some old)
  ∧ (∀ cleared, clear repo' = Ok cleared → get_best cleared = Ok (None, cleared)).
Proof.
  cbn zeta. split; [reflexivity|]. split.
  - simpl. unfold mem_get_best. simpl. rewrite max_by_wpm_snoc. reflexivity.
  - split.
    + intros i old L. simpl. apply lookup_app_l_Some, L.
    + intros cleared E. simpl in E. unfold mem_clear in E. injection E as <-.
      reflexivity.
Qed.

End MoreMemoryStore.

Section MoreJsonStore.
Context `{Iso8601}.
Import PyNum game_result py_max_by_wpm best_result json_history_repository.

Lemma parse_records_length (clock : nat → datetime) (records : list json) :
  ∀ i results, parse_records clock i records = Ok results →
               length results = length records.
Proof.
  induction records as [|x records IH]; intros i results E; simpl in E.
  - injection E as <-. reflexivity.
  - apply bind_Ok in E as (r & _ & E). apply bind_Ok in E as (rs & Ers & E).
    injection E as <-. simpl. f_equal. apply (IH _ _ Ers).
Qed.

Lemma parse_records_snoc (clock : nat → datetime) (records : list json) (x : json)
    (r : GameResult) :
  ∀ i results,
    parse_records clock i records = Ok results →
    from_record (clock (i + length records)%nat) x = Ok r →
    parse_records clock i (records ++ [x]) = Ok (results ++ [r]).
Proof.
  induction records as [|y records IH]; intros i results E Ex; simpl in *.
  - injection E as <-. rewrite Nat.add_0_r in Ex. rewrite Ex. reflexivity.
  - apply bind_Ok in E as (ry & Ey & E). apply bind_Ok in E as (rs & Ers & E).
    injection E as <-. rewrite Ey. simpl.
    rewrite (IH (S i) rs Ers); [reflexivity|].
    replace (S i + length records)%nat with (i + S (length records))%nat by lia.
    exact Ex.
Qed.

(** X15.  A save that succeeds on a store whose file loads keeps every
    stored result and adds the saved one at the end: a store opened on the
    new file loads the old results followed by the reloaded new one, and
    the other entries of the document are kept. *)
Theorem json_save_appends (clock : nat → datetime) (repo repo' : JsonHistoryRepository)
    (r r' : GameResult) (results : list GameResult) (loaded : JsonHistoryRepository) :
  _load_results clock (mk_repo (file repo) None) = Ok (results, loaded) →
  json_save r repo = Ok repo' →
  from_dict (clock (length results)) (to_dict r) = Ok r' →
  _load_results clock (mk_repo (file repo') None)
  = Ok (results ++ [r'], mk_repo (file repo') (Some (results ++ [r'])))
  ∧ ∃ d d', _load_data repo = Ok (JDict d) ∧ file repo' = JsonDoc (JDict d')
            ∧ ∀ key, key ≠ "history"%string → d' !! key = d !! key.
Proof.
  unfold _load_results, json_save. cbn [_results_cache].
  change (_load_data (mk_repo (file repo) None)) with (_load_data repo).
  intros L S R.
  apply bind_Ok in L as (data & D & L).
  apply bind_Ok in L as (history & Eh & L).
  apply bind_Ok in L as (records & Er & L).
  apply bind_Ok in L as (rs & Ep & L). injection L as <- <-.
  rewrite D in S. cbn [bind] in S.
  rewrite Eh in S. cbn [bind] in S.
  destruct history as [| | | |?|l|?]; try discriminate.
  destruct data as [| | | |?|?|d]; try discriminate.
  injection S as <-. cbn [file]. unfold _load_data at 1. cbn [file bind].
  injection Er as <-.
  split.
  - unfold get_attr, pydict.get_default. rewrite lookup_insert_eq.
    cbn [from_option id bind iterate].
    rewrite (parse_records_snoc clock l (JDict (to_dict r)) r' 0 rs Ep).
    + reflexivity.
    + simpl. rewrite <- (parse_records_length _ _ _ _ Ep). exact R.
  - exists d, (<["history"%string := JList (l ++ [JDict (to_dict r)])]> d).
    split; [exact D|]. split; [reflexivity|].
    intros key Ne. apply lookup_insert_ne. congruence.
Qed.

(** X16.  Once a store has loaded its results, a later save adds the saved
    result itself to what the store answers from, without reading the file
    again: [get_best] is then the best of the loaded results and the saved
    one. *)
Theorem json_cache_follows_save (clock : nat → datetime)
    (repo loaded saved : JsonHistoryRepository) (results : list GameResult)
    (r : GameResult) :
  _load_results clock repo = Ok (results, loaded) →
  json_save r loaded = Ok saved →
  _results_cache saved = Some (results ++ [r])
  ∧ _load_results clock saved = Ok (results ++ [r], saved)
  ∧ json_get_best clock saved
    = Ok (Some (best_after (max_by_wpm results) r), saved).
Proof.
  intros L S.
  assert (C : _results_cache loaded = Some results).
  { unfold _load_results in L. destruct (_results_cache repo) as [cache|] eqn:E.
    - injection L as <- <-. exact E.
    - apply bind_Ok in L as (? & _ & L). apply bind_Ok in L as (? & _ & L).
      apply bind_Ok in L as (? & _ & L). apply bind_Ok in L as (? & _ & L).
      injection L as <- <-. reflexivity. }
  assert (C' : _results_cache saved = Some (results ++ [r])).
  { unfold json_save in S. apply bind_Ok in S as (data & _ & S).
    apply bind_Ok in S as (history & _ & S).
    destruct history; try discriminate.
    destruct data; try discriminate.
    injection S as <-. simpl. rewrite C. reflexivity. }
  assert (L' : _load_results clock saved = Ok (results ++ [r], saved)).
  { unfold _load_results. rewrite C'. reflexivity. }
  split; [exact C'|]. split; [exact L'|].
  rewrite (get_best_of_loaded _ _ _ _ L'), max_by_wpm_snoc. reflexivity.
Qed.

(** X17.  After [clear], whatever the file and the loaded results were, the
    store loads as empty and has no best result; a result saved next is
    the only one stored. *)
Theorem json_clear_empties (clock : nat → datetime) (repo : JsonHistoryRepository)
    (r : GameResult) :
  ∃ cleared,
    json_clear repo = Ok cleared
    ∧ _load_results clock cleared = Ok ([], mk_repo (file cleared) (Some []))
    ∧ json_get_best clock cleared = Ok (None, mk_repo (file cleared) (Some []))
    ∧ ∃ saved, json_save r cleared = Ok saved
               ∧ file saved
                 = JsonDoc (JDict {[ "history"%string := JList [JDict (to_dict r)] ]}).
Proof.
  exists (mk_repo (JsonDoc empty_history) None).
  assert (L := load_empty_history clock (JsonDoc empty_history) eq_refl).
  split; [reflexivity|]. split; [exact L|].
  split; [exact (get_best_of_loaded _ _ _ _ L)|].
  unfold json_save, _load_data, get_attr, empty_history, pydict.get_default.
  cbn [file bind]. rewrite lookup_singleton_eq. cbn [from_option bind _results_cache].
  eexists. split; [reflexivity|]. cbn [file]. rewrite insert_singleton_eq. reflexivity.
Qed.

End MoreJsonStore.

(** ** The router *)

Section MoreRouter.
Context {R : Type} `{HistoryRepository R}.
Import PyNum stats_calculator base_game variants application_router router_lifecycle.

Lemma response_is_never_error (answer : Response) :
  String.eqb (response_status answer) "error" = false.
Proof. destruct answer; reflexivity. Qed.

(** X18.  [process_game_input] answers false only when no game is
    installed: with a game it answers true whatever the session does with
    the input, an inactive session included; the session becomes what
    [process_input] makes of it, and selection and history are untouched. *)
Theorem process_game_input_fails_only_without_game (now : Q) (text : string)
    (is_complete : bool) (router : ApplicationRouter R) :
  let outcome := process_game_input now text is_complete router in
  (outcome.1 = true ↔ current_game router ≠ None)
  ∧ (current_game router = None → outcome = (false, router))
  ∧ current_game outcome.2
    = (fun game => (process_input now text is_complete game).2) <$> current_game router
  ∧ selected_game_index outcome.2 = selected_game_index router
  ∧ history_repository outcome.2 = history_repository router.
Proof.
  cbn zeta. unfold process_game_input.
  destruct (current_game router) as [game|] eqn:G.
  - cbn [fmap option_fmap option_map].
    destruct (process_input now text is_complete game) as [answer game'].
    simpl. rewrite response_is_never_error. simpl.
    split; [split; [discriminate | reflexivity]|].
    split; [discriminate|]. split; [reflexivity|]. split; reflexivity.
  - simpl. rewrite G.
    split; [split; [discriminate | intros N; contradiction]|].
    split; [reflexivity|]. split; [reflexivity|]. split; reflexivity.
Qed.

Lemma selected_class (router : ApplicationRouter R) :
  in_range (selected_game_index router) = true →
  (selected_game_index router = 0%Z
   ∧ AVAILABLE_GAMES !! Z.to_nat (selected_game_index router) = Some RandomWordsGame)
  ∨ (selected_game_index router = 1%Z
     ∧ AVAILABLE_GAMES !! Z.to_nat (selected_game_index router) = Some PhraseTypingGame).
Proof.
  intros I. apply in_range_spec in I. simpl in I.
  assert (D : selected_game_index router = 0%Z ∨ selected_game_index router = 1%Z) by lia.
  destruct D as [-> | ->]; [left | right]; split; reflexivity.
Qed.

Lemma start_game_cases (word_count : option Z) (preferred : Z) (words : list string)
    (router : ApplicationRouter R) :
  let effective := default preferred word_count in
  start_game word_count preferred words router
  = if in_range (selected_game_index router)
    then
      if bool_decide (selected_game_index router = 0%Z)
      then
        if (MIN_WORD_COUNT <=? effective)%Z && (effective <=? MAX_WORD_COUNT)%Z
        then (true, mk_router (history_repository router)
                              (Some (fresh_game RandomWordsGame words))
                              (selected_game_index router))
        else (false, router)
      else (true, mk_router (history_repository router)
                            (Some (fresh_game PhraseTypingGame words))
                            (selected_game_index router))
    else (false, router).
Proof.
  cbn zeta. unfold start_game.
  destruct (in_range (selected_game_index router)) eqn:I; [|reflexivity].
  cbn [negb]. destruct (selected_class router I) as [[E L] | [E L]]; rewrite L, E.
  - rewrite bool_decide_eq_true_2 by reflexivity. unfold initialize.
    destruct (_ && _); reflexivity.
  - rewrite bool_decide_eq_false_2 by discriminate. reflexivity.
Qed.

(** X19.  [start_game] fails, leaving the router as it was, exactly when
    the selection is outside the catalogue or the random-words variant is
    given a word count outside [5, 200] (the caller's, else the stored
    preference); the phrase variant accepts any word count.  On success
    the installed game is READY on the generated words with nothing typed,
    no error counted and the timer off. *)
Theorem start_game_checks_word_count (word_count : option Z) (preferred : Z)
    (words : list string) (router : ApplicationRouter R) :
  let effective := default preferred word_count in
  let outcome := start_game word_count preferred words router in
  (outcome.1 = false → outcome.2 = router)
  ∧ (outcome.1 = true
     ↔ (selected_game_index router = 0%Z ∧ (5 ≤ effective ≤ 200)%Z)
       ∨ selected_game_index router = 1%Z)
  ∧ (outcome.1 = true →
     ∃ cls,
       AVAILABLE_GAMES !! Z.to_nat (selected_game_index router) = Some cls
       ∧ current_game outcome.2 = Some (fresh_game cls words)
       ∧ selected_game_index outcome.2 = selected_game_index router
       ∧ history_repository outcome.2 = history_repository router).
Proof.
  cbn zeta. rewrite start_game_cases. cbn zeta.
  destruct (in_range (selected_game_index router)) eqn:I.
  - destruct (selected_class router I) as [[E L] | [E L]]; rewrite E in *.
    + rewrite bool_decide_eq_true_2 by reflexivity.
      unfold MIN_WORD_COUNT, MAX_WORD_COUNT.
      destruct (Z.leb_spec 5 (default preferred word_count));
        destruct (Z.leb_spec (default preferred word_count) 200); cbn [andb fst snd].
      * split; [discriminate|]. split; [split; [intros _; left; split; [reflexivity|lia]
                                                | reflexivity]|].
        intros _. exists RandomWordsGame. repeat split.
      * split; [reflexivity|]. split; [|discriminate].
        split; [discriminate | intros [[_ B] | D]; [lia | discriminate]].
      * split; [reflexivity|]. split; [|discriminate].
        split; [discriminate | intros [[_ B] | D]; [lia | discriminate]].
      * split; [reflexivity|]. split; [|discriminate].
        split; [discriminate | intros [[_ B] | D]; [lia | discriminate]].
    + rewrite bool_decide_eq_false_2 by discriminate. cbn [fst snd].
      split; [discriminate|]. split; [split; [intros _; right; reflexivity | reflexivity]|].
      intros _. exists PhraseTypingGame. repeat split.
  - cbn [fst snd]. split; [reflexivity|]. split; [|discriminate].
    split; [discriminate|].
    assert (Out : in_range (selected_game_index router) ≠ true) by congruence.
    rewrite in_range_spec in Out. simpl in Out.
    intros [[E _] | E]; rewrite E in Out; lia.
Qed.

(** X20.  [restart_game] succeeds exactly when [start_game] would, and
    never changes selection or history.  When it fails no game is left
    installed.  When it succeeds after a game whose target was not empty
    and the same text is asked for, the new game is a fresh one on the old
    target; otherwise it is a fresh one on the generated words. *)
Theorem restart_game_replays_text (keep_same_text : bool) (preferred : Z)
    (words : list string) (router : ApplicationRouter R) :
  let outcome := restart_game keep_same_text preferred words router in
  outcome.1 = (start_game None preferred words router).1
  ∧ selected_game_index outcome.2 = selected_game_index router
  ∧ history_repository outcome.2 = history_repository router
  ∧ (outcome.1 = false → current_game outcome.2 = None)
  ∧ (outcome.1 = true →
     ∃ cls,
       AVAILABLE_GAMES !! Z.to_nat (selected_game_index router) = Some cls
       ∧ current_game outcome.2
         = Some (fresh_game cls
                   (match current_game router with
                    | Some game =>
                        if keep_same_text
                           && negb (bool_decide (target_words game = []))
                        then target_words game else words
                    | None => words
                    end))).
Proof.
  cbn zeta. unfold restart_game.
  pose proof (start_game_cases None preferred words router) as Old.
  pose proof (start_game_cases None preferred words
                (mk_router (history_repository router) None
                           (selected_game_index router))) as New.
  cbn zeta in Old, New. cbn [selected_game_index history_repository] in New.
  rewrite Old, New. clear Old New.
  destruct (in_range (selected_game_index router)) eqn:I;
    [|cbn [negb fst snd selected_game_index history_repository current_game];
      repeat split; discriminate].
  destruct (selected_class router I) as [[E L] | [E L]]; rewrite L; rewrite E.
  - rewrite bool_decide_eq_true_2 by reflexivity.
    destruct (_ && _);
      [|cbn [negb fst snd selected_game_index history_repository current_game];
        repeat split; discriminate].
    cbn [negb current_game selected_game_index history_repository].
    destruct (current_game router) as [game|]; [destruct keep_same_text|];
      try (destruct (target_words game) as [|word rest] eqn:T);
      cbn [fst snd selected_game_index history_repository current_game andb negb];
      (split; [reflexivity|]; split; [reflexivity|]; split; [reflexivity|];
       split; [discriminate|]; intros _; exists RandomWordsGame;
       split; reflexivity).
  - rewrite bool_decide_eq_false_2 by discriminate.
    cbn [negb current_game selected_game_index history_repository].
    destruct (current_game router) as [game|]; [destruct keep_same_text|];
      try (destruct (target_words game) as [|word rest] eqn:T);
      cbn [fst snd selected_game_index history_repository current_game andb negb];
      (split; [reflexivity|]; split; [reflexivity|]; split; [reflexivity|];
       split; [discriminate|]; intros _; exists PhraseTypingGame;
       split; reflexivity).
Qed.

(** X21.  A game finished before its timer ever started gives a Result
    with speed 0 and duration 0, and [finish_game] never marks it as a new
    record, whatever the history holds. *)
Theorem finish_game_without_typing_is_no_record (now : Q) (stamp : datetime)
    (router router' : ApplicationRouter R) (game : BaseGame)
    (r : game_result.GameResult) :
  current_game router = Some game →
  Qltb 0 (start_time game) = false →
  finish_game now stamp router = Ok (Some r, router') →
  game_result.wpm r = 0%Q
  ∧ game_result.duration r = 0%Q
  ∧ game_result.is_new_record r = false
  ∧ current_game router' = Some (finish now stamp game).2
  ∧ is_game_finished router' = true.
Proof.
  intros G Off. unfold finish_game. rewrite G.
  destruct (finish now stamp game) as [result game'] eqn:F.
  assert (W : game_result.wpm result = 0%Q ∧ game_result.duration result = 0%Q
              ∧ status game' = COMPLETED).
  { unfold finish in F. rewrite Off in F. injection F as <- <-. repeat split. }
  destruct W as (W & D & St).
  intros E. apply bind_Ok in E as ([best repo] & _ & E).
  apply bind_Ok in E as (repo' & _ & E). injection E as <- <-.
  cbn [game_result.replace game_result.wpm game_result.duration
       game_result.is_new_record current_game snd].
  rewrite W, D. repeat split.
  unfold is_game_finished, is_finished. cbn [current_game]. rewrite St. reflexivity.
Qed.

(** X22.  Of the router's operations only [finish_game] writes the
    history, and the lifecycle operations never move the selection. *)
Theorem only_finish_game_writes_history (router : ApplicationRouter R) :
  (∀ index, history_repository (select_game index router).2 = history_repository router)
  ∧ (∀ direction, history_repository (navigate_game_selection direction router)
                  = history_repository router)
  ∧ (∀ word_count preferred words,
       history_repository (start_game word_count preferred words router).2
       = history_repository router
       ∧ selected_game_index (start_game word_count preferred words router).2
         = selected_game_index router)
  ∧ (history_repository (cancel_game router).2 = history_repository router
     ∧ selected_game_index (cancel_game router).2 = selected_game_index router
     ∧ current_game (cancel_game router).2 = None
     ∧ ((cancel_game router).1 = true ↔ current_game router ≠ None))
  ∧ (history_repository (return_to_main_menu router) = history_repository router
     ∧ current_game (return_to_main_menu router) = None)
  ∧ (∀ now stamp r router',
       finish_game now stamp router = Ok (r, router') →
       selected_game_index router' = selected_game_index router
       ∧ (current_game router = None → router' = router ∧ r = None)).
Proof.
  split; [intros index; unfold select_game; destruct (in_range index); reflexivity|].
  split; [reflexivity|].
  split.
  { intros word_count preferred words. rewrite start_game_cases. cbn zeta.
    destruct (in_range _); [destruct (bool_decide _); [destruct (_ && _)|]|];
      split; reflexivity. }
  split.
  { unfold cancel_game. destruct (current_game router) as [game|] eqn:G; cbn [fst snd].
    - repeat split; discriminate.
    - rewrite G. repeat split; try discriminate. intros N. contradiction. }
  split; [split; reflexivity|].
  intros now stamp r router'. unfold finish_game.
  destruct (current_game router) as [game|].
  - destruct (finish now stamp game) as [result game'].
    intros E. apply bind_Ok in E as ([best repo] & _ & E).
    apply bind_Ok in E as (repo' & _ & E). injection E as <- <-.
    split; [reflexivity | discriminate].
  - intros E. injection E as <- <-. split; [reflexivity|]. intros _. split; reflexivity.
Qed.

End MoreRouter.

Section MoreRouterMemory.
Import PyNum game_result py_max_by_wpm best_result base_game application_router.
Import memory_history_repository.

(** X23.  With the in-memory store, [finish_game] always succeeds and adds
    exactly the returned Result after the stored ones.  A Result marked as
    a new record is the store's best afterwards; one with positive speed
    that is not marked leaves the previous best in place. *)
Theorem new_record_is_the_stores_best (now : Q) (stamp : datetime)
    (router : ApplicationRouter InMemoryHistoryRepository) (game : BaseGame) :
  current_game router = Some game →
  ∃ r router',
    finish_game now stamp router = Ok (Some r, router')
    ∧ _results (history_repository router')
      = _results (history_repository router) ++ [r]
    ∧ (is_new_record r = true →
       get_best (history_repository router')
       = Ok (Some r, history_repository router'))
    ∧ (is_new_record r = false → (0 < wpm r)%Q →
       max_by_wpm (_results (history_repository router)) ≠ None
       ∧ get_best (history_repository router')
         = Ok (max_by_wpm (_results (history_repository router)),
               history_repository router')).
Proof.
  intros G. unfold finish_game. rewrite G.
  destruct (finish now stamp game) as [result game'].
  cbn [get_best save memory_repository mem_get_best mem_save bind].
  eexists. eexists. split; [reflexivity|].
  cbn [history_repository _results]. split; [reflexivity|].
  unfold mem_get_best. cbn [_results]. rewrite max_by_wpm_snoc.
  cbn [replace is_new_record wpm previous_best].
  destruct (max_by_wpm (_results (history_repository router))) as [b|];
    cbn [best_after wpm replace].
  - split.
    + intros New. apply andb_true_iff in New as [_ Faster]. rewrite Faster. reflexivity.
    + intros Old P. apply Qltb_lt in P. rewrite P in Old. cbn [andb] in Old.
      rewrite Old. split; [discriminate | reflexivity].
  - split; [reflexivity|].
    intros Old P. apply Qltb_lt in P. rewrite P in Old. discriminate.
Qed.

End MoreRouterMemory.

Section RouterQueries.
Context {R : Type}.
Import PyNum base_game variants application_router router_lifecycle.

(** X24.  [is_game_active] and [is_game_finished] never hold together, and
    one of them holds exactly when a game is installed; a game that
    [start_game] installs is active, and after [cancel_game] neither
    holds.  Input sent to an installed game that is finished and whose
    timer has started changes nothing in the router. *)
Theorem game_state_queries (router : ApplicationRouter R) :
  is_game_active router && is_game_finished router = false
  ∧ (is_game_active router || is_game_finished router = true
     ↔ current_game router ≠ None)
  ∧ (∀ word_count preferred words,
       (start_game word_count preferred words router).1 = true →
       is_game_active (start_game word_count preferred words router).2 = true)
  ∧ is_game_active (cancel_game router).2 = false
  ∧ is_game_finished (cancel_game router).2 = false
  ∧ (∀ now text is_complete game,
       current_game router = Some game → is_finished game = true →
       float_falsy (start_time game) = false →
       process_game_input now text is_complete router = (true, router)).
Proof.
  split.
  { unfold is_game_active, is_game_finished.
    destruct (current_game router) as [game|]; [|reflexivity].
    destruct (is_finished game); reflexivity. }
  split.
  { unfold is_game_active, is_game_finished.
    destruct (current_game router) as [game|].
    - destruct (is_finished game); split; try discriminate; reflexivity.
    - split; [discriminate | intros N; contradiction]. }
  split.
  { intros word_count preferred words. rewrite start_game_cases. cbn zeta.
    destruct (in_range _); [destruct (bool_decide _); [destruct (_ && _)|]|];
      try discriminate; reflexivity. }
  split; [unfold cancel_game; destruct (current_game router) as [game|] eqn:G;
          unfold is_game_active; cbn [snd current_game]; rewrite ?G; reflexivity|].
  split; [unfold cancel_game; destruct (current_game router) as [game|] eqn:G;
          unfold is_game_finished; cbn [snd current_game]; rewrite ?G; reflexivity|].
  intros now text is_complete game G Fin Started.
  unfold process_game_input. rewrite G.
  assert (NA : status game ≠ ACTIVE).
  { unfold is_finished in Fin. intros A. rewrite A in Fin. discriminate. }
  rewrite process_input_inactive;
    rewrite (start_timer_idle now text game (or_introl Started)); [|exact NA].
  destruct router as [repo current index]. simpl in *. rewrite G. reflexivity.
Qed.

End RouterQueries.

(** * The further properties on data *)

Section MoreRuns.
Import PyNum stats_calculator base_game variants session live_stats samples.
Import more_samples best_result router_lifecycle.
Import memory_history_repository.

Example exact_words_have_no_errors :
  calculate_wpm two_words two_words 12 = (500 # 100)%Q.
Proof. reflexivity. Qed.

(** X2 on two words typed exactly in twelve seconds. *)
Lemma tokens_match_witness :
  fold_left compare_words (zip two_words two_words) 0%Z = 0%Z
  ∧ stats_calculator_binary64.calculate_wpm two_words two_words (binary64.nearest 12)
    = Ok (binary64.Float (binary64.nearest 5)).
Proof.
  destruct (no_uncorrected_errors_iff_tokens_match two_words two_words) as [Iff Gross].
  assert (Same : ∀ i t g, two_words !! i = Some t → two_words !! i = Some g → t = g)
    by (intros i t g Ht Hg; congruence).
  split; [apply Iff, Same|].
  rewrite (Gross Same (binary64.nearest 12)). vm_compute. reflexivity.
Defined.

(** X3 on one typo against two, and on as many typos as characters. *)
Lemma accuracy_antitone_witness :
  (1 ≤ 2)%Z
  ∧ (calculate_accuracy two_words two_words 2 <= calculate_accuracy two_words two_words 1)%Q
  ∧ (calculate_accuracy two_words two_words 4 == 0)%Q.
Proof.
  split; [lia|]. split.
  - exact (proj1 (calculate_accuracy_antitone two_words two_words 1 2 ltac:(lia))).
  - apply (proj2 (calculate_accuracy_antitone two_words two_words 4 4 ltac:(lia))).
    vm_compute. discriminate.
Defined.

(** X4 on the session after its first word. *)
Lemma session_invariant_witness :
  reachable second_word ∧ session_invariant second_word.
Proof.
  split; [apply second_word_reachable|].
  apply reachable_session_invariant, second_word_reachable.
Defined.

(** X5: the keystrokes of the second word leave the first word alone. *)
Lemma committed_words_witness :
  typed_words second_word !! 0%nat = Some "ab"%string
  ∧ (0 < current_word_index second_word)%nat
  ∧ typed_words (feed second_word_keys second_word) !! 0%nat = Some "ab"%string
  ∧ target_words (feed second_word_keys second_word) = target_words second_word.
Proof.
  assert (L : typed_words second_word !! 0%nat = Some "ab"%string) by reflexivity.
  assert (C : (0 < current_word_index second_word)%nat) by (simpl; lia).
  destruct (committed_words_are_kept second_word_keys second_word 0 "ab" L C)
    as (Kept & _ & Target).
  split; [exact L|]. split; [exact C|]. split; [exact Kept | exact Target].
Defined.

(** X6 on a keystroke of the second word. *)
Lemma live_slot_witness :
  (process_input 1005 "c" false second_word).1 ≠ Inactive
  ∧ typed_words (process_input 1005 "c" false second_word).2 !! 1%nat = Some "c"%string
  ∧ current_word_index (process_input 1005 "c" false second_word).2 = 1%nat.
Proof.
  assert (A : (process_input 1005 "c" false second_word).1 ≠ Inactive) by discriminate.
  destruct (partial_input_fills_live_slot 1005 "c" second_word A) as (Slot & _ & Cu & _).
  split; [exact A|]. split; [exact Slot | exact Cu].
Defined.

(** X8 on two words submitted exactly. *)
Lemma exact_typing_witness :
  status initialized = READY
  ∧ status (feed (submit_all two_clocks two_words) (start two_words initialized).2)
    = COMPLETED
  ∧ error_count (feed (submit_all two_clocks two_words) (start two_words initialized).2)
    = 0%Z
  ∧ (game_result.accuracy
       (finish 1007 noon_utc
          (feed (submit_all two_clocks two_words) (start two_words initialized).2)).1
     == 100)%Q.
Proof.
  assert (Rd : status initialized = READY) by reflexivity.
  assert (Ne : two_words ≠ []) by discriminate.
  assert (All : Forall (fun w => w ≠ EmptyString) two_words)
    by (repeat constructor; discriminate).
  destruct (exact_typing_completes initialized two_words two_clocks Rd Ne All eq_refl)
    as (Done & _ & _ & NoError & Final).
  split; [exact Rd|]. split; [exact Done|]. split; [exact NoError|].
  exact (proj1 (Final 1007%Q noon_utc)).
Defined.

(** X9 before the timer starts, after a committed word, and during the
    first word. *)
Lemma live_stats_witness :
  (get_current_stats 1000 ready !! "accuracy"%string = Some (JFloat 100)
   ∧ get_current_stats 1000 ready !! "wpm"%string = Some (JFloat 0))
  ∧ get_current_stats 1007 second_word !! "wpm"%string
    = Some (JFloat (game_result.wpm (finish 1007 noon_utc second_word).1))
  ∧ (get_current_stats 1002 typing !! "accuracy"%string = Some (JFloat 100)
     ∧ game_result.accuracy (finish 1002 noon_utc typing).1 = 0%Q).
Proof.
  split; [|split].
  - destruct (live_stats_and_final_result 1000 noon_utc ready) as [Neutral _].
    destruct (Neutral eq_refl) as (W & A & _). split; [exact A | exact W].
  - destruct (live_stats_and_final_result 1007 noon_utc second_word) as [_ Running].
    destruct (Running eq_refl) as (_ & _ & Some_word & _).
    exact (proj1 (Some_word ltac:(discriminate))).
  - destruct (live_stats_and_final_result 1002 noon_utc typing) as [_ Running].
    destruct (Running eq_refl) as (_ & _ & _ & No_word).
    destruct (No_word eq_refl) as (_ & _ & A & F). split; [exact A | exact F].
Defined.

(** The two sample records load. *)
Lemma legacy_record_loads :
  game_result.from_dict (H := iso_text.codec) noon_utc legacy_record
  = Ok (game_result.mk_GameResult 75 0 0 "Phrase Typing" noon_utc 0 0 0 false None).
Proof. vm_compute. reflexivity. Qed.

Lemma mixed_record_loads :
  game_result.from_dict (H := iso_text.codec) noon_naive mixed_record
  = Ok (game_result.mk_GameResult 0 0 0 "Random Words" noon_utc 0 0 0 false None).
Proof. vm_compute. reflexivity. Qed.

(** X10 on a record of an earlier version that carries the two
    annotation keys. *)
Lemma annotations_witness :
  legacy_record !! "is_new_record"%string = Some (JBool true)
  ∧ game_result.is_new_record
      (game_result.mk_GameResult 75 0 0 "Phrase Typing" noon_utc 0 0 0 false None)
    = false
  ∧ tzinfo (game_result.timestamp
              (game_result.mk_GameResult 75 0 0 "Phrase Typing" noon_utc 0 0 0
                                         false None))
    ≠ None.
Proof.
  destruct (from_dict_never_restores_annotations (H := iso_text.codec)
              noon_utc legacy_record _ legacy_record_loads) as (NR & _ & Aware).
  split; [reflexivity|]. split; [exact NR|]. apply Aware. discriminate.
Defined.

(** X11 on a record with legacy keys only, and on one with both. *)
Lemma legacy_keys_witness :
  (legacy_record !! "game_type"%string = None
   ∧ legacy_record !! "game"%string = Some (JStr "Phrase Typing")
   ∧ game_result.game_type
       (game_result.mk_GameResult 75 0 0 "Phrase Typing" noon_utc 0 0 0 false None)
     = "Phrase Typing"%string)
  ∧ (mixed_record !! "game_type"%string = Some (JStr "Random Words")
     ∧ mixed_record !! "game"%string = Some (JStr "Phrase Typing")
     ∧ game_result.game_type
         (game_result.mk_GameResult 0 0 0 "Random Words" noon_utc 0 0 0 false None)
       = "Random Words"%string).
Proof.
  split.
  - destruct (from_dict_reads_legacy_keys (H := iso_text.codec)
                noon_utc legacy_record _ legacy_record_loads) as (_ & Legacy & _).
    split; [reflexivity|]. split; [reflexivity|].
    apply Legacy; reflexivity.
  - destruct (from_dict_reads_legacy_keys (H := iso_text.codec)
                noon_naive mixed_record _ mixed_record_loads) as (Modern & _).
    split; [reflexivity|]. split; [reflexivity|].
    apply Modern; [reflexivity | discriminate].
Defined.

(** X12 on a record with no known key. *)
Lemma defaults_witness :
  game_result.from_dict (H := iso_text.codec) noon_utc foreign_record
  = Ok (game_result.mk_GameResult 0 0 0 "Unknown" noon_utc 0 0 0 false None).
Proof.
  apply (from_dict_defaults (H := iso_text.codec)).
  intros key In. repeat (apply elem_of_cons in In as [-> | In]; [reflexivity|]).
  inversion In.
Defined.

(** X13 on two results with the same best speed. *)
Lemma first_maximal_witness :
  get_best three_results = Ok (Some fast, three_results)
  ∧ ∃ before after,
      _results three_results = before ++ fast :: after
      ∧ (∀ r, r ∈ before → (game_result.wpm r < game_result.wpm fast)%Q)
      ∧ (∀ r, r ∈ after → (game_result.wpm r <= game_result.wpm fast)%Q).
Proof.
  assert (B : get_best three_results = Ok (Some fast, three_results)) by reflexivity.
  split; [exact B|]. exact (memory_get_best_is_first_maximal three_results fast B).
Defined.

(** X14 on a slower result saved after three. *)
Lemma save_then_best_witness :
  get_best (mk_repo (_results three_results ++ [slow]))
  = Ok (Some fast, mk_repo (_results three_results ++ [slow]))
  ∧ get_best (mk_repo []) = Ok (None, mk_repo []).
Proof.
  destruct (memory_save_then_get_best three_results slow) as (_ & Best & _ & Cleared).
  split; [exact Best|]. exact (Cleared (mk_repo []) eq_refl).
Defined.

Lemma slow_reloads :
  game_result.from_dict (H := iso_text.codec) (noon_clock 0)
    (game_result.to_dict (H := iso_text.codec) slow) = Ok slow.
Proof. rewrite from_dict_to_dict. vm_compute. reflexivity. Qed.

Lemma fast_reloads :
  game_result.from_dict (H := iso_text.codec) (noon_clock 1)
    (game_result.to_dict (H := iso_text.codec) fast) = Ok fast.
Proof. rewrite from_dict_to_dict. vm_compute. reflexivity. Qed.

Lemma one_saved_loads :
  json_history_repository._load_results (H := iso_text.codec) noon_clock one_saved
  = Ok ([slow],
        json_history_repository.mk_repo (json_history_repository.file one_saved)
                                        (Some [slow])).
Proof.
  unfold json_history_repository._load_results, one_saved,
    json_history_repository._load_data, json_history_repository.get_attr,
    pydict.get_default.
  cbn [json_history_repository._results_cache json_history_repository.file bind].
  rewrite lookup_singleton_eq.
  cbn [from_option id bind json_history_repository.iterate
       json_history_repository.parse_records json_history_repository.from_record].
  rewrite slow_reloads. reflexivity.
Qed.

(** X15 on a second result saved to a file that holds one. *)
Lemma json_save_witness :
  ∃ saved,
    json_history_repository.json_save (H := iso_text.codec) fast one_saved = Ok saved
    ∧ json_history_repository._load_results (H := iso_text.codec) noon_clock
        (json_history_repository.mk_repo (json_history_repository.file saved) None)
      = Ok ([slow; fast],
            json_history_repository.mk_repo (json_history_repository.file saved)
                                            (Some [slow; fast])).
Proof.
  destruct (json_history_repository.json_save (H := iso_text.codec) fast one_saved)
    as [saved|e] eqn:S.
  - exists saved. split; [reflexivity|].
    exact (proj1 (json_save_appends (H := iso_text.codec) noon_clock one_saved saved
                    fast fast [slow] _ one_saved_loads S fast_reloads)).
  - exfalso. unfold json_history_repository.json_save, one_saved,
      json_history_repository._load_data, json_history_repository.get_attr,
      pydict.get_default in S.
    cbn [json_history_repository.file bind] in S. rewrite lookup_singleton_eq in S.
    discriminate S.
Defined.

(** X16 on a faster result saved after the store has loaded. *)
Lemma json_cache_witness :
  ∃ saved,
    json_history_repository.json_save (H := iso_text.codec) fast
      (json_history_repository.mk_repo (json_history_repository.file one_saved)
                                       (Some [slow]))
    = Ok saved
    ∧ json_history_repository._results_cache saved = Some [slow; fast]
    ∧ json_history_repository.json_get_best (H := iso_text.codec) noon_clock saved
      = Ok (Some fast, saved).
Proof.
  destruct (json_history_repository.json_save (H := iso_text.codec) fast
              (json_history_repository.mk_repo
                 (json_history_repository.file one_saved) (Some [slow])))
    as [saved|e] eqn:S.
  - exists saved. split; [reflexivity|].
    destruct (json_cache_follows_save (H := iso_text.codec) noon_clock one_saved _
                saved [slow] fast one_saved_loads S) as (Cache & _ & Best).
    split; [exact Cache | exact Best].
  - exfalso. unfold json_history_repository.json_save, one_saved,
      json_history_repository._load_data, json_history_repository.get_attr,
      pydict.get_default in S.
    cbn [json_history_repository.file bind] in S. rewrite lookup_singleton_eq in S.
    discriminate S.
Defined.

(** X18 with a game installed and without one. *)
Lemma process_game_input_witness :
  (application_router.process_game_input 1008 "x" false finishing_router).1 = true
  ∧ application_router.process_game_input 1000 "a" false fresh_router
    = (false, fresh_router).
Proof.
  split.
  - destruct (process_game_input_fails_only_without_game
                1008 "x" false finishing_router)
      as (Iff & _).
    apply Iff. discriminate.
  - destruct (process_game_input_fails_only_without_game
                1000 "a" false fresh_router)
      as (_ & No_game & _).
    apply No_game. reflexivity.
Defined.

(** X19 on the random-words selection with word counts 5 and 500, and on
    the phrase selection. *)
Lemma start_game_witness :
  (application_router.start_game (Some 5%Z) 20 two_words fresh_router).1 = true
  ∧ application_router.current_game
      (application_router.start_game (Some 5%Z) 20 two_words fresh_router).2
    = Some (fresh_game RandomWordsGame two_words)
  ∧ application_router.start_game (Some 500%Z) 20 two_words fresh_router
    = (false, fresh_router)
  ∧ (application_router.start_game (Some 500%Z) 20 two_words phrase_router).1 = true.
Proof.
  destruct (start_game_checks_word_count (Some 5%Z) 20 two_words fresh_router) as (_ & Ok5 & Installed).
  assert (S5 : (application_router.start_game (Some 5%Z) 20 two_words fresh_router).1
               = true).
  { apply Ok5. left. split; [reflexivity | simpl; lia]. }
  destruct (Installed S5) as (cls & Cls & Game & _).
  simpl in Cls. injection Cls as <-.
  split; [exact S5|]. split; [exact Game|]. split.
  - destruct (start_game_checks_word_count (Some 500%Z) 20 two_words fresh_router) as (Unchanged & _).
    apply injective_projections; [reflexivity | apply Unchanged; reflexivity].
  - destruct (start_game_checks_word_count (Some 500%Z) 20 two_words phrase_router) as (_ & Ok & _).
    apply Ok. right. reflexivity.
Defined.

(** X20 on a restart of the completed sample with the same text. *)
Lemma restart_game_witness :
  (restart_game true 20 ["xy"]%string finishing_router).1 = true
  ∧ application_router.current_game
      (restart_game true 20 ["xy"]%string finishing_router).2
    = Some (fresh_game RandomWordsGame two_words)
  ∧ application_router.current_game
      (restart_game true 500 ["xy"]%string finishing_router).2 = None.
Proof.
  destruct (restart_game_replays_text true 20 ["xy"]%string finishing_router) as (Ok & _ & _ & _ & Same).
  assert (S : (restart_game true 20 ["xy"]%string finishing_router).1 = true)
    by (rewrite Ok; reflexivity).
  destruct (Same S) as (cls & Cls & Game).
  simpl in Cls. injection Cls as <-.
  split; [exact S|]. split; [exact Game|].
  destruct (restart_game_replays_text true 500 ["xy"]%string finishing_router) as (_ & _ & _ & Lost & _).
  apply Lost. reflexivity.
Defined.

(** X21 on a game finished before any keystroke, against a history of
    three results. *)
Lemma finish_without_typing_witness :
  ∃ r router',
    application_router.finish_game 1000 noon_utc untouched_router = Ok (Some r, router')
    ∧ game_result.wpm r = 0%Q
    ∧ game_result.is_new_record r = false.
Proof.
  destruct (application_router.finish_game 1000 noon_utc untouched_router)
    as [[[r|] router']|e] eqn:F; try discriminate F.
  exists r, router'. split; [reflexivity|].
  destruct (finish_game_without_typing_is_no_record (H := memory_repository)
              1000 noon_utc untouched_router router' ready r eq_refl eq_refl F)
    as (W & _ & NR & _).
  split; [exact W | exact NR].
Defined.

(** X22 on the router holding the completed sample. *)
Lemma history_frame_witness :
  application_router.history_repository
    (application_router.cancel_game finishing_router).2
  = application_router.history_repository finishing_router
  ∧ (application_router.cancel_game finishing_router).1 = true
  ∧ application_router.finish_game 1000 noon_utc fresh_router = Ok (None, fresh_router).
Proof.
  destruct (only_finish_game_writes_history (H := memory_repository) finishing_router)
    as (_ & _ & _ & (Kept & _ & _ & Cancelled) & _).
  split; [exact Kept|]. split; [apply Cancelled; discriminate|].
  destruct (only_finish_game_writes_history (H := memory_repository) fresh_router)
    as (_ & _ & _ & _ & _ & Finish).
  destruct (application_router.finish_game 1000 noon_utc fresh_router)
    as [[r router']|e] eqn:F; [|discriminate F].
  destruct (Finish 1000%Q noon_utc r router' F) as (_ & None_installed).
  destruct (None_installed eq_refl) as [-> ->]. reflexivity.
Defined.

(** X23 on the completed sample finished against an empty history. *)
Lemma new_record_witness :
  ∃ r router',
    application_router.finish_game 1007 noon_utc record_router = Ok (Some r, router')
    ∧ game_result.is_new_record r = true
    ∧ get_best (application_router.history_repository router')
      = Ok (Some r, application_router.history_repository router').
Proof.
  destruct (new_record_is_the_stores_best 1007 noon_utc record_router completed eq_refl)
    as (r & router' & Run & Stored & New & _).
  exists r, router'. split; [exact Run|].
  assert (Flag : game_result.is_new_record r = true).
  { vm_compute in Run. injection Run as <- _. reflexivity. }
  split; [exact Flag | exact (New Flag)].
Defined.

(** X24 on the router holding the completed sample. *)
Lemma game_state_witness :
  is_game_finished finishing_router = true
  ∧ is_game_active finishing_router = false
  ∧ application_router.process_game_input 1008 "x" false finishing_router
    = (true, finishing_router)
  ∧ is_game_active
      (application_router.start_game None 20 two_words finishing_router).2 = true.
Proof.
  destruct (game_state_queries finishing_router) as (_ & _ & Started & _ & _ & Closed).
  split; [reflexivity|]. split; [reflexivity|].
  split; [exact (Closed 1008%Q "x"%string false completed eq_refl eq_refl eq_refl)|].
  apply Started. reflexivity.
Defined.

End MoreRuns.

(** * The metrics on floats as they are *)

(** ** Rounding to binary64 *)

Section Binary64.
Import PyNum binary64.

Lemma pow2_pos (e : Z) : (0 < 2 ^ e)%Q.
Proof. apply Qpower_0_lt. reflexivity. Qed.

Lemma pow2_add (a b : Z) : (2 ^ (a + b) == 2 ^ a * 2 ^ b)%Q.
Proof. apply Qpower_plus. discriminate. Qed.

Lemma pow2_sub (a b : Z) : (2 ^ (a - b) == 2 ^ a / 2 ^ b)%Q.
Proof. unfold Z.sub. rewrite pow2_add, Qpower_opp. reflexivity. Qed.

Lemma pow2_inject (n : Z) : (0 ≤ n)%Z → (inject_Z (2 ^ n) == 2 ^ n)%Q.
Proof. intros N. apply (Zpower_Qpower 2 n N). Qed.

Lemma pow2_le (a b : Z) : (a ≤ b)%Z → (2 ^ a <= 2 ^ b)%Q.
Proof. intros L. apply Qpower_le_compat_l; [exact L | discriminate]. Qed.

Lemma pow2_lt_inv (a b : Z) : (2 ^ a < 2 ^ b)%Q → (a < b)%Z.
Proof. intros L. apply (Qpower_lt_compat_l_inv 2); [exact L | reflexivity]. Qed.

Lemma Qdiv_lt_le (x y X Y : Q) :
  (0 <= x)%Q → (x < X)%Q → (0 < Y)%Q → (Y <= y)%Q → (x / y < X / Y)%Q.
Proof.
  intros Hx HxX HY HYy.
  assert (Hy : (0 < y)%Q) by lra.
  apply Qlt_shift_div_r; [exact Hy|].
  apply Qlt_le_trans with (y := X); [exact HxX|].
  assert (E : (X == X / Y * Y)%Q) by (field; lra).
  rewrite E at 1.
  apply Qmult_le_l; [|exact HYy].
  apply Qlt_shift_div_l; [exact HY|]. lra.
Qed.

Lemma Qdiv_le_lt (x y X Y : Q) :
  (0 < X)%Q → (X <= x)%Q → (0 < y)%Q → (y < Y)%Q → (X / Y < x / y)%Q.
Proof.
  intros HX HXx Hy HyY.
  assert (HY : (0 < Y)%Q) by lra.
  apply Qlt_shift_div_r; [exact HY|].
  apply Qle_lt_trans with (y := x); [exact HXx|].
  assert (E : (x == x / y * y)%Q) by (field; lra).
  rewrite E at 1.
  apply Qmult_lt_l; [|exact HyY].
  apply Qlt_shift_div_l; [exact Hy|]. lra.
Qed.

Lemma Zlog2_Q (n : Z) :
  (0 < n)%Z → (2 ^ Z.log2 n <= inject_Z n)%Q ∧ (inject_Z n < 2 ^ (Z.log2 n + 1))%Q.
Proof.
  intros N. destruct (Z.log2_spec n N) as [L U].
  pose proof (Z.log2_nonneg n) as P.
  split.
  - rewrite <- pow2_inject by exact P. rewrite <- Zle_Qle. exact L.
  - rewrite <- pow2_inject by lia. rewrite <- Zlt_Qlt. exact U.
Qed.

(** [ilog2] is the floor of the logarithm. *)
Lemma ilog2_spec (q : Q) :
  (0 < q)%Q → (2 ^ ilog2 q <= q)%Q ∧ (q < 2 ^ (ilog2 q + 1))%Q.
Proof.
  intros Pq. destruct q as [a b].
  assert (Pa : (0 < a)%Z).
  { unfold Qlt in Pq. simpl in Pq. lia. }
  destruct (Zlog2_Q a Pa) as [La Ua].
  destruct (Zlog2_Q (Zpos b) eq_refl) as [Lb Ub].
  unfold ilog2. cbn [Qnum Qden].
  set (la := Z.log2 a) in *. set (lb := Z.log2 (Z.pos b)) in *.
  assert (E : (a # b == inject_Z a / inject_Z (Z.pos b))%Q) by apply Qmake_Qdiv.
  assert (U : (a # b < 2 ^ (la - lb + 1))%Q).
  { replace (la - lb + 1)%Z with ((la + 1) - lb)%Z by lia.
    rewrite pow2_sub, E. apply Qdiv_lt_le.
    - rewrite <- (Zle_Qle 0). lia.
    - exact Ua.
    - apply pow2_pos.
    - exact Lb. }
  assert (L : (2 ^ (la - lb - 1) < a # b)%Q).
  { replace (la - lb - 1)%Z with (la - (lb + 1))%Z by lia.
    rewrite pow2_sub, E. apply Qdiv_le_lt.
    - apply pow2_pos.
    - exact La.
    - reflexivity.
    - exact Ub. }
  destruct (Qle_bool (2 ^ (la - lb)) (a # b)) eqn:C.
  - apply Qle_bool_iff in C. split; assumption.
  - split; [apply Qlt_le_weak; exact L|].
    replace (la - lb - 1 + 1)%Z with (la - lb)%Z by lia.
    apply Qnot_le_lt. intros C'. apply Qle_bool_iff in C'. congruence.
Qed.

Lemma ilog2_mono (p q : Q) : (0 < p)%Q → (p <= q)%Q → (ilog2 p ≤ ilog2 q)%Z.
Proof.
  intros Pp Le.
  destruct (ilog2_spec p Pp) as [Lp _].
  destruct (ilog2_spec q) as [_ Uq]; [lra|].
  assert (L : (2 ^ ilog2 p < 2 ^ (ilog2 q + 1))%Q) by lra.
  apply pow2_lt_inv in L. lia.
Qed.

Lemma ulp_exponent_mono (p q : Q) :
  (0 < p)%Q → (p <= q)%Q → (ulp_exponent p ≤ ulp_exponent q)%Z.
Proof.
  intros Pp Le. pose proof (ilog2_mono p q Pp Le). unfold ulp_exponent. lia.
Qed.

(** The scaled value fits 53 bits, and fills them above the subnormal
    range. *)
Lemma scaled_below (q : Q) :
  (0 < q)%Q → (q / 2 ^ ulp_exponent q < 2 ^ 53)%Q.
Proof.
  intros Pq. destruct (ilog2_spec q Pq) as [_ U].
  apply Qlt_shift_div_r; [apply pow2_pos|].
  rewrite <- pow2_add.
  eapply Qlt_le_trans; [exact U|]. apply pow2_le. unfold ulp_exponent. lia.
Qed.

Lemma scaled_above (q : Q) :
  (0 < q)%Q → (-1074 < ulp_exponent q)%Z → (2 ^ 52 <= q / 2 ^ ulp_exponent q)%Q.
Proof.
  intros Pq N. destruct (ilog2_spec q Pq) as [L _].
  apply Qle_shift_div_l; [apply pow2_pos|].
  rewrite <- pow2_add.
  eapply Qle_trans; [|exact L]. apply pow2_le. unfold ulp_exponent in *. lia.
Qed.

(** Rounding to the format is monotone. *)
Lemma round_positive_mono (p q : Q) :
  (0 < p)%Q → (p <= q)%Q → (round_positive p <= round_positive q)%Q.
Proof.
  intros Pp Le. assert (Pq : (0 < q)%Q) by lra.
  pose proof (ulp_exponent_mono p q Pp Le) as E.
  unfold round_positive.
  destruct (Z.eq_dec (ulp_exponent p) (ulp_exponent q)) as [Eq|Ne].
  - rewrite Eq. apply Qmult_le_compat_r; [|apply Qlt_le_weak, pow2_pos].
    rewrite <- Zle_Qle. apply round_half_even_mono.
    apply Qmult_le_compat_r; [exact Le|].
    apply Qlt_le_weak, Qinv_lt_0_compat, pow2_pos.
  - assert (Lt : (ulp_exponent p < ulp_exponent q)%Z) by lia.
    assert (N : (-1074 < ulp_exponent q)%Z).
    { unfold ulp_exponent in *. lia. }
    pose proof (scaled_below p Pp) as B.
    pose proof (scaled_above q Pq N) as A.
    assert (Mp : (round_half_even (p / 2 ^ ulp_exponent p) ≤ 2 ^ 53)%Z).
    { apply (round_half_even_between 0 (2 ^ 53)).
      - apply Qle_shift_div_l; [apply pow2_pos|].
        change (inject_Z 0) with 0%Q. rewrite Qmult_0_l. lra.
      - rewrite pow2_inject by lia. lra. }
    assert (Mq : (2 ^ 52 ≤ round_half_even (q / 2 ^ ulp_exponent q))%Z).
    { apply (round_half_even_between (2 ^ 52) (2 ^ 53)).
      - rewrite pow2_inject by lia. exact A.
      - rewrite pow2_inject by lia. apply Qlt_le_weak, scaled_below, Pq. }
    apply Qle_trans with (y := (2 ^ (ulp_exponent p + 53))%Q).
    + rewrite Z.add_comm, pow2_add.
      apply Qmult_le_compat_r; [|apply Qlt_le_weak, pow2_pos].
      rewrite <- (pow2_inject 53) by lia. rewrite <- Zle_Qle. exact Mp.
    + apply Qle_trans with (y := (2 ^ (52 + ulp_exponent q))%Q).
      * apply pow2_le. lia.
      * rewrite pow2_add.
        apply Qmult_le_compat_r; [|apply Qlt_le_weak, pow2_pos].
        rewrite <- (pow2_inject 52) by lia. rewrite <- Zle_Qle. exact Mq.
Qed.

Lemma round_positive_proper (p q : Q) :
  (0 < p)%Q → (p == q)%Q → (round_positive p == round_positive q)%Q.
Proof.
  intros Pp E. apply Qle_antisym; apply round_positive_mono; lra.
Qed.

Lemma round_positive_nonneg (q : Q) : (0 < q)%Q → (0 <= round_positive q)%Q.
Proof.
  intros Pq. unfold round_positive.
  apply Qmult_le_0_compat; [|apply Qlt_le_weak, pow2_pos].
  rewrite <- (Zle_Qle 0).
  apply (round_half_even_between 0 (2 ^ 53)).
  - apply Qle_shift_div_l; [apply pow2_pos|].
    change (inject_Z 0) with 0%Q. rewrite Qmult_0_l. lra.
  - rewrite pow2_inject by lia. apply Qlt_le_weak, scaled_below, Pq.
Qed.

Lemma nearest_positive_proper (s : bool) (p q : Q) :
  (0 < p)%Q → (p == q)%Q → nearest_positive s p = nearest_positive s q.
Proof.
  intros Pp E. pose proof (round_positive_proper p q Pp E) as R.
  unfold nearest_positive. cbv zeta.
  assert (Z0 : Qeq_bool (round_positive p) 0 = Qeq_bool (round_positive q) 0).
  { apply eq_true_iff_eq. rewrite !Qeq_bool_iff, R. reflexivity. }
  assert (Inf : Qle_bool (2 ^ 1024) (round_positive p)
                = Qle_bool (2 ^ 1024) (round_positive q)).
  { apply eq_true_iff_eq. rewrite !Qle_bool_iff, R. reflexivity. }
  rewrite Z0, Inf. clear Z0 Inf.
  destruct (Qeq_bool (round_positive q) 0); [reflexivity|].
  destruct (Qle_bool (2 ^ 1024) (round_positive q)); [reflexivity|].
  f_equal. apply Qred_complete. destruct s; rewrite R; reflexivity.
Qed.

(** The float of a rational does not depend on how the rational is
    written. *)
Lemma nearest_proper (p q : Q) : (p == q)%Q → nearest p = nearest q.
Proof.
  intros E. unfold nearest.
  assert (C : (p ?= 0)%Q = (q ?= 0)%Q).
  { apply Qcompare_comp; [exact E | reflexivity]. }
  rewrite <- C. destruct (p ?= 0)%Q eqn:Cp.
  - reflexivity.
  - apply nearest_positive_proper; [|rewrite E; reflexivity].
    rewrite <- Qlt_alt in Cp. lra.
  - apply nearest_positive_proper; [|exact E].
    rewrite <- Qgt_alt in Cp. exact Cp.
Qed.

(** A positive rational below a float of the format rounds to zero or to
    a positive float that is not above it. *)
Lemma nearest_below (q h : Q) :
  (0 < q)%Q → (q <= h)%Q → (round_positive h == h)%Q → (h < 2 ^ 1024)%Q →
  nearest q = Zero false ∨ ∃ v, nearest q = Finite v ∧ (0 < v)%Q ∧ (v <= h)%Q.
Proof.
  intros Pq Le Fix Fin.
  pose proof (round_positive_mono q h Pq Le) as M. rewrite Fix in M.
  pose proof (round_positive_nonneg q Pq) as N.
  unfold nearest. rewrite (proj1 (Qgt_alt q 0) Pq).
  unfold nearest_positive. cbv zeta.
  destruct (Qeq_bool (round_positive q) 0) eqn:Z0; [left; reflexivity|].
  assert (P : (0 < round_positive q)%Q).
  { apply Qle_lt_or_eq in N as [N|N]; [exact N|].
    symmetry in N. apply Qeq_bool_iff in N. congruence. }
  destruct (Qle_bool (2 ^ 1024) (round_positive q)) eqn:Inf.
  - apply Qle_bool_iff in Inf. lra.
  - right. exists (Qred (round_positive q)).
    split; [reflexivity|]. rewrite Qred_correct. split; assumption.
Qed.

End Binary64.

(** ** The two metrics *)

Section Binary64Metrics.
Import PyNum stats_calculator binary64 stats_calculator_binary64.

Lemma nearest_1 : nearest 1 = Finite 1.
Proof. vm_compute. reflexivity. Qed.

Lemma nearest_100 : nearest 100 = Finite 100.
Proof. vm_compute. reflexivity. Qed.

Lemma round_positive_1 : (round_positive 1 == 1)%Q.
Proof. vm_compute. reflexivity. Qed.

Lemma round_positive_100 : (round_positive 100 == 100)%Q.
Proof. vm_compute. reflexivity. Qed.

Lemma below_overflow_100 : (100 < 2 ^ 1024)%Q.
Proof. vm_compute. reflexivity. Qed.

Lemma below_overflow_1 : (1 < 2 ^ 1024)%Q.
Proof. vm_compute. reflexivity. Qed.

Lemma percentage_le (x : float) :
  percentage x → le (Zero false) x = true ∧ le x (nearest 100) = true.
Proof.
  rewrite nearest_100. intros [->|(v & -> & P & U)]; [split; reflexivity|].
  split; apply Qle_bool_iff; [apply Qlt_le_weak; exact P | exact U].
Qed.

Lemma round2_percentage (x : float) : percentage x → percentage (round2 x).
Proof.
  intros [->|(v & -> & P & U)]; [left; reflexivity|].
  unfold round2. cbv zeta.
  assert (N : Qltb v 0 = false).
  { unfold Qltb. apply negb_false_iff, Qle_bool_iff, Qlt_le_weak, P. }
  rewrite N.
  assert (A : (Qabs v * 100 == v * 100)%Q).
  { rewrite Qabs_pos by (apply Qlt_le_weak; exact P). reflexivity. }
  rewrite (round_half_even_proper _ _ A).
  destruct (round_half_even_between 0 10000 (v * 100)) as [L H].
  { change (inject_Z 0) with 0%Q. lra. }
  { change (inject_Z 10000) with 10000%Q. lra. }
  destruct (Z.eqb_spec (round_half_even (v * 100)) 0) as [E|NE]; [left; reflexivity|].
  destruct (nearest_below (round_half_even (v * 100) # 100) 100)
    as [Z0|(w & W & Pw & Uw)].
  - unfold Qlt. simpl. lia.
  - unfold Qle. simpl. lia.
  - exact round_positive_100.
  - exact below_overflow_100.
  - left. exact Z0.
  - right. exists w. split; [exact W|]. split; assumption.
Qed.

Lemma scale_percentage (x : float) :
  (x = Zero false ∨ ∃ v, x = Finite v ∧ (0 < v)%Q ∧ (v <= 1)%Q) →
  percentage (mul x (nearest 100)).
Proof.
  rewrite nearest_100. intros [->|(v & -> & P & U)]; [left; reflexivity|].
  unfold mul.
  destruct (nearest_below (v * 100) 100) as [Z0|(w & W & Pw & Uw)].
  - lra.
  - lra.
  - exact round_positive_100.
  - exact below_overflow_100.
  - left. exact Z0.
  - right. exists w. split; [exact W|]. split; assumption.
Qed.

(** The ratio of two integers [0 <= a <= total] is a float within
    [0.0, 1.0]. *)
Lemma ratio_in_unit (a total : Z) :
  (0 ≤ a ≤ total)%Z → (0 < total)%Z →
  ∃ x, int_truediv a total = Ok x
       ∧ (x = Zero false ∨ ∃ v, x = Finite v ∧ (0 < v)%Q ∧ (v <= 1)%Q).
Proof.
  intros [A0 AT] T. unfold int_truediv.
  destruct (Z.eqb_spec total 0) as [?|_]; [lia|].
  destruct (Z.eqb_spec a 0) as [->|NE].
  - exists (Zero false). split; [|left; reflexivity].
    destruct (Z.ltb_spec total 0); [lia | reflexivity].
  - assert (Pt : (0 < inject_Z total)%Q) by (rewrite <- (Zlt_Qlt 0); exact T).
    destruct (nearest_below (inject_Z a / inject_Z total) 1)
      as [Z0|(w & W & Pw & Uw)].
    + apply Qlt_shift_div_l; [exact Pt|]. rewrite Qmult_0_l.
      rewrite <- (Zlt_Qlt 0). lia.
    + apply Qle_shift_div_r; [exact Pt|]. rewrite Qmult_1_l.
      rewrite <- Zle_Qle. exact AT.
    + exact round_positive_1.
    + exact below_overflow_1.
    + rewrite Z0. eexists. split; [reflexivity|]. left. reflexivity.
    + rewrite W. eexists. split; [reflexivity|]. right. exists w. auto.
Qed.

Lemma accuracy_percentage (total typo_count : Z) :
  (0 < total)%Z → (0 ≤ typo_count)%Z →
  ∃ r, (ratio ←! int_truediv (total - Z.min typo_count total) total;
        Ok (round2 (mul ratio (nearest 100)))) = Ok r
       ∧ percentage r.
Proof.
  intros T K.
  destruct (ratio_in_unit (total - Z.min typo_count total) total) as (x & E & U);
    [lia | exact T |].
  rewrite E. cbn [bind]. eexists. split; [reflexivity|].
  apply round2_percentage, scale_percentage, U.
Qed.

Lemma ratio_without_typos (total : Z) :
  (0 < total)%Z →
  (ratio ←! int_truediv (total - Z.min 0 total) total;
   Ok (round2 (mul ratio (nearest 100)))) = Ok (nearest 100).
Proof.
  intros T. replace (total - Z.min 0 total)%Z with total by lia.
  unfold int_truediv.
  destruct (Z.eqb_spec total 0) as [?|_]; [lia|].
  rewrite (nearest_proper (inject_Z total / inject_Z total) 1).
  - rewrite nearest_1. vm_compute. reflexivity.
  - field. intros E. apply (inject_Z_injective total 0) in E. lia.
Qed.

Lemma calculate_accuracy_formula (typed target : list string) (typo_count : Z) :
  calculate_accuracy typed target typo_count
  = let total := Z.of_nat (sum_list (map String.length typed)) in
    if bool_decide (typed = []) || bool_decide (target = []) || (total =? 0)%Z
    then Ok (Zero false)
    else
      ratio ←! int_truediv (total - Z.min typo_count total) total;
      Ok (round2 (mul ratio (nearest 100))).
Proof.
  unfold calculate_accuracy. cbv zeta.
  rewrite sum_len_sum_list, py_min_min.
  destruct typed as [|t typed]; [reflexivity|].
  destruct target as [|g target]; [reflexivity|].
  reflexivity.
Qed.

(** X25.  On floats [calculate_wpm] is the specification's net WPM on
    every input: 0.0 when the elapsed time is zero, otherwise
    ((total_chars - uncorrected_errors) / 5) / (elapsed / 60), floored at
    0 and rounded to two decimals, each operation a float operation, with
    the specification's counts of typed characters and of differing
    positions; the call raises where a division of the formula does. *)
Theorem calculate_wpm_follows_formula (typed target : list string) (elapsed_seconds : float) :
  calculate_wpm typed target elapsed_seconds = spec_wpm typed target elapsed_seconds.
Proof.
  unfold calculate_wpm, spec_wpm.
  rewrite uncorrected_errors_spec, total_chars_spec. reflexivity.
Qed.

(** C9 (amended).  [calculate_accuracy] divides the characters that are
    not typos by the characters typed, multiplies the float quotient by
    100 and rounds the float product to two decimals; it is 0.0 when
    either list is empty or nothing was typed.  For a non-negative typo
    count it returns, without raising, a float between 0.0 and 100.0, and
    with no typo it returns 100.0 as soon as the formula applies. *)
Theorem calculate_accuracy_binary64 (typed target : list string) (typo_count : Z) :
  let total := Z.of_nat (sum_list (map String.length typed)) in
  calculate_accuracy typed target typo_count
  = (if bool_decide (typed = []) || bool_decide (target = []) || (total =? 0)%Z
     then Ok (Zero false)
     else
       ratio ←! int_truediv (total - Z.min typo_count total) total;
       Ok (round2 (mul ratio (nearest 100))))
  ∧ calculate_accuracy [] target typo_count = Ok (Zero false)
  ∧ calculate_accuracy typed [] typo_count = Ok (Zero false)
  ∧ (total = 0%Z → calculate_accuracy typed target typo_count = Ok (Zero false))
  ∧ ((0 ≤ typo_count)%Z →
     ∃ r, calculate_accuracy typed target typo_count = Ok r
          ∧ le (Zero false) r = true ∧ le r (nearest 100) = true)
  ∧ (typo_count = 0%Z → typed ≠ [] → target ≠ [] → total ≠ 0%Z →
     calculate_accuracy typed target typo_count = Ok (nearest 100)).
Proof.
  intros total. pose proof (calculate_accuracy_formula typed target typo_count) as E.
  cbv zeta in E. fold total in E.
  split; [exact E|]. split; [reflexivity|].
  split; [destruct typed; reflexivity|].
  split; [|split].
  - intros Z0. rewrite E, Z0, !orb_true_r. reflexivity.
  - intros K. rewrite E.
    destruct (bool_decide (typed = []) || bool_decide (target = [])
              || (total =? 0)%Z) eqn:B.
    + exists (Zero false). rewrite nearest_100. repeat split.
    + apply orb_false_iff in B as [_ B]. apply Z.eqb_neq in B.
      destruct (accuracy_percentage total typo_count) as (r & R & P);
        [unfold total in *; lia | exact K |].
      exists r. split; [exact R|]. apply percentage_le, P.
  - intros -> Ht Hg T. rewrite E.
    rewrite (bool_decide_eq_false_2 _ Ht), (bool_decide_eq_false_2 _ Hg).
    apply Z.eqb_neq in T as T'. rewrite T'. cbn [orb].
    apply ratio_without_typos. unfold total in *. lia.
Qed.

End Binary64Metrics.

(** ** The metrics on data *)

Section Binary64Runs.
Import PyNum stats_calculator binary64 stats_calculator_binary64.

(** The values the interpreter prints for these calls. *)
Example wpm_of_three_characters_in_96_seconds :
  calculate_wpm ["aaa"] ["aaa"] (nearest 96) = Ok (Float (nearest (37 # 100))).
Proof. vm_compute. reflexivity. Qed.

Example wpm_of_exact_words :
  calculate_wpm ["ab"; "cd"] ["ab"; "cd"] (nearest 12) = Ok (Float (nearest 5)).
Proof. vm_compute. reflexivity. Qed.

Example wpm_floor_is_an_int :
  calculate_wpm ["ab"] ["cdefgh"] (nearest 12) = Ok (Int 0).
Proof. vm_compute. reflexivity. Qed.


(** C9: 160 characters typed with 67 typos.  The code rounds
    (93 / 160) * 100, a float just above 58.125, to 58.13; the claimed
    100 * 93 / 160 is 58.125 exactly, on floats as in exact arithmetic,
    and rounds to 58.12. *)
Lemma accuracy_scales_after_dividing :
  calculate_accuracy (replicate 32 "abcde"%string) ["abcde"] 67
  = Ok (nearest (5813 # 100))
  ∧ spec_accuracy (replicate 32 "abcde"%string) ["abcde"] 67
    = Ok (nearest (5812 # 100))
  ∧ (stats_calculator.spec_accuracy (replicate 32 "abcde"%string) ["abcde"] 67
     == 5812 # 100)%Q
  ∧ nearest (5813 # 100) ≠ nearest (5812 # 100).
Proof.
  split; [vm_compute; reflexivity|]. split; [vm_compute; reflexivity|].
  split; [vm_compute; reflexivity|]. vm_compute. discriminate.
Qed.

(** C9 on the words [ab], [cd] typed without a typo, and with one. *)
Lemma calculate_accuracy_binary64_witness :
  (0 ≤ 1)%Z
  ∧ calculate_accuracy ["ab"; "cd"] ["ab"; "cd"] 0 = Ok (nearest 100)
  ∧ ∃ r, calculate_accuracy ["ab"; "cd"] ["ab"; "cd"] 1 = Ok r
         ∧ le (Zero false) r = true ∧ le r (nearest 100) = true.
Proof.
  split; [lia|]. split.
  - destruct (calculate_accuracy_binary64 ["ab"; "cd"]%string ["ab"; "cd"]%string 0)
      as (_ & _ & _ & _ & _ & Full).
    apply Full; [reflexivity | discriminate | discriminate | discriminate].
  - destruct (calculate_accuracy_binary64 ["ab"; "cd"]%string ["ab"; "cd"]%string 1)
      as (_ & _ & _ & _ & Bounds & _).
    apply Bounds. lia.
Defined.

End Binary64Runs.
